(** * Geometric data augmentation ([utils/data_augment.py])

    A shallow embedding of the crop / pad / scale-crop primitives, of the
    intrinsic-matrix update of [scale_crop] and of the view sampler
    [get_subset_views], together with the properties the specification
    states about them and further properties read off the code.

    Conventions.
    - Python integers are [Z]; array extents are [nat].
    - A numpy array is its shape together with an indexing function; two
      arrays are compared with [array_equal] (same shape, same element at
      every in-bounds index), the counterpart of [np.array_equal].
    - A call either returns a value or raises: [result A] is [exn + A].
    - The element type [F] (pixel values, matrix entries, the scale factor)
      is kept abstract behind the [Number] interface; it is instantiated with
      exact rationals and with IEEE binary64 floats further down. *)

From Stdlib Require Import ZArith List String Bool Lia Arith.
From Stdlib Require Import Permutation.
From Stdlib Require Import DecimalString.
From Stdlib Require Import QArith Qround.
From Stdlib Require Import PrimFloat Uint63 SpecFloat FloatOps.
From Stdlib Require Import Qpower Qabs.
Import ListNotations.

Local Open Scope string_scope.
Local Open Scope list_scope.
Local Open Scope Z_scope.

(* ===================================================================== *)
(** ** Exceptions and the result monad *)
(* ===================================================================== *)

Inductive exn : Type :=
| RuntimeError (msg : string)
| NameError (name : string)
| UnboundLocalError (name : string)
| IndexError (msg : string)
| ValueError (msg : string)
| AttributeError (msg : string)
| TypeError (msg : string)
| OverflowError (msg : string).

Definition result (A : Type) : Type := (exn + A)%type.

Definition Ok {A : Type} (x : A) : result A := inr x.
Definition Raise {A : Type} (e : exn) : result A := inl e.

Definition bind {A B : Type} (c : result A) (k : A -> result B) : result B :=
  match c with
  | inl e => inl e
  | inr x => k x
  end.

Declare Scope py_scope.
Delimit Scope py_scope with py.
Notation "x <- c ;; k" := (bind c (fun x => k))
  (at level 61, c at next level, right associativity) : py_scope.
Notation "' pat <- c ;; k" := (bind c (fun x => match x with pat => k end))
  (at level 61, pat pattern, c at next level, right associativity) : py_scope.
Notation "c ;;; k" := (bind c (fun _ => k))
  (at level 61, right associativity) : py_scope.
Local Open Scope py_scope.

Definition returns {A : Type} (c : result A) : Prop := exists x, c = Ok x.
Definition raises {A : Type} (c : result A) (P : exn -> Prop) : Prop :=
  exists e, c = Raise e /\ P e.

(** The two error classes of the specification, as the source raises them:
    both are [RuntimeError]s, told apart by their message. *)
Definition UnsupportedTypeError (e : exn) : Prop :=
  exists ty, e = RuntimeError ("invalid image type = " ++ ty)%string.
Definition InvalidDimensionError (e : exn) : Prop :=
  exists d, e = RuntimeError ("invalid input image dimension num = " ++ d)%string.

Definition string_of_nat (n : nat) : string :=
  NilZero.string_of_uint (Nat.to_uint n).

(* ===================================================================== *)
(** ** Numbers *)
(* ===================================================================== *)

Class Number (F : Type) : Type := {
  f0 : F;
  f1 : F;
  fadd : F -> F -> F;
  fmul : F -> F -> F;
  fopp : F -> F;
  of_int : Z -> F;  (* Python's [float(n)] *)
  (* the conversion numpy applies to a scalar it stores into an image array
     ([a[...] = v]: the value is cast to the array's dtype); it keeps zero *)
  astype : F -> F;
  astype_f0 : astype f0 = f0
}.

(* ===================================================================== *)
(** ** numpy arrays *)
(* ===================================================================== *)

Section Arrays.
Context {F : Type}.

Record ndarray : Type := mk_ndarray {
  shape : list nat;
  item : list nat -> F
}.

Definition ndim (a : ndarray) : nat := List.length (shape a).

(** [idx] addresses an element of an array of shape [shp]. *)
Definition in_bounds (idx shp : list nat) : Prop := Forall2 lt idx shp.

Definition array_equal (a b : ndarray) : Prop :=
  shape a = shape b /\
  forall idx, in_bounds idx (shape a) -> item a idx = item b idx.

(** An image array has rank 2 or 3: its shape is [h; w] or [h; w; c]. *)
Definition image_rank (a : ndarray) : Prop := ndim a = 2%nat \/ ndim a = 3%nat.

(** [a.copy()] *)
Definition copy (a : ndarray) : ndarray :=
  {| shape := shape a; item := fun idx => item a idx |}.

(** [a.shape[k]] *)
Definition shape_at (a : ndarray) (k : nat) : result nat :=
  match nth_error (shape a) k with
  | Some n => Ok n
  | None => Raise (IndexError "tuple index out of range")
  end.

(** *** Basic slicing

    [slice_indices start stop n] is CPython's [PySlice_AdjustIndices] for a
    unit step on an axis of extent [n]: the first selected position and the
    number of selected positions. *)
Definition adjust_index (i : Z) (n : nat) : nat :=
  Z.to_nat (if i <? 0 then Z.max (i + Z.of_nat n) 0
            else Z.min i (Z.of_nat n)).

Definition slice_indices (start stop : Z) (n : nat) : nat * nat :=
  let lo := adjust_index start n in
  let hi := adjust_index stop n in
  (lo, (hi - lo)%nat).

Inductive slice : Type :=
| Slice (start stop : Z)     (* [start:stop] *)
| SliceAll.                   (* [:] *)

Definition slice_start_len (s : slice) (n : nat) : nat * nat :=
  match s with
  | Slice start stop => slice_indices start stop n
  | SliceAll => (0%nat, n)
  end.

Fixpoint slice_shape (shp : list nat) (sl : list slice) : result (list nat) :=
  match shp, sl with
  | _, [] => Ok shp
  | [], _ :: _ => Raise (IndexError "too many indices for array")
  | n :: shp', s :: sl' =>
      rest <- slice_shape shp' sl' ;;
      Ok (snd (slice_start_len s n) :: rest)
  end.

Fixpoint slice_source (shp : list nat) (sl : list slice) (idx : list nat)
  : list nat :=
  match shp, sl, idx with
  | n :: shp', s :: sl', i :: idx' =>
      (fst (slice_start_len s n) + i)%nat :: slice_source shp' sl' idx'
  | _, _, _ => idx
  end.

(** [a[s0, s1, ...]] with slices only: a view on [a]. *)
Definition getitem (a : ndarray) (sl : list slice) : result ndarray :=
  shp <- slice_shape (shape a) sl ;;
  Ok {| shape := shp;
        item := fun idx => item a (slice_source (shape a) sl idx) |}.

(** *** [np.pad(a, pad_width, 'constant', constant_values=v)]

    The new cells are assigned [v], which numpy casts to the dtype of [a]. *)
Fixpoint pad_shape (shp : list nat) (pw : list (Z * Z)) : list nat :=
  match shp, pw with
  | n :: shp', (before, after) :: pw' =>
      (Z.to_nat before + n + Z.to_nat after)%nat :: pad_shape shp' pw'
  | _, _ => []
  end.

Fixpoint pad_source (shp : list nat) (pw : list (Z * Z)) (idx : list nat)
  : option (list nat) :=
  match shp, pw, idx with
  | [], [], [] => Some []
  | n :: shp', (before, _) :: pw', i :: idx' =>
      if (Z.to_nat before <=? i)%nat && (i <? Z.to_nat before + n)%nat
      then option_map (cons (i - Z.to_nat before)%nat)
                      (pad_source shp' pw' idx')
      else None
  | _, _, _ => None
  end.

Definition np_pad {NF : Number F} (a : ndarray) (pad_width : list (Z * Z)) (v : F)
  : result ndarray :=
  (* a single [(before, after)] pair is broadcast to every axis *)
  let pw := match pad_width with
            | [p] => repeat p (ndim a)
            | _ => pad_width
            end in
  if negb (List.length pw =? ndim a)%nat then
    Raise (ValueError "operands could not be broadcast together")
  else if existsb (fun p => (fst p <? 0) || (snd p <? 0)) pw then
    Raise (ValueError "index can't contain negative values")
  else
    Ok {| shape := pad_shape (shape a) pw;
          item := fun idx =>
                    match pad_source (shape a) pw idx with
                    | Some src => item a src
                    | None => astype v
                    end |}.

(** *** PIL images

    A [PIL.Image.Image] exposes [width], [height] and a two-element [size];
    pixels are addressed as [(x, y)]. *)
Record pil_image : Type := mk_pil {
  pil_width : nat;
  pil_height : nat;
  pil_pixel : nat -> nat -> F
}.

Definition pil_equal (p q : pil_image) : Prop :=
  pil_width p = pil_width q /\ pil_height p = pil_height q /\
  forall x y, (x < pil_width p)%nat -> (y < pil_height p)%nat ->
              pil_pixel p x y = pil_pixel q x y.

(** [torchvision.transforms.Pad((left, top, right, bottom))(im)]: constant
    padding with the transform's default [fill]. *)
Definition transforms_Pad (left top right bottom : Z) (fill : F)
           (im : pil_image) : pil_image :=
  let l := Z.to_nat left in
  let t := Z.to_nat top in
  {| pil_width := (l + pil_width im + Z.to_nat right)%nat;
     pil_height := (t + pil_height im + Z.to_nat bottom)%nat;
     pil_pixel := fun x y =>
       if (l <=? x)%nat && (x <? l + pil_width im)%nat &&
          (t <=? y)%nat && (y <? t + pil_height im)%nat
       then pil_pixel im (x - l)%nat (y - t)%nat
       else fill |}.

(** *** Python values that reach the image parameters *)
Inductive pyobj : Type :=
| PyNdarray (a : ndarray)        (* [np.ndarray] *)
| PyTensor (t : ndarray)         (* [torch.Tensor] *)
| PyPIL (im : pil_image)         (* [PIL.Image.Image] *)
| PyNone
| PyOther (type_name : string).  (* any other object, by its type's name *)

(** [str(type(obj))], as interpolated into the error messages. *)
Definition type_repr (o : pyobj) : string :=
  match o with
  | PyNdarray _ => "<class 'numpy.ndarray'>"
  | PyTensor _ => "<class 'torch.Tensor'>"
  | PyPIL _ => "<class 'PIL.Image.Image'>"
  | PyNone => "<class 'NoneType'>"
  | PyOther t => ("<class '" ++ t ++ "'>")%string
  end.

(** [isinstance(o, np.ndarray)] *)
Definition is_ndarray (o : pyobj) : bool :=
  match o with
  | PyNdarray _ => true
  | _ => false
  end.

Definition obj_equal (o1 o2 : pyobj) : Prop :=
  match o1, o2 with
  | PyNdarray a, PyNdarray b => array_equal a b
  | PyTensor a, PyTensor b => array_equal a b
  | PyPIL p, PyPIL q => pil_equal p q
  | PyNone, PyNone => True
  | PyOther s, PyOther t => s = t
  | _, _ => False
  end.

End Arrays.

Arguments ndarray F : clear implicits.
Arguments pil_image F : clear implicits.
Arguments pyobj F : clear implicits.

(* ===================================================================== *)
(** ** Matrix operations used by the intrinsic update *)
(* ===================================================================== *)

Section Matrices.
Context {F : Type} {NF : Number F}.

(** [np.eye(n)] *)
Definition np_eye (n : nat) : ndarray F :=
  {| shape := [n; n];
     item := fun idx =>
               match idx with
               | [i; j] => if (i =? j)%nat then f1 else f0
               | _ => f0
               end |}.

Fixpoint index_ok (idx shp : list nat) : bool :=
  match idx, shp with
  | [], [] => true
  | i :: idx', n :: shp' => (i <? n)%nat && index_ok idx' shp'
  | _, _ => false
  end.

(** [a[i, j, ...] = v] with one integer per axis, as a functional update. *)
Definition setitem (a : ndarray F) (idx : list nat) (v : F)
  : result (ndarray F) :=
  if index_ok idx (shape a) then
    Ok {| shape := shape a;
          item := fun idx' =>
                    if list_eq_dec Nat.eq_dec idx' idx then v
                    else item a idx' |}
  else Raise (IndexError "index is out of bounds").

(** Left-to-right sum of [f 0], ..., [f (m-1)]. *)
Definition fsum (m : nat) (f : nat -> F) : F :=
  match map f (seq 0 m) with
  | [] => f0
  | x :: xs => fold_left fadd xs x
  end.

(** [a.dot(b)] ([np.dot]): scalar product when either operand is 0-d; sum
    over the last axis of [a] and the only axis of a 1-d [b], or the
    second-to-last axis of an n-d [b]. *)
Definition dot (a b : ndarray F) : result (ndarray F) :=
  match ndim a, ndim b with
  | O, _ =>
      Ok {| shape := shape b;
            item := fun idx => fmul (item a []) (item b idx) |}
  | _, O =>
      Ok {| shape := shape a;
            item := fun idx => fmul (item a idx) (item b []) |}
  | S na, S nb =>
      let m := last (shape a) 0%nat in
      let m' := nth (nb - 1) (shape b) 0%nat in
      if negb (m =? m')%nat then
        Raise (ValueError "shapes not aligned")
      else
        let sb := match nb with
                  | O => []
                  | S k => firstn k (shape b) ++ [last (shape b) 0%nat]
                  end in
        Ok {| shape := removelast (shape a) ++ sb;
              item := fun idx =>
                let ia := firstn na idx in
                let jb := skipn na idx in
                fsum m (fun k =>
                  fmul (item a (ia ++ [k]))
                       (item b (firstn (nb - 1) jb ++ k :: skipn (nb - 1) jb)))
           |}
  end.

End Matrices.

(* ===================================================================== *)
(** ** The module's namespace *)
(* ===================================================================== *)

(** Names bound at module level once [data_augment.py] has been executed:
    its four imports (lines 15-18) and its five function definitions. *)
Definition module_globals : list string :=
  ["os"; "random"; "imageio"; "np";
   "get_subset_views"; "get_random_crop_offsets"; "pad_width_or_height";
   "crop_img"; "scale_crop"].

(** Names the interpreter finds in [builtins] that the module uses. *)
Definition builtins : list string :=
  ["isinstance"; "tuple"; "int"; "float"; "len"; "max"; "round"; "type";
   "RuntimeError"].

(** [LOAD_GLOBAL name]: module namespace first, then builtins. *)
Definition load_global (globals : list string) (name : string) : result unit :=
  if existsb (String.eqb name) globals || existsb (String.eqb name) builtins
  then Ok tt
  else Raise (NameError ("name '" ++ name ++ "' is not defined")%string).

(* ===================================================================== *)
(** ** Crop sizes *)
(* ===================================================================== *)

(** [crop_size] is a tuple or anything else, used as one number. *)
Inductive crop_size_t : Type :=
| CropTuple (elems : list Z)
| CropScalar (n : Z).

Definition tuple_at (t : list Z) (k : nat) : result Z :=
  match nth_error t k with
  | Some x => Ok x
  | None => Raise (IndexError "tuple index out of range")
  end.

(** Lines 34-38, 97-101 and 130-134: [(crop_height, crop_width)]. *)
Definition unpack_crop_size (crop_size : crop_size_t) : result (Z * Z) :=
  match crop_size with
  | CropTuple t =>
      crop_height <- tuple_at t 0 ;;
      crop_width <- tuple_at t 1 ;;
      Ok (crop_height, crop_width)
  | CropScalar n => Ok (n, n)
  end.

(* ===================================================================== *)
(** ** [pad_width_or_height] and [crop_img] *)
(* ===================================================================== *)

Section Primitives.
Context {F : Type} {NF : Number F}.

(** What [pad_width_or_height] returns: the padded data alone, or the tuple
    [(data, p_top, p_bottom, p_left, p_right)]. *)
Inductive pad_result : Type :=
| PadData (data : pyobj F)
| PadTuple (data : pyobj F) (p_top p_bottom p_left p_right : Z).

Definition pad_data (r : pad_result) : pyobj F :=
  match r with
  | PadData d => d
  | PadTuple d _ _ _ _ => d
  end.

(** [int(np.floor(n / 2))]; the float quotient is exact for every extent an
    array can have (below 2^53). *)
Definition floor_half (n : Z) : Z := n / 2.

(** [pad_width_or_height(data, output_width, output_height, pad_value,
    return_offsets)]; the Python defaults are [256], [256], [0], [False]. *)
Definition pad_width_or_height (data : pyobj F) (output_width output_height : Z)
           (pad_value : F) (return_offsets : bool) : result pad_result :=
  (* lines 50-55: [height], [width], [with_channel] stay unbound for any
     other type *)
  locals <- match data with
            | PyNdarray a =>
                height <- shape_at a 0 ;;
                width <- shape_at a 1 ;;
                Ok (Some (height, width, (ndim a =? 3)%nat))
            | PyPIL im => Ok (Some (pil_height im, pil_width im, false))
            | _ => Ok None
            end ;;
  '(height, width, with_channel) <-
      match locals with
      | Some l => Ok l
      | None => Raise (UnboundLocalError "width")
      end ;;
  let height := Z.of_nat height in
  let width := Z.of_nat width in
  (* lines 57-63 *)
  let '(p_left, p_right) :=
    if width <? output_width then
      let p_left := floor_half (output_width - width) in
      (p_left, (output_width - width) - p_left)
    else (0, 0) in
  let '(p_top, p_bottom) :=
    if height <? output_height then
      let p_top := floor_half (output_height - height) in
      (p_top, (output_height - height) - p_top)
    else (0, 0) in
  (* lines 65-72 *)
  data' <- match data with
           | PyNdarray a =>
               a' <- (if with_channel
                      then np_pad a [(p_top, p_bottom); (p_left, p_right); (0, 0)]
                                  pad_value
                      else np_pad a [(p_top, p_bottom); (p_left, p_right)]
                                  pad_value) ;;
               Ok (PyNdarray a')
           | PyPIL im =>
               Ok (PyPIL (transforms_Pad p_left p_top p_right p_bottom f0 im))
           | _ => Ok data
           end ;;
  (* lines 74-77 *)
  if return_offsets then Ok (PadTuple data' p_top p_bottom p_left p_right)
  else Ok (PadData data').

(** [torch.is_tensor(img)] and [img.ndimension()], once [torch] is loaded. *)
Definition is_tensor (img : pyobj F) : bool :=
  match img with
  | PyTensor _ => true
  | _ => false
  end.

Definition ndimension (img : pyobj F) : nat :=
  match img with
  | PyTensor t => ndim t
  | _ => 0%nat
  end.

(** [img[...]] on an array or a tensor. *)
Definition obj_getitem (img : pyobj F) (sl : list slice) : result (pyobj F) :=
  match img with
  | PyNdarray a => v <- getitem a sl ;; Ok (PyNdarray v)
  | PyTensor t => v <- getitem t sl ;; Ok (PyTensor v)
  | _ => Raise (TypeError "object is not subscriptable")
  end.

(** [crop_img(img, crop_size, h_offset, w_offset)], run in a module whose
    namespace is [globals].  A function that falls off its end returns
    [None]. *)
Definition crop_img_in (globals : list string) (img : pyobj F)
           (crop_size : crop_size_t) (h_offset w_offset : Z)
  : result (pyobj F) :=
  (* lines 90-95 *)
  dim <- match img with
         | PyNdarray a => Ok (ndim a)
         | _ =>
             load_global globals "torch" ;;;
             if is_tensor img then Ok (ndimension img)
             else Raise (RuntimeError
                           ("invalid image type = " ++ type_repr img)%string)
         end ;;
  (* lines 97-101 *)
  '(crop_height, crop_width) <- unpack_crop_size crop_size ;;
  (* lines 103-108 *)
  if (dim =? 3)%nat then
    obj_getitem img [Slice h_offset (h_offset + crop_height);
                     Slice w_offset (w_offset + crop_width);
                     SliceAll]
  else if (dim =? 2)%nat then
    obj_getitem img [Slice h_offset (h_offset + crop_height);
                     Slice w_offset (w_offset + crop_width)]
  else Ok PyNone.

Definition crop_img : pyobj F -> crop_size_t -> Z -> Z -> result (pyobj F) :=
  crop_img_in module_globals.

(** Spatial extents of an image value. *)
Definition obj_height (o : pyobj F) : nat :=
  match o with
  | PyNdarray a | PyTensor a => nth 0 (shape a) 0%nat
  | PyPIL im => pil_height im
  | _ => 0%nat
  end.

Definition obj_width (o : pyobj F) : nat :=
  match o with
  | PyNdarray a | PyTensor a => nth 1 (shape a) 0%nat
  | PyPIL im => pil_width im
  | _ => 0%nat
  end.

(** The image values [pad_width_or_height] is written for: arrays of shape
    [(h, w)] or [(h, w, c)], and PIL images. *)
Definition is_image (o : pyobj F) : Prop :=
  match o with
  | PyNdarray a => image_rank a
  | PyPIL _ => True
  | _ => False
  end.

(** The amounts lines 57-63 compute for one axis. *)
Definition pad_before (size target : Z) : Z :=
  if size <? target then floor_half (target - size) else 0.
Definition pad_after (size target : Z) : Z :=
  if size <? target then (target - size) - floor_half (target - size) else 0.




End Primitives.

Arguments pad_result F : clear implicits.

(* ===================================================================== *)
(** ** [get_random_crop_offsets] *)
(* ===================================================================== *)

(** A finite uniform distribution, given by the list of its equally likely
    outcomes. *)
Definition dist (A : Type) : Type := list A.

Definition dist_ret {A : Type} (x : A) : dist A := [x].
Definition dist_bind {A B : Type} (d : dist A) (k : A -> dist B) : dist B :=
  flat_map k d.

(** The probability of the event [ev] under [d] is
    [favourable ev d / length d]. *)
Definition favourable {A : Type} (ev : A -> bool) (d : dist A) : nat :=
  List.length (filter ev d).

(** The joint outcomes of two independent draws, in the order
    [get_random_crop_offsets] makes them. *)
Definition draws {A B : Type} (ws : list B) (hs : list A) : dist (A * B) :=
  dist_bind ws (fun w : B => dist_bind hs (fun h : A => dist_ret (h, w))).

(** [np.random.randint(low, high)]: discrete uniform on [[low, high)].  The
    draw is made in [int64]: numpy checks the closed interval
    [[low, high - 1]] against the range of that type first. *)
Definition np_random_randint (low high : Z) : result (dist Z) :=
  if low <? - 2 ^ 63 then Raise (ValueError "low is out of bounds for int64")
  else if 2 ^ 63 - 1 <? high - 1 then
    Raise (ValueError "high is out of bounds for int64")
  else if high <=? low then Raise (ValueError "low >= high")
  else Ok (map (fun k => low + Z.of_nat k) (seq 0 (Z.to_nat (high - low)))).

Definition get_random_crop_offsets (crop_size : crop_size_t) (height width : Z)
  : result (dist (Z * Z)) :=
  '(crop_height, crop_width) <- unpack_crop_size crop_size ;;
  w_offsets <- np_random_randint 0 (Z.max 1 (width - crop_width - 1)) ;;
  h_offsets <- np_random_randint 0 (Z.max 1 (height - crop_height - 1)) ;;
  Ok (dist_bind w_offsets (fun w_offset =>
      dist_bind h_offsets (fun h_offset =>
      dist_ret (h_offset, w_offset)))).

(* ===================================================================== *)
(** ** [scale_crop] *)
(* ===================================================================== *)

(** [os.path.join(root, name)] for a relative [name]. *)
Definition os_path_join (root name : string) : string :=
  if (String.length root =? 0)%nat then name
  else if String.eqb (substring (String.length root - 1) 1 root) "/"
       then (root ++ name)%string
       else (root ++ "/" ++ name)%string.

Definition default_debug_root : string :=
  "/home/ICT2000/tli/Dropbox/DenseFaceTracking/debug/image_perturbation_with_intrinsics".

Section ScaleCrop.
Context {F : Type} {NF : Number F}.

(** [skimage.transform.rescale(image, scale, channel_axis, anti_aliasing=True)],
    an external primitive. *)
Variable rescale : ndarray F -> F -> option nat -> result (ndarray F).

(** The debug writer [imageio.imsave(path, (255.*img).astype(np.uint8))],
    an external hook that receives the path and the image. *)
Variable imsave : string -> pyobj F -> result unit.

(** What [scale_crop] returns: [img], or the tuple [(img, K_aug)]. *)
Inductive scale_crop_result : Type :=
| ScImage (img : pyobj F)
| ScImageK (img : pyobj F) (K_aug : ndarray F).

Definition sc_image (r : scale_crop_result) : pyobj F :=
  match r with
  | ScImage img => img
  | ScImageK img _ => img
  end.

(** [obj.shape[k]] *)
Definition obj_shape_at (o : pyobj F) (k : nat) : result nat :=
  match o with
  | PyNdarray a => shape_at a k
  | PyTensor t => shape_at t k
  | _ => Raise (AttributeError
                  (type_repr o ++ " object has no attribute 'shape'")%string)
  end.

Definition debug_dump (debug : bool) (debug_root : string) (name : string)
           (img : pyobj F) : result unit :=
  if debug then imsave (os_path_join debug_root name) img else Ok tt.

(** Lines 125-163: the image pipeline, with the pad amounts it ends with. *)
Definition scale_crop_image (img : pyobj F) (crop_size : crop_size_t)
           (h_offset w_offset : Z) (scale_factor : F)
           (debug : bool) (debug_root : option string)
  : result (pyobj F * (Z * Z * Z * Z)) :=
  (* lines 125-128 *)
  a <- match img with
       | PyNdarray a => Ok a
       | _ => Raise (RuntimeError
                       ("invalid image type = " ++ type_repr img)%string)
       end ;;
  let dim := ndim a in
  (* lines 130-134 *)
  '(crop_height, crop_width) <- unpack_crop_size crop_size ;;
  (* lines 137-140 *)
  let debug_root := match debug_root with
                    | None => default_debug_root
                    | Some root => root
                    end in
  debug_dump debug debug_root "0_input.png" img ;;;
  (* lines 143-150 *)
  scaled <- (if (dim =? 3)%nat then rescale (copy a) scale_factor (Some 2%nat)
             else if (dim =? 2)%nat then rescale (copy a) scale_factor None
             else Raise (RuntimeError
                           ("invalid input image dimension num = "
                              ++ string_of_nat dim)%string)) ;;
  let img := PyNdarray scaled in
  debug_dump debug debug_root "1_scaled.png" img ;;;
  (* lines 154-155 *)
  img <- crop_img img crop_size h_offset w_offset ;;
  debug_dump debug debug_root "2_cropped.png" img ;;;
  (* lines 158-162 *)
  rows <- obj_shape_at img 0 ;;
  pad_needed <- (if Z.of_nat rows <? crop_height then Ok true
                 else cols <- obj_shape_at img 1 ;;
                      Ok (Z.of_nat cols <? crop_width)) ;;
  '(img, pads) <-
      (if pad_needed : bool then
         r <- pad_width_or_height img crop_width crop_height f0 true ;;
         match r with
         | PadTuple img p_top p_bottom p_left p_right =>
             Ok (img, (p_top, p_bottom, p_left, p_right))
         | PadData _ =>
             Raise (TypeError "cannot unpack non-iterable object")
         end
       else Ok (img, (0, 0, 0, 0))) ;;
  debug_dump debug debug_root "3_padded.png" img ;;;
  Ok (img, pads).

(** Lines 166-170: the three elementary matrices and their product. *)
Definition intrinsic_update (K : ndarray F) (scale_factor : F)
           (h_offset w_offset p_top p_left : Z) : result (ndarray F) :=
  Ks <- setitem (np_eye 3) [0; 0]%nat scale_factor ;;
  Ks <- setitem Ks [1; 1]%nat scale_factor ;;
  Kc <- setitem (np_eye 3) [0; 2]%nat (fmul (fopp f1) (of_int w_offset)) ;;
  Kc <- setitem Kc [1; 2]%nat (fmul (fopp f1) (of_int h_offset)) ;;
  Kp <- setitem (np_eye 3) [0; 2]%nat (of_int p_left) ;;
  Kp <- setitem Kp [1; 2]%nat (of_int p_top) ;;
  t1 <- dot Ks (copy K) ;;
  t2 <- dot Kc t1 ;;
  dot Kp t2.

(** [scale_crop(img, crop_size, h_offset, w_offset, scale_factor, K, debug,
    debug_root)]; the Python defaults are [K=None], [debug=False],
    [debug_root=None]. *)
Definition scale_crop (img : pyobj F) (crop_size : crop_size_t)
           (h_offset w_offset : Z) (scale_factor : F)
           (K : option (ndarray F)) (debug : bool) (debug_root : option string)
  : result scale_crop_result :=
  '(img, (p_top, p_bottom, p_left, p_right)) <-
      scale_crop_image img crop_size h_offset w_offset scale_factor
                       debug debug_root ;;
  (* lines 166-173 *)
  match K with
  | Some K =>
      K_aug <- intrinsic_update K scale_factor h_offset w_offset p_top p_left ;;
      Ok (ScImageK img K_aug)
  | None => Ok (ScImage img)
  end.

(** What the composite relies on from the external resampler: it returns
    an array of the rank it was given. *)
Definition rescale_keeps_rank : Prop :=
  forall (a : ndarray F) (scale : F) (channel_axis : option nat) (b : ndarray F),
    rescale a scale channel_axis = Ok b -> ndim b = ndim a.

(** The [channel_axis] argument of lines 145 and 148. *)
Definition channel_axis_of (a : ndarray F) : option nat :=
  if (ndim a =? 3)%nat then Some 2%nat else None.

End ScaleCrop.

Arguments scale_crop_result F : clear implicits.

(* ===================================================================== *)
(** ** Instances of the number interface *)
(* ===================================================================== *)

(** Exact rationals. *)
#[export] Instance Number_Q : Number Q := {|
  f0 := 0%Q;
  f1 := 1%Q;
  fadd := Qplus;
  fmul := Qmult;
  fopp := Qopp;
  of_int := inject_Z;
  astype := fun v => v;
  astype_f0 := eq_refl
|}.

(** An image of dtype [int64], its pixels held as rationals: a scalar stored
    into it is truncated toward zero, as the C conversion does (for values
    within the range of the type). *)
Definition Qtruncate (q : Q) : Z :=
  if Qle_bool 0 q then Qfloor q else Qceiling q.

Definition int64_pixels : Number Q := {|
  f0 := 0%Q;
  f1 := 1%Q;
  fadd := Qplus;
  fmul := Qmult;
  fopp := Qopp;
  of_int := inject_Z;
  astype := fun v => inject_Z (Qtruncate v);
  astype_f0 := eq_refl
|}.

(** IEEE binary64, numpy's [float64].  [float(n)] is the binary64 nearest
    to [n], ties to even; where Python raises [OverflowError] (an integer
    of magnitude [2^1024] or more) the conversion gives an infinity. *)
Definition float_of_int (z : Z) : float :=
  SF2Prim (binary_normalize prec emax z 0 false).

#[export] Instance Number_float : Number float := {|
  f0 := 0%float;
  f1 := 1%float;
  fadd := PrimFloat.add;
  fmul := PrimFloat.mul;
  fopp := PrimFloat.opp;
  of_int := float_of_int;
  astype := fun v => v;
  astype_f0 := eq_refl
|}.

(* ===================================================================== *)
(** ** Concrete arrays and a reference rescale *)
(* ===================================================================== *)

Section Concrete.
Context {F : Type} {NF : Number F}.

(** [np.array(rows)] for a rectangular nested list. *)
Definition array2 (rows : list (list F)) : ndarray F :=
  {| shape := [List.length rows; List.length (hd [] rows)];
     item := fun idx =>
               match idx with
               | [i; j] => nth j (nth i rows []) f0
               | _ => f0
               end |}.

(** [a.tolist()] for a 2-d array. *)
Definition tolist2 (a : ndarray F) : list (list F) :=
  match shape a with
  | [h; w] => map (fun i => map (fun j => item a [i; j]) (seq 0 w)) (seq 0 h)
  | _ => []
  end.

(** [np.full(shp, v)] *)
Definition np_full (shp : list nat) (v : F) : ndarray F :=
  {| shape := shp; item := fun _ => v |}.

(** The three elementary transforms and the matrix product, as the
    specification words them (section 4.5, step 4). *)
Definition spec_Scale (scale_factor : F) : ndarray F :=
  array2 [[scale_factor; f0; f0];
          [f0; scale_factor; f0];
          [f0; f0; f1]].

Definition spec_CropTranslate (w_offset h_offset : Z) : ndarray F :=
  array2 [[f1; f0; of_int (- w_offset)];
          [f0; f1; of_int (- h_offset)];
          [f0; f0; f1]].

Definition spec_PadTranslate (left_pad top_pad : Z) : ndarray F :=
  array2 [[f1; f0; of_int left_pad];
          [f0; f1; of_int top_pad];
          [f0; f0; f1]].

Definition spec_matmul3 (A B : ndarray F) : ndarray F :=
  {| shape := [3; 3]%nat;
     item := fun idx =>
               match idx with
               | [i; j] =>
                   fadd (fadd (fmul (item A [i; 0%nat]) (item B [0%nat; j]))
                              (fmul (item A [i; 1%nat]) (item B [1%nat; j])))
                        (fmul (item A [i; 2%nat]) (item B [2%nat; j]))
               | _ => f0
               end |}.

End Concrete.

(** [np.round]: to nearest, ties to even. *)
Definition round_half_even (q : Q) : Z :=
  let f := Qfloor q in
  match Qcompare (q - inject_Z f) (1 # 2) with
  | Lt => f
  | Gt => f + 1
  | Eq => if Z.even f then f else f + 1
  end.

(** A nearest-neighbour resampler with the shape behaviour of
    [skimage.transform.rescale]: every axis but the channel axis gets extent
    [max(round(scale * n), 1)].  It stands in for the external primitive in
    the worked examples; it performs no anti-aliasing. *)
Definition rescale_nearest (a : ndarray Q) (scale : Q) (channel_axis : option nat)
  : result (ndarray Q) :=
  if existsb (Nat.eqb 0) (shape a) then
    Raise (ValueError "cannot rescale an empty image")
  else
    let scaled k := match channel_axis with
                    | Some c => negb (k =? c)%nat
                    | None => true
                    end in
    let extent k n :=
      if scaled k
      then Z.to_nat (Z.max (round_half_even (scale * inject_Z (Z.of_nat n))) 1)
      else n in
    let source k n i :=
      if scaled k
      then Nat.min (n - 1)
                   (Z.to_nat (Qfloor (inject_Z (Z.of_nat i) / scale)))
      else i in
    let axes := combine (seq 0 (ndim a)) (shape a) in
    Ok {| shape := map (fun kn => extent (fst kn) (snd kn)) axes;
          item := fun idx =>
                    item a (map (fun kni => source (fst (fst kni)) (snd (fst kni))
                                                    (snd kni))
                                (combine axes idx)) |}.

(** The intrinsic of the specification's worked scenario (section 8). *)
Definition K_example : ndarray Q :=
  array2 [[500; 0; 320]; [0; 500; 240]; [0; 0; 1]]%Q.

Definition K_example_float : ndarray float :=
  array2 [[500; 0; 320]; [0; 500; 240]; [0; 0; 1]]%float.

(** Images for the worked examples: a 4x4 grey image, a 4x6 image with three
    channels, and a flat 300x400 one. *)
Definition img_grey : ndarray Q :=
  array2 [[1; 2; 3; 4]; [5; 6; 7; 8]; [9; 10; 11; 12]; [13; 14; 15; 16]]%Q.

Definition img_rgb : ndarray Q :=
  {| shape := [4; 6; 3]%nat;
     item := fun idx =>
               match idx with
               | [i; j; k] => inject_Z (Z.of_nat (100 * i + 10 * j + k))
               | _ => 0%Q
               end |}.

Definition img_flat : ndarray Q := np_full [300; 400]%nat (1 # 2)%Q.

(** A debug writer that accepts everything. *)
Definition imsave_quiet {F : Type} (path : string) (img : pyobj F) : result unit :=
  Ok tt.

(* ===================================================================== *)
(** ** Arrays as mutable objects *)
(* ===================================================================== *)

(** numpy arrays are objects with identity: [K.copy()] makes a new one,
    [Ks[0,0] = v] changes one in place, [img[a:b, c:d]] is a view that
    shares its base's buffer.  This section runs [scale_crop] over a store of
    buffers, to tell which objects a call writes to. *)
Section Store.
Context {F : Type} {NF : Number F}.

(** The external resampler: what it returns, and what it leaves behind in
    the buffer its argument refers to (skimage leaves it as it was; nothing
    below depends on that). *)
Variable rescale : ndarray F -> F -> option nat -> result (ndarray F).
Variable rescale_scratch : ndarray F -> F -> option nat -> ndarray F.
Variable imsave : string -> pyobj F -> result unit.

Definition loc : Type := nat.

(** One buffer per allocated array, in allocation order. *)
Definition store : Type := list (ndarray F).

(** An array object: the buffer it reads, through the slicings that made it
    a view (none for an array that owns its buffer). *)
Record aref : Type := mk_aref {
  base : loc;
  view : list (list slice)
}.

(** Computations over the store that may raise; the store survives an
    exception. *)
Definition M (A : Type) : Type := store -> store * result A.

Definition ret_st {A : Type} (x : A) : M A := fun st => (st, Ok x).
Definition raise_st {A : Type} (e : exn) : M A := fun st => (st, Raise e).
Definition lift {A : Type} (r : result A) : M A := fun st => (st, r).
Definition bind_st {A B : Type} (c : M A) (k : A -> M B) : M B :=
  fun st =>
    match c st with
    | (st', inl e) => (st', inl e)
    | (st', inr x) => k x st'
    end.

Fixpoint store_set (st : store) (l : loc) (a : ndarray F) : store :=
  match st, l with
  | [], _ => []
  | _ :: st', O => a :: st'
  | b :: st', S l' => b :: store_set st' l' a
  end.

Definition alloc (a : ndarray F) : M aref :=
  fun st => (st ++ [a], Ok {| base := List.length st; view := [] |}).

Fixpoint apply_view (a : ndarray F) (v : list (list slice))
  : result (ndarray F) :=
  match v with
  | [] => Ok a
  | sl :: v' => b <- getitem a sl ;; apply_view b v'
  end.

(** The position in the base buffer of element [idx] of a view. *)
Fixpoint view_source (a : ndarray F) (v : list (list slice)) (idx : list nat)
  : result (list nat) :=
  match v with
  | [] => Ok idx
  | sl :: v' =>
      b <- getitem a sl ;;
      idx' <- view_source b v' idx ;;
      Ok (slice_source (shape a) sl idx')
  end.

Definition dangling {A : Type} : result A :=
  Raise (RuntimeError "reference to an unallocated buffer").

Definition read (r : aref) : M (ndarray F) :=
  fun st =>
    match nth_error st (base r) with
    | Some a => (st, apply_view a (view r))
    | None => (st, dangling)
    end.

(** [r[i, j, ...] = v] *)
Definition write_item (r : aref) (idx : list nat) (v : F) : M unit :=
  fun st =>
    match nth_error st (base r) with
    | Some a =>
        match (cur <- apply_view a (view r) ;;
               src <- view_source a (view r) idx ;;
               if index_ok idx (shape cur) then setitem a src v
               else Raise (IndexError "index is out of bounds")) with
        | inr a' => (store_set st (base r) a', Ok tt)
        | inl e => (st, Raise e)
        end
    | None => (st, dangling)
    end.

(** External code handed [r] may write anywhere in the buffer [r] reads. *)
Definition scribble (r : aref) (f : ndarray F -> ndarray F) : M unit :=
  fun st =>
    match nth_error st (base r) with
    | Some a => (store_set st (base r) (f a), Ok tt)
    | None => (st, dangling)
    end.

Declare Scope st_scope.
Delimit Scope st_scope with st.
Notation "x <~ c ;; k" := (bind_st c (fun x => k))
  (at level 61, c at next level, right associativity) : st_scope.
Notation "' pat <~ c ;; k" := (bind_st c (fun x => match x with pat => k end))
  (at level 61, pat pattern, c at next level, right associativity) : st_scope.
Notation "c ~;; k" := (bind_st c (fun _ => k))
  (at level 61, right associativity) : st_scope.
Local Open Scope st_scope.

(** [r.copy()] *)
Definition copy_st (r : aref) : M aref :=
  a <~ read r ;; alloc (copy a).

(** [rescale(r, scale, channel_axis=..., anti_aliasing=True)] *)
Definition rescale_st (r : aref) (scale : F) (channel_axis : option nat)
  : M aref :=
  a <~ read r ;;
  scribble r (fun buf => rescale_scratch buf scale channel_axis) ~;;
  b <~ lift (rescale a scale channel_axis) ;;
  alloc b.

(** [a.dot(b)]: a new array. *)
Definition dot_st (ra rb : aref) : M aref :=
  a <~ read ra ;;
  b <~ read rb ;;
  c <~ lift (dot a b) ;;
  alloc c.

(** [imageio.imsave(path, (255.*img).astype(np.uint8))]: the scaled and
    converted image is a temporary.  [img] is an array object, or [None]
    where [crop_img] returned that. *)
Definition debug_dump_st (debug : bool) (debug_root name : string)
           (img : option aref) : M unit :=
  if debug then
    match img with
    | Some r =>
        a <~ read r ;;
        alloc (copy a) ~;;
        lift (imsave (os_path_join debug_root name) (PyNdarray a))
    | None => lift (imsave (os_path_join debug_root name) PyNone)
    end
  else ret_st tt.

(** [crop_img] on an array object: the result is a view on its argument
    ([None] when the rank is neither 2 nor 3). *)
Definition crop_img_st (r : aref) (crop_size : crop_size_t)
           (h_offset w_offset : Z) : M (option aref) :=
  a <~ read r ;;
  let dim := ndim a in
  '(crop_height, crop_width) <~ lift (unpack_crop_size crop_size) ;;
  let window sl :=
    lift (getitem a sl) ~;;
    ret_st (Some {| base := base r; view := view r ++ [sl] |}) in
  if (dim =? 3)%nat then
    window [Slice h_offset (h_offset + crop_height);
            Slice w_offset (w_offset + crop_width);
            SliceAll]
  else if (dim =? 2)%nat then
    window [Slice h_offset (h_offset + crop_height);
            Slice w_offset (w_offset + crop_width)]
  else ret_st None.

(** [pad_width_or_height(r, ..., return_offsets=True)] on an array object:
    [np.pad] makes a new array. *)
Definition pad_width_or_height_st (r : aref) (output_width output_height : Z)
           (pad_value : F) : M (aref * (Z * Z * Z * Z)) :=
  a <~ read r ;;
  res <~ lift (pad_width_or_height (PyNdarray a) output_width output_height
                                   pad_value true) ;;
  match res with
  | PadTuple (PyNdarray a') p_top p_bottom p_left p_right =>
      r' <~ alloc a' ;;
      ret_st (r', (p_top, p_bottom, p_left, p_right))
  | _ => raise_st (TypeError "cannot unpack non-iterable object")
  end.

(** Lines 125-163 of [scale_crop], called with the array object [img]. *)
Definition scale_crop_image_st (img : aref) (crop_size : crop_size_t)
           (h_offset w_offset : Z) (scale_factor : F)
           (debug : bool) (debug_root : option string)
  : M (aref * (Z * Z * Z * Z)) :=
  (* lines 125-134 *)
  a <~ read img ;;
  let dim := ndim a in
  '(crop_height, crop_width) <~ lift (unpack_crop_size crop_size) ;;
  (* lines 137-140 *)
  let debug_root := match debug_root with
                    | None => default_debug_root
                    | Some root => root
                    end in
  debug_dump_st debug debug_root "0_input.png" (Some img) ~;;
  (* lines 143-151 *)
  img <~ (if (dim =? 3)%nat then
            c <~ copy_st img ;; rescale_st c scale_factor (Some 2%nat)
          else if (dim =? 2)%nat then
            c <~ copy_st img ;; rescale_st c scale_factor None
          else raise_st (RuntimeError
                           ("invalid input image dimension num = "
                              ++ string_of_nat dim)%string)) ;;
  debug_dump_st debug debug_root "1_scaled.png" (Some img) ~;;
  (* lines 154-155 *)
  cropped <~ crop_img_st img crop_size h_offset w_offset ;;
  debug_dump_st debug debug_root "2_cropped.png" cropped ~;;
  (* lines 158-163 *)
  img <~ match cropped with
         | Some v => ret_st v
         | None => raise_st (AttributeError
                               (type_repr (@PyNone F)
                                  ++ " object has no attribute 'shape'")%string)
         end ;;
  c <~ read img ;;
  rows <~ lift (shape_at c 0) ;;
  pad_needed <~ lift (if Z.of_nat rows <? crop_height then Ok true
                      else cols <- shape_at c 1 ;;
                           Ok (Z.of_nat cols <? crop_width)) ;;
  '(img, pads) <~
      (if pad_needed : bool
       then pad_width_or_height_st img crop_width crop_height f0
       else ret_st (img, (0, 0, 0, 0))) ;;
  debug_dump_st debug debug_root "3_padded.png" (Some img) ~;;
  ret_st (img, pads).

(** Lines 167-170, called with the array object [K]. *)
Definition intrinsic_update_st (K : aref) (scale_factor : F)
           (h_offset w_offset p_top p_left : Z) : M aref :=
  Ks <~ alloc (np_eye 3) ;;
  write_item Ks [0; 0]%nat scale_factor ~;;
  write_item Ks [1; 1]%nat scale_factor ~;;
  Kc <~ alloc (np_eye 3) ;;
  write_item Kc [0; 2]%nat (fmul (fopp f1) (of_int w_offset)) ~;;
  write_item Kc [1; 2]%nat (fmul (fopp f1) (of_int h_offset)) ~;;
  Kp <~ alloc (np_eye 3) ;;
  write_item Kp [0; 2]%nat (of_int p_left) ~;;
  write_item Kp [1; 2]%nat (of_int p_top) ~;;
  K_copy <~ copy_st K ;;
  t1 <~ dot_st Ks K_copy ;;
  t2 <~ dot_st Kc t1 ;;
  dot_st Kp t2.

(** [scale_crop] called with array objects [img] and [K]: the image and,
    when [K] is given, the new intrinsic. *)
Definition scale_crop_st (img : aref) (crop_size : crop_size_t)
           (h_offset w_offset : Z) (scale_factor : F) (K : option aref)
           (debug : bool) (debug_root : option string)
  : M (aref * option aref) :=
  '(img, (p_top, p_bottom, p_left, p_right)) <~
      scale_crop_image_st img crop_size h_offset w_offset scale_factor
                          debug debug_root ;;
  (* lines 166-173 *)
  match K with
  | Some K =>
      K_aug <~ intrinsic_update_st K scale_factor h_offset w_offset
                                   p_top p_left ;;
      ret_st (img, Some K_aug)
  | None => ret_st (img, None)
  end.

(** The array object [r] holds the value [o]. *)
Definition holds (st : store) (r : aref) (o : pyobj F) : Prop :=
  exists v, snd (read r st) = Ok v /\ o = PyNdarray v.

(** Every buffer allocated in [st] is found unchanged in [st']. *)
Definition unchanged (st st' : store) : Prop :=
  forall l, (l < List.length st)%nat -> nth_error st' l = nth_error st l.

(** [c], started in a store with at least [n] buffers, writes to none of the
    first [n] and ends in a result satisfying [Q]. *)
Definition keeps {A : Type} (n : nat) (c : M A) (Q : A -> Prop) : Prop :=
  forall st,
    (n <= List.length st)%nat ->
    (n <= List.length (fst (c st)))%nat /\
    (forall l, (l < n)%nat -> nth_error (fst (c st)) l = nth_error st l) /\
    match snd (c st) with
    | inr x => Q x
    | inl _ => True
    end.

(** The store computation [m], started in [st], ends like the value
    computation [c]: with the same exception, or with results related by [R]
    in the final store; and it leaves the buffers of [st] as they were. *)
Definition sim {A B : Type} (R : store -> A -> B -> Prop)
           (c : result A) (m : M B) (st : store) : Prop :=
  unchanged st (fst (m st)) /\
  match c, snd (m st) with
  | inl e, inl e' => e = e'
  | inr x, inr y => R (fst (m st)) x y
  | _, _ => False
  end.

(** The image [crop_img] returns, as a value and as an object. *)
Definition same_image (st : store) (o : pyobj F) (ro : option aref) : Prop :=
  match o, ro with
  | PyNdarray v, Some rv => snd (read rv st) = Ok v
  | PyNone, None => True
  | _, _ => False
  end.

(** What the two models return, side by side. *)
Definition same_result (st : store) (res : scale_crop_result F)
           (out : aref * option aref) : Prop :=
  holds st (fst out) (sc_image res) /\
  match res, snd out with
  | ScImage _, None => True
  | ScImageK _ K_aug, Some rk => snd (read rk st) = Ok K_aug
  | _, _ => False
  end.

End Store.

Arguments store F : clear implicits.
Arguments M F A : clear implicits.
Arguments keeps F {A} n c Q.

(* ===================================================================== *)
(** ** binary64 *)
(* ===================================================================== *)

(** Line 28 of [get_subset_views] computes in Python floats.  A finite
    binary64 value is held as the rational it denotes.  Rounding to nearest,
    ties to even, of a positive rational [q]: with [2^e <= q < 2^(e+1)],
    the spacing of binary64 at [q] is [2^c] for [c = max(e - 52, -1074)]
    (53 significant bits, subnormals from [2^-1074]), and [q] goes to the
    nearest multiple of it. *)
Definition Qlog2 (q : Q) : Z :=
  let e := Z.log2 (Qnum q) - Z.log2 (Zpos (Qden q)) in
  if Qle_bool (2 ^ e) q then e else e - 1.

Definition b64_quantum (q : Q) : Z := Z.max (Qlog2 q - 52) (- 1074).

Definition b64_nearest (q : Q) : Q :=
  match (q ?= 0)%Q with
  | Eq => 0%Q
  | Gt => let c := b64_quantum q in
          (inject_Z (round_half_even (q / 2 ^ c)) * 2 ^ c)%Q
  | Lt => let c := b64_quantum (- q) in
          (- (inject_Z (round_half_even (- q / 2 ^ c)) * 2 ^ c))%Q
  end.

(** The result of an operation: a finite value, or an infinity ([None])
    when the rounded magnitude reaches [2^1024]. *)
Definition b64_round (q : Q) : option Q :=
  let r := b64_nearest q in
  if Qle_bool (2 ^ 1024) (Qabs r) then None else Some r.

(** [x + y] and [x * y] on finite floats. *)
Definition b64_add (x y : Q) : option Q := b64_round (x + y).
Definition b64_mul (x y : Q) : option Q := b64_round (x * y).

(** [float(n)], the conversion Python applies to an [int] operand of a
    float operation: the nearest binary64, or [OverflowError]. *)
Definition py_float (n : Z) : result Q :=
  match b64_round (inject_Z n) with
  | Some x => Ok x
  | None => Raise (OverflowError "int too large to convert to float")
  end.

(** [int(round(x, 0))]: [round] keeps an infinity, which [int] refuses. *)
Definition int_round (x : option Q) : result Z :=
  match x with
  | Some q => Ok (round_half_even q)
  | None => Raise (OverflowError "cannot convert float infinity to integer")
  end.

(** The same operations in the Standard Library's model of IEEE 754
    binary64, for comparison. *)
Definition SF_of_int (n : Z) : spec_float := binary_normalize prec emax n 0 false.

Definition SF_of_dyadic (q : Q) : spec_float :=
  SFdiv prec emax (SF_of_int (Qnum q)) (SF_of_int (Zpos (Qden q))).

Definition Q_of_SF (x : spec_float) : option Q :=
  match x with
  | S754_zero _ => Some 0%Q
  | S754_finite s m e =>
      Some ((if s then - inject_Z (Zpos m) else inject_Z (Zpos m)) * 2 ^ e)%Q
  | _ => None
  end.

(* ===================================================================== *)
(** ** [get_subset_views] *)
(* ===================================================================== *)

(** The two generators the function draws from, Python's [random] and
    numpy's global one: each is the tape of raw values it is going to
    produce, with the position reached. *)
Record rng : Type := mk_rng {
  py_tape : nat -> Z;
  py_pos : nat;
  np_tape : nat -> Z;
  np_pos : nat
}.

(** [random._randbelow(n)]: some value of [[0, n)]. *)
Definition randbelow (n : nat) (g : rng) : nat * rng :=
  (Z.to_nat (py_tape g (py_pos g) mod Z.of_nat n),
   {| py_tape := py_tape g; py_pos := S (py_pos g);
      np_tape := np_tape g; np_pos := np_pos g |}).

(** [np.random.random()]: a multiple of 2^-53 in [[0, 1)]. *)
Definition np_random_random (g : rng) : Q * rng :=
  ((np_tape g (np_pos g) mod 2 ^ 53) # (2 ^ 53),
   {| py_tape := py_tape g; py_pos := py_pos g;
      np_tape := np_tape g; np_pos := S (np_pos g) |}).

(** [x[i] = v] on a one-dimensional array, in range. *)
Fixpoint list_set {A : Type} (x : list A) (i : nat) (v : A) : list A :=
  match x, i with
  | [], _ => []
  | _ :: x', O => v :: x'
  | a :: x', S i' => a :: list_set x' i' v
  end.

(** [x[i], x[j] = x[j], x[i]] *)
Definition swap_items {A : Type} (x : list A) (i j : nat) : list A :=
  match nth_error x i, nth_error x j with
  | Some xi, Some xj => list_set (list_set x i xj) j xi
  | _, _ => x
  end.

(** The loop of [random.shuffle]:
    [for i in reversed(range(1, len(x))): j = randbelow(i + 1); swap]. *)
Fixpoint shuffle_loop {A : Type} (i : nat) (x : list A) (g : rng)
  : list A * rng :=
  match i with
  | O => (x, g)
  | S i' =>
      let (j, g) := randbelow (S i) g in
      shuffle_loop i' (swap_items x i j) g
  end.

Definition random_shuffle {A : Type} (x : list A) (g : rng) : list A * rng :=
  shuffle_loop (List.length x - 1) x g.

(** [np.arange(n)] *)
Definition np_arange (n : Z) : list Z := map Z.of_nat (seq 0 (Z.to_nat n)).

(** Line 28: [int(round(minimum_views + (number_views - minimum_views) * u, 0))]
    for the draw [u], in binary64.  The integer operands are converted to
    floats where they meet one: the difference for the product, then
    [minimum_views] for the sum. *)
Definition number_selected (number_views minimum_views : Z) (u : Q) : result Z :=
  d <- py_float (number_views - minimum_views) ;;
  let p := b64_mul d u in
  m <- py_float minimum_views ;;
  int_round (match p with
             | Some p => b64_add m p
             | None => None
             end).

(** [get_subset_views(number_views, minimum_views)]; the Python default of
    [minimum_views] is [4].  The views are a one-dimensional integer array,
    a list here.  The generators are left as the call leaves them, also
    when it raises. *)
Definition get_subset_views (number_views minimum_views : Z) (g : rng)
  : result (list Z) * rng :=
  let views := np_arange number_views in
  if number_views <=? minimum_views then (Ok views, g)
  else
    let (views, g) := random_shuffle views g in
    let (u, g) := np_random_random g in
    (number_selected_views <- number_selected number_views minimum_views u ;;
     Ok (firstn (adjust_index number_selected_views (List.length views)) views),
     g).

(* ===================================================================== *)
(** * Properties *)
(* ===================================================================== *)

(** ** The result monad *)

Lemma bind_Ok {A B : Type} (x : A) (k : A -> result B) : bind (Ok x) k = k x.
Proof. reflexivity. Qed.

Lemma bind_Raise {A B : Type} (e : exn) (k : A -> result B) :
  bind (Raise e) k = Raise e.
Proof. reflexivity. Qed.

Lemma bind_inv {A B : Type} (c : result A) (k : A -> result B) (y : B) :
  bind c k = Ok y -> exists x, c = Ok x /\ k x = Ok y.
Proof.
  destruct c as [e | x]; simpl; intros H.
  - discriminate.
  - exists x. split; [reflexivity | exact H].
Qed.

Lemma Ok_inj {A : Type} (x y : A) : Ok x = Ok y -> x = y.
Proof. intros H. injection H. trivial. Qed.

(** ** Slices *)

Lemma floor_half_split (n : Z) :
  0 < n ->
  0 <= floor_half n /\ floor_half n <= n - floor_half n <= floor_half n + 1.
Proof.
  unfold floor_half. intros Hn.
  pose proof (Z.div_mod n 2 ltac:(lia)) as Hdm.
  pose proof (Z.mod_pos_bound n 2 ltac:(lia)) as Hb.
  lia.
Qed.

Lemma adjust_index_le (i : Z) (n : nat) : (adjust_index i n <= n)%nat.
Proof. unfold adjust_index. destruct (i <? 0) eqn:E; lia. Qed.

(** A slice [start : start + len] never selects more than [len] positions. *)
Lemma slice_indices_len_le (start len : Z) (n : nat) :
  0 <= len -> Z.of_nat (snd (slice_indices start (start + len) n)) <= len.
Proof.
  intros Hlen. unfold slice_indices, adjust_index. simpl.
  destruct (start <? 0) eqn:E1; destruct (start + len <? 0) eqn:E2; lia.
Qed.

Lemma slice_indices_fit (start stop : Z) (n : nat) :
  (fst (slice_indices start stop n) + snd (slice_indices start stop n) <= n)%nat.
Proof.
  unfold slice_indices. simpl.
  pose proof (adjust_index_le start n). pose proof (adjust_index_le stop n).
  lia.
Qed.

(** A window that lies inside the axis is selected as it is. *)
Lemma slice_indices_inside (start len : nat) (n : nat) :
  (start + len <= n)%nat ->
  slice_indices (Z.of_nat start) (Z.of_nat start + Z.of_nat len) n
  = (start, len).
Proof.
  intros H. unfold slice_indices, adjust_index.
  destruct (Z.of_nat start <? 0) eqn:E1; [lia |].
  destruct (Z.of_nat start + Z.of_nat len <? 0) eqn:E2; [lia |].
  f_equal; lia.
Qed.

(** ** Arrays *)

Section ArrayFacts.
Context {F : Type}.
Implicit Types a b c : ndarray F.

Lemma array_equal_refl a : array_equal a a.
Proof. split; reflexivity. Qed.

Lemma array_equal_sym a b : array_equal a b -> array_equal b a.
Proof.
  intros [Hs Hi]. split; [congruence |].
  intros idx Hin. symmetry. apply Hi. rewrite Hs. exact Hin.
Qed.

Lemma array_equal_trans a b c :
  array_equal a b -> array_equal b c -> array_equal a c.
Proof.
  intros [Hs1 Hi1] [Hs2 Hi2]. split; [congruence |].
  intros idx Hin. rewrite Hi1 by exact Hin. apply Hi2. rewrite <- Hs1. exact Hin.
Qed.

Lemma copy_equal a : array_equal (copy a) a.
Proof. split; reflexivity. Qed.

Lemma ndim_copy a : ndim (copy a) = ndim a.
Proof. reflexivity. Qed.

Lemma in_bounds_length idx shp : in_bounds idx shp -> List.length idx = List.length shp.
Proof. unfold in_bounds. induction 1; simpl; congruence. Qed.

Lemma image_rank_shape a :
  image_rank a ->
  exists h w rest, shape a = h :: w :: rest /\ (rest = [] \/ exists ch, rest = [ch]).
Proof.
  unfold image_rank, ndim.
  destruct (shape a) as [| h [| w [| ch [| ? ?]]]]; simpl; intros [H | H];
    try discriminate.
  - exists h, w, []. auto.
  - exists h, w, [ch]. split; [reflexivity | right; eauto].
Qed.

Lemma getitem_spec a sl shp :
  slice_shape (shape a) sl = Ok shp ->
  exists v, getitem a sl = Ok v /\ shape v = shp /\
            forall idx, item v idx = item a (slice_source (shape a) sl idx).
Proof.
  intros H. unfold getitem. rewrite H. simpl.
  eexists. split; [reflexivity |]. split; reflexivity.
Qed.

Lemma pad_shape_length shp pw :
  List.length pw = List.length shp -> List.length (pad_shape shp pw) = List.length shp.
Proof.
  revert pw. induction shp as [| n shp IH]; intros [| [x y] pw]; simpl; intros H;
    try discriminate; try reflexivity.
  f_equal. apply IH. congruence.
Qed.

Lemma np_pad_spec {NF : Number F} a pw (v : F) :
  List.length pw = ndim a ->
  Forall (fun p => 0 <= fst p /\ 0 <= snd p) pw ->
  exists a', np_pad a pw v = Ok a' /\
             shape a' = pad_shape (shape a) pw /\
             forall idx, item a' idx = match pad_source (shape a) pw idx with
                                       | Some src => item a src
                                       | None => astype v
                                       end.
Proof.
  intros Hlen Hnn. unfold np_pad.
  assert (Hpw : match pw with [p] => repeat p (ndim a) | _ => pw end = pw).
  { destruct pw as [| p [| q pw']]; try reflexivity.
    simpl in Hlen. rewrite <- Hlen. reflexivity. }
  rewrite Hpw. rewrite Hlen, Nat.eqb_refl. simpl.
  assert (Hex : existsb (fun p => (fst p <? 0) || (snd p <? 0)) pw = false).
  { clear Hpw Hlen. induction Hnn as [| p pw' [Hp1 Hp2] _ IH]; simpl.
    - reflexivity.
    - rewrite IH.
      destruct (fst p <? 0) eqn:E1; [lia |].
      destruct (snd p <? 0) eqn:E2; [lia |]. reflexivity. }
  rewrite Hex. eexists. split; [reflexivity |]. split; reflexivity.
Qed.

End ArrayFacts.

(** ** [pad_width_or_height] *)

Section PadFacts.
Context {F : Type} {NF : Number F}.
Implicit Types a : ndarray F.

Lemma pad_before_after_nonneg size target :
  0 <= pad_before size target /\ 0 <= pad_after size target.
Proof.
  unfold pad_before, pad_after. destruct (size <? target) eqn:E; [| lia].
  pose proof (floor_half_split (target - size) ltac:(lia)). lia.
Qed.

Lemma pad_before_after_sum size target :
  pad_before size target + pad_after size target = Z.max 0 (target - size).
Proof.
  unfold pad_before, pad_after. destruct (size <? target) eqn:E; lia.
Qed.

Lemma pad_source_window (pt pl : nat) (h w : nat) (rest r : list nat) (i j : nat)
      (pb pr : Z) :
  (i < h)%nat -> (j < w)%nat -> in_bounds r rest ->
  pad_source (h :: w :: rest)
             ((Z.of_nat pt, pb) :: (Z.of_nat pl, pr) :: map (fun _ => (0, 0)) rest)
             ((pt + i)%nat :: (pl + j)%nat :: r)
  = Some (i :: j :: r).
Proof.
  intros Hi Hj Hr. simpl. rewrite !Nat2Z.id.
  assert (E1 : ((pt <=? pt + i)%nat && (pt + i <? pt + h)%nat) = true).
  { apply andb_true_intro. split; [apply Nat.leb_le | apply Nat.ltb_lt]; lia. }
  assert (E2 : ((pl <=? pl + j)%nat && (pl + j <? pl + w)%nat) = true).
  { apply andb_true_intro. split; [apply Nat.leb_le | apply Nat.ltb_lt]; lia. }
  rewrite E1, E2.
  replace (pt + i - pt)%nat with i by lia.
  replace (pl + j - pl)%nat with j by lia.
  assert (Hrest : pad_source rest (map (fun _ => (0, 0)) rest) r = Some r).
  { clear -Hr. unfold in_bounds in Hr.
    induction Hr as [| k n r rest Hk _ IH]; simpl; [reflexivity |].
    assert (E : (k <? n)%nat = true) by (apply Nat.ltb_lt; lia).
    rewrite E, IH. simpl. rewrite Nat.sub_0_r. reflexivity. }
  rewrite Hrest. reflexivity.
Qed.

(** The array branch, for a rank-2 or rank-3 input. *)
Lemma pad_ndarray_spec a (h w : nat) (rest : list nat)
      (output_width output_height : Z) (pad_value : F) :
  shape a = h :: w :: rest ->
  (List.length rest <= 1)%nat ->
  let p_top := pad_before (Z.of_nat h) output_height in
  let p_bottom := pad_after (Z.of_nat h) output_height in
  let p_left := pad_before (Z.of_nat w) output_width in
  let p_right := pad_after (Z.of_nat w) output_width in
  exists a',
    (forall return_offsets : bool,
        pad_width_or_height (PyNdarray a) output_width output_height pad_value
                            return_offsets
        = Ok (if return_offsets
              then PadTuple (PyNdarray a') p_top p_bottom p_left p_right
              else PadData (PyNdarray a'))) /\
    shape a' = (Z.to_nat p_top + h + Z.to_nat p_bottom)%nat
               :: (Z.to_nat p_left + w + Z.to_nat p_right)%nat :: rest /\
    (forall i j r, (i < h)%nat -> (j < w)%nat -> in_bounds r rest ->
                   item a' ((Z.to_nat p_top + i)%nat :: (Z.to_nat p_left + j)%nat :: r)
                   = item a (i :: j :: r)).
Proof.
  intros Hshape Hrest p_top p_bottom p_left p_right.
  pose proof (pad_before_after_nonneg (Z.of_nat h) output_height) as [Ht Hb].
  pose proof (pad_before_after_nonneg (Z.of_nat w) output_width) as [Hl Hr].
  fold p_top in Ht. fold p_bottom in Hb. fold p_left in Hl. fold p_right in Hr.
  set (pw := (p_top, p_bottom) :: (p_left, p_right) :: map (fun _ => (0, 0)) rest).
  destruct (np_pad_spec a pw pad_value) as (a' & Hpad & Hsh & Hit).
  { unfold pw, ndim. rewrite Hshape. simpl. rewrite length_map. reflexivity. }
  { unfold pw. repeat constructor; simpl; try lia.
    apply Forall_forall. intros p Hp. apply in_map_iff in Hp.
    destruct Hp as (? & <- & _). simpl. lia. }
  exists a'. split; [| split].
  - intros return_offsets.
    unfold pad_width_or_height, shape_at, ndim. rewrite Hshape. simpl.
    unfold pad_before, pad_after in p_top, p_bottom, p_left, p_right.
    destruct rest as [| c [| ? ?]]; simpl in Hrest; try lia; simpl.
    + destruct (Z.of_nat w <? output_width) eqn:Ew;
        destruct (Z.of_nat h <? output_height) eqn:Eh;
        simpl; unfold pw in Hpad; simpl in Hpad;
        subst p_top p_bottom p_left p_right;
        rewrite Hpad; simpl; destruct return_offsets; reflexivity.
    + destruct (Z.of_nat w <? output_width) eqn:Ew;
        destruct (Z.of_nat h <? output_height) eqn:Eh;
        simpl; unfold pw in Hpad; simpl in Hpad;
        subst p_top p_bottom p_left p_right;
        rewrite Hpad; simpl; destruct return_offsets; reflexivity.
  - rewrite Hsh, Hshape. unfold pw. simpl. f_equal. f_equal.
    clear. induction rest as [| n rest IH]; simpl; [reflexivity |].
    rewrite IH. f_equal. lia.
  - intros i j r Hi Hj Hin. rewrite Hit, Hshape. unfold pw.
    rewrite <- (Z2Nat.id p_top) at 1 by lia.
    rewrite <- (Z2Nat.id p_left) at 1 by lia.
    rewrite pad_source_window by assumption. reflexivity.
Qed.

Lemma pad_before_ge size target : target <= size -> pad_before size target = 0.
Proof. unfold pad_before. destruct (size <? target) eqn:E; lia. Qed.

Lemma pad_after_ge size target : target <= size -> pad_after size target = 0.
Proof. unfold pad_after. destruct (size <? target) eqn:E; lia. Qed.

(** The PIL branch. *)
Lemma pad_pil_spec (im : pil_image F) (output_width output_height : Z)
      (pad_value : F) (return_offsets : bool) :
  let p_top := pad_before (Z.of_nat (pil_height im)) output_height in
  let p_bottom := pad_after (Z.of_nat (pil_height im)) output_height in
  let p_left := pad_before (Z.of_nat (pil_width im)) output_width in
  let p_right := pad_after (Z.of_nat (pil_width im)) output_width in
  let im' := transforms_Pad p_left p_top p_right p_bottom f0 im in
  pad_width_or_height (PyPIL im) output_width output_height pad_value
                      return_offsets
  = Ok (if return_offsets
        then PadTuple (PyPIL im') p_top p_bottom p_left p_right
        else PadData (PyPIL im')).
Proof.
  unfold pad_width_or_height, pad_before, pad_after. simpl.
  destruct (Z.of_nat (pil_width im) <? output_width);
    destruct (Z.of_nat (pil_height im) <? output_height);
    destruct return_offsets; reflexivity.
Qed.

(** Where a cell of the padded array comes from: the cells of the window
    [[pt, pt + h) x [pl, pl + w)] are the source's, all others are new. *)
Lemma pad_source_cells (pt pl : nat) (h w : nat) (rest r : list nat) (i j : nat)
      (pb pr : Z) :
  in_bounds r rest ->
  pad_source (h :: w :: rest)
             ((Z.of_nat pt, pb) :: (Z.of_nat pl, pr) :: map (fun _ => (0, 0)) rest)
             (i :: j :: r)
  = if (pt <=? i)%nat && (i <? pt + h)%nat && (pl <=? j)%nat && (j <? pl + w)%nat
    then Some ((i - pt)%nat :: (j - pl)%nat :: r)
    else None.
Proof.
  intros Hr. simpl. rewrite !Nat2Z.id.
  assert (Hrest : pad_source rest (map (fun _ => (0, 0)) rest) r = Some r).
  { clear -Hr. unfold in_bounds in Hr.
    induction Hr as [| k n r rest Hk _ IH]; simpl; [reflexivity |].
    assert (E : (k <? n)%nat = true) by (apply Nat.ltb_lt; lia).
    rewrite E, IH. simpl. rewrite Nat.sub_0_r. reflexivity. }
  rewrite Hrest.
  destruct ((pt <=? i)%nat && (i <? pt + h)%nat); simpl; [| reflexivity].
  destruct ((pl <=? j)%nat && (j <? pl + w)%nat); reflexivity.
Qed.

(** The array branch, cell by cell: the input sits in the window that
    starts at [(p_top, p_left)], every other cell holds [pad_value]. *)
Lemma pad_ndarray_cells a (h w : nat) (rest : list nat)
      (output_width output_height : Z) (pad_value : F) :
  shape a = h :: w :: rest ->
  (List.length rest <= 1)%nat ->
  let p_top := pad_before (Z.of_nat h) output_height in
  let p_bottom := pad_after (Z.of_nat h) output_height in
  let p_left := pad_before (Z.of_nat w) output_width in
  let p_right := pad_after (Z.of_nat w) output_width in
  exists a',
    (forall return_offsets : bool,
        pad_width_or_height (PyNdarray a) output_width output_height pad_value
                            return_offsets
        = Ok (if return_offsets
              then PadTuple (PyNdarray a') p_top p_bottom p_left p_right
              else PadData (PyNdarray a'))) /\
    shape a' = (Z.to_nat p_top + h + Z.to_nat p_bottom)%nat
               :: (Z.to_nat p_left + w + Z.to_nat p_right)%nat :: rest /\
    (forall i j r,
        in_bounds r rest ->
        item a' (i :: j :: r)
        = if (Z.to_nat p_top <=? i)%nat && (i <? Z.to_nat p_top + h)%nat &&
             (Z.to_nat p_left <=? j)%nat && (j <? Z.to_nat p_left + w)%nat
          then item a ((i - Z.to_nat p_top)%nat :: (j - Z.to_nat p_left)%nat :: r)
          else astype pad_value).
Proof.
  intros Hshape Hrest p_top p_bottom p_left p_right.
  pose proof (pad_before_after_nonneg (Z.of_nat h) output_height) as [Ht Hb].
  pose proof (pad_before_after_nonneg (Z.of_nat w) output_width) as [Hl Hr].
  fold p_top in Ht. fold p_bottom in Hb. fold p_left in Hl. fold p_right in Hr.
  set (pw := (p_top, p_bottom) :: (p_left, p_right) :: map (fun _ => (0, 0)) rest).
  destruct (np_pad_spec a pw pad_value) as (a' & Hpad & Hsh & Hit).
  { unfold pw, ndim. rewrite Hshape. simpl. rewrite length_map. reflexivity. }
  { unfold pw. repeat constructor; simpl; try lia.
    apply Forall_forall. intros p Hp. apply in_map_iff in Hp.
    destruct Hp as (? & <- & _). simpl. lia. }
  exists a'. split; [| split].
  - intros return_offsets.
    unfold pad_width_or_height, shape_at, ndim. rewrite Hshape. simpl.
    unfold pad_before, pad_after in p_top, p_bottom, p_left, p_right.
    destruct rest as [| c [| ? ?]]; simpl in Hrest; try lia; simpl;
      destruct (Z.of_nat w <? output_width) eqn:Ew;
      destruct (Z.of_nat h <? output_height) eqn:Eh;
      simpl; unfold pw in Hpad; simpl in Hpad;
      subst p_top p_bottom p_left p_right;
      rewrite Hpad; simpl; destruct return_offsets; reflexivity.
  - rewrite Hsh, Hshape. unfold pw. simpl. f_equal. f_equal.
    clear. induction rest as [| n rest IH]; simpl; [reflexivity |].
    rewrite IH. f_equal. lia.
  - intros i j r Hr'. rewrite Hit, Hshape. unfold pw.
    rewrite <- (Z2Nat.id p_top) at 1 by lia.
    rewrite <- (Z2Nat.id p_left) at 1 by lia.
    rewrite (pad_source_cells _ _ _ _ _ _ _ _ _ _ Hr').
    destruct ((Z.to_nat p_top <=? i)%nat && (i <? Z.to_nat p_top + h)%nat &&
              (Z.to_nat p_left <=? j)%nat && (j <? Z.to_nat p_left + w)%nat);
      reflexivity.
Qed.

(** Both branches at once: what is returned, how large it is, and where the
    input's pixels are found in it. *)
Lemma pad_image_spec (data : pyobj F) (output_width output_height : Z)
      (pad_value : F) :
  is_image data ->
  let p_top := pad_before (Z.of_nat (obj_height data)) output_height in
  let p_bottom := pad_after (Z.of_nat (obj_height data)) output_height in
  let p_left := pad_before (Z.of_nat (obj_width data)) output_width in
  let p_right := pad_after (Z.of_nat (obj_width data)) output_width in
  exists data',
    (forall return_offsets : bool,
        pad_width_or_height data output_width output_height pad_value
                            return_offsets
        = Ok (if return_offsets
              then PadTuple data' p_top p_bottom p_left p_right
              else PadData data')) /\
    is_image data' /\
    obj_height data' = (Z.to_nat p_top + obj_height data + Z.to_nat p_bottom)%nat /\
    obj_width data' = (Z.to_nat p_left + obj_width data + Z.to_nat p_right)%nat /\
    (p_top = 0 -> p_bottom = 0 -> p_left = 0 -> p_right = 0 ->
     obj_equal data' data).
Proof.
  destruct data as [a | t | im | | ty]; simpl; try contradiction.
  - intros Hrank.
    destruct (image_rank_shape a Hrank) as (h & w & rest & Hshape & Hrest).
    assert (Hlen : (List.length rest <= 1)%nat).
    { destruct Hrest as [-> | [c ->]]; simpl; lia. }
    destruct (pad_ndarray_spec a h w rest output_width output_height pad_value
                               Hshape Hlen) as (a' & Hrun & Hsh & Hit).
    rewrite Hshape. simpl. exists (PyNdarray a'). simpl.
    split; [exact Hrun |]. rewrite Hsh. simpl.
    split; [| split; [reflexivity | split; [reflexivity |]]].
    + unfold image_rank, ndim in *. rewrite Hsh. rewrite Hshape in Hrank.
      exact Hrank.
    + intros Ht Hb Hl Hr. rewrite Ht, Hb, Hl, Hr in *. simpl in *.
      split.
      * rewrite Hsh, Hshape. rewrite !Nat.add_0_r. reflexivity.
      * intros idx Hin. rewrite Hsh in Hin. simpl in Hin.
        rewrite !Nat.add_0_r in Hin.
        unfold in_bounds in Hin. inversion Hin as [| i h' r1 l1 Hi Hin1]; subst.
        inversion Hin1 as [| j w' r l2 Hj Hin2]; subst.
        apply (Hit i j r Hi Hj Hin2).
  - intros _. exists (PyPIL (transforms_Pad
                               (pad_before (Z.of_nat (pil_width im)) output_width)
                               (pad_before (Z.of_nat (pil_height im)) output_height)
                               (pad_after (Z.of_nat (pil_width im)) output_width)
                               (pad_after (Z.of_nat (pil_height im)) output_height)
                               f0 im)).
    split; [intros ro; apply pad_pil_spec |].
    simpl. split; [exact I |]. split; [reflexivity |]. split; [reflexivity |].
    intros Ht Hb Hl Hr. rewrite Ht, Hb, Hl, Hr. unfold pil_equal. simpl.
    rewrite !Nat.add_0_r. split; [reflexivity |]. split; [reflexivity |].
    intros x y Hx Hy.
    assert (Ex : (x <? pil_width im)%nat = true) by (apply Nat.ltb_lt; exact Hx).
    assert (Ey : (y <? pil_height im)%nat = true) by (apply Nat.ltb_lt; exact Hy).
    rewrite Ex, Ey. simpl. rewrite !Nat.sub_0_r. reflexivity.
Qed.


End PadFacts.

(** ** [crop_img] *)

Section CropFacts.
Context {F : Type} {NF : Number F}.
Implicit Types a : ndarray F.

(** On a rank-2 or rank-3 array [crop_img] returns the window that Python's
    slicing selects on the two leading axes. *)
Lemma crop_ndarray_spec a (h w : nat) (rest : list nat) (crop_size : crop_size_t)
      (crop_height crop_width h_offset w_offset : Z) :
  shape a = h :: w :: rest ->
  (List.length rest <= 1)%nat ->
  unpack_crop_size crop_size = Ok (crop_height, crop_width) ->
  let rows := slice_indices h_offset (h_offset + crop_height) h in
  let cols := slice_indices w_offset (w_offset + crop_width) w in
  exists c,
    crop_img (PyNdarray a) crop_size h_offset w_offset = Ok (PyNdarray c) /\
    shape c = snd rows :: snd cols :: rest /\
    (forall i j r, item c (i :: j :: r)
                   = item a ((fst rows + i)%nat :: (fst cols + j)%nat :: r)).
Proof.
  intros Hshape Hrest Hcs rows cols.
  unfold crop_img, crop_img_in. simpl. rewrite Hcs. simpl.
  unfold ndim, getitem. rewrite Hshape.
  destruct rest as [| c [| ? ?]]; simpl in Hrest; try lia; simpl.
  - eexists. split; [reflexivity |]. split; [reflexivity |].
    intros i j r. simpl. destruct r; reflexivity.
  - eexists. split; [reflexivity |]. split; [reflexivity |].
    intros i j r. simpl. destruct r; reflexivity.
Qed.

End CropFacts.

(** ** The padder and the cropper *)

Section PadCropProperties.
Context {F : Type} {NF : Number F}.


(** C8. An image whose height and width already reach the target is returned
    with unchanged content and four zero pad amounts; hence padding a second
    time with the same target changes nothing any more. *)
Theorem pad_width_or_height_idempotent
        (data : pyobj F) (output_width output_height : Z) (pad_value : F) :
  is_image data ->
  (output_height <= Z.of_nat (obj_height data) ->
   output_width <= Z.of_nat (obj_width data) ->
   exists data',
     pad_width_or_height data output_width output_height pad_value true
     = Ok (PadTuple data' 0 0 0 0) /\
     pad_width_or_height data output_width output_height pad_value false
     = Ok (PadData data') /\
     obj_equal data' data) /\
  (exists once p_top p_bottom p_left p_right twice,
     pad_width_or_height data output_width output_height pad_value true
     = Ok (PadTuple once p_top p_bottom p_left p_right) /\
     pad_width_or_height once output_width output_height pad_value true
     = Ok (PadTuple twice 0 0 0 0) /\
     obj_equal twice once).
Proof.
  intros Himg.
  assert (Hfix : forall d : pyobj F,
             is_image d ->
             output_height <= Z.of_nat (obj_height d) ->
             output_width <= Z.of_nat (obj_width d) ->
             exists d',
               pad_width_or_height d output_width output_height pad_value true
               = Ok (PadTuple d' 0 0 0 0) /\
               pad_width_or_height d output_width output_height pad_value false
               = Ok (PadData d') /\
               obj_equal d' d).
  { intros d Hd Hh Hw.
    destruct (pad_image_spec d output_width output_height pad_value Hd)
      as (d' & Hrun & _ & _ & _ & Heq).
    rewrite (pad_before_ge _ _ Hh), (pad_after_ge _ _ Hh),
      (pad_before_ge _ _ Hw), (pad_after_ge _ _ Hw) in *.
    exists d'. split; [exact (Hrun true) |]. split; [exact (Hrun false) |].
    apply Heq; reflexivity. }
  split; [apply Hfix; exact Himg |].
  destruct (pad_image_spec data output_width output_height pad_value Himg)
    as (once & Hrun & Himg1 & Hh & Hw & _).
  destruct (Hfix once Himg1) as (twice & Hrun2 & _ & Heq).
  - rewrite Hh.
    pose proof (pad_before_after_sum (Z.of_nat (obj_height data)) output_height).
    pose proof (pad_before_after_nonneg (Z.of_nat (obj_height data)) output_height).
    lia.
  - rewrite Hw.
    pose proof (pad_before_after_sum (Z.of_nat (obj_width data)) output_width).
    pose proof (pad_before_after_nonneg (Z.of_nat (obj_width data)) output_width).
    lia.
  - do 6 eexists. split; [exact (Hrun true) |]. split; [exact Hrun2 | exact Heq].
Qed.

(** C9. Padding an array image of size [(h, w)] and then cropping the result
    with crop size [(h, w)] at the reported offsets [(top, left)] gives back
    the original, element for element. *)
Theorem pad_then_crop_roundtrip
        (a : ndarray F) (h w : nat) (rest : list nat)
        (output_width output_height : Z) (pad_value : F) :
  image_rank a ->
  shape a = h :: w :: rest ->
  exists padded p_top p_bottom p_left p_right cropped,
    pad_width_or_height (PyNdarray a) output_width output_height pad_value true
    = Ok (PadTuple padded p_top p_bottom p_left p_right) /\
    crop_img padded (CropTuple [Z.of_nat h; Z.of_nat w]) p_top p_left
    = Ok (PyNdarray cropped) /\
    array_equal cropped a.
Proof.
  intros Hrank Hshape.
  assert (Hrest : (List.length rest <= 1)%nat).
  { unfold image_rank, ndim in Hrank. rewrite Hshape in Hrank. simpl in Hrank. lia. }
  destruct (pad_ndarray_spec a h w rest output_width output_height pad_value
                             Hshape Hrest) as (a' & Hrun & Hsh & Hit).
  pose proof (pad_before_after_nonneg (Z.of_nat h) output_height) as [Ht Hb].
  pose proof (pad_before_after_nonneg (Z.of_nat w) output_width) as [Hl Hr].
  set (p_top := pad_before (Z.of_nat h) output_height) in *.
  set (p_left := pad_before (Z.of_nat w) output_width) in *.
  set (p_bottom := pad_after (Z.of_nat h) output_height) in *.
  set (p_right := pad_after (Z.of_nat w) output_width) in *.
  destruct (crop_ndarray_spec a' _ _ rest (CropTuple [Z.of_nat h; Z.of_nat w])
                              (Z.of_nat h) (Z.of_nat w) p_top p_left
                              Hsh Hrest eq_refl) as (c & Hcrop & Hcsh & Hcit).
  rewrite <- (Z2Nat.id p_top) in Hcsh, Hcit by exact Ht.
  rewrite <- (Z2Nat.id p_left) in Hcsh, Hcit by exact Hl.
  rewrite !slice_indices_inside in Hcsh, Hcit by lia.
  simpl in Hcsh, Hcit.
  exists (PyNdarray a'), p_top, p_bottom, p_left, p_right, c.
  split; [exact (Hrun true) |]. split; [exact Hcrop |].
  split; [congruence |].
  intros idx Hin. rewrite Hcsh in Hin.
  unfold in_bounds in Hin. inversion Hin as [| i h' r1 l1 Hi Hin1]; subst.
  inversion Hin1 as [| j w' r l2 Hj Hin2]; subst.
  rewrite Hcit. apply Hit; assumption.
Qed.

End PadCropProperties.

(** ** [scale_crop]: the image pipeline *)

Section ScaleCropFacts.
Context {F : Type} {NF : Number F}.
Variable rescale : ndarray F -> F -> option nat -> result (ndarray F).
Variable imsave : string -> pyobj F -> result unit.
Implicit Types a b : ndarray F.

(** The debug dumps only ever turn a result into an exception. *)
Lemma scale_crop_image_debug (img : pyobj F) crop_size h_offset w_offset
      (scale_factor : F) (debug : bool) debug_root r :
  scale_crop_image rescale imsave img crop_size h_offset w_offset scale_factor
                   debug debug_root = Ok r ->
  scale_crop_image rescale imsave img crop_size h_offset w_offset scale_factor
                   false debug_root = Ok r.
Proof.
  destruct debug; [| trivial].
  unfold scale_crop_image, debug_dump.
  destruct img as [a | | | |]; simpl; try discriminate.
  destruct (unpack_crop_size crop_size) as [e | [ch cw]]; simpl; [trivial |].
  destruct (imsave _ _) as [e | []]; simpl; [discriminate |].
  destruct (if (ndim a =? 3)%nat then _ else _) as [e | scaled]; simpl; [trivial |].
  destruct (imsave _ _) as [e | []]; simpl; [discriminate |].
  destruct (crop_img _ _ _ _) as [e | cropped]; simpl; [trivial |].
  destruct (imsave _ _) as [e | []]; simpl; [discriminate |].
  destruct (obj_shape_at cropped 0) as [e | rows]; simpl; [trivial |].
  destruct (if Z.of_nat rows <? ch then _ else _) as [e | needed]; simpl;
    [trivial |].
  destruct (if needed then _ else _) as [e | [padded pads]]; simpl; [trivial |].
  destruct (imsave _ _) as [e | []]; simpl; [discriminate | trivial].
Qed.

(** The pipeline without debug dumps, once the resampler has returned [b]:
    the result has exactly the crop size on its two leading axes, and the pad
    amounts are those of [pad_width_or_height] for the cropped window. *)
Lemma scale_crop_image_spec a b (hb wb : nat) (rest : list nat) crop_size
      (crop_height crop_width h_offset w_offset : Z) (scale_factor : F)
      debug_root :
  image_rank a ->
  unpack_crop_size crop_size = Ok (crop_height, crop_width) ->
  0 <= crop_height -> 0 <= crop_width ->
  rescale (copy a) scale_factor (channel_axis_of a) = Ok b ->
  shape b = hb :: wb :: rest ->
  (List.length rest <= 1)%nat ->
  let rows := slice_indices h_offset (h_offset + crop_height) hb in
  let cols := slice_indices w_offset (w_offset + crop_width) wb in
  let p_top := pad_before (Z.of_nat (snd rows)) crop_height in
  let p_bottom := pad_after (Z.of_nat (snd rows)) crop_height in
  let p_left := pad_before (Z.of_nat (snd cols)) crop_width in
  let p_right := pad_after (Z.of_nat (snd cols)) crop_width in
  exists out,
    scale_crop_image rescale imsave (PyNdarray a) crop_size h_offset w_offset
                     scale_factor false debug_root
    = Ok (PyNdarray out, (p_top, p_bottom, p_left, p_right)) /\
    shape out = Z.to_nat crop_height :: Z.to_nat crop_width :: rest /\
    (forall i j r, (i < snd rows)%nat -> (j < snd cols)%nat -> in_bounds r rest ->
                   item out ((Z.to_nat p_top + i)%nat :: (Z.to_nat p_left + j)%nat :: r)
                   = item b ((fst rows + i)%nat :: (fst cols + j)%nat :: r)).
Proof.
  intros Hrank Hcs Hch Hcw Hres Hshape Hrest rows cols p_top p_bottom p_left p_right.
  destruct (crop_ndarray_spec b hb wb rest crop_size crop_height crop_width
                              h_offset w_offset Hshape Hrest Hcs)
    as (c & Hcrop & Hcsh & Hcit).
  fold rows in Hcsh, Hcit. fold cols in Hcsh, Hcit.
  pose proof (slice_indices_len_le h_offset crop_height hb Hch) as Hrows.
  pose proof (slice_indices_len_le w_offset crop_width wb Hcw) as Hcols.
  fold rows in Hrows. fold cols in Hcols.
  pose proof (pad_before_after_sum (Z.of_nat (snd rows)) crop_height) as Hsumh.
  pose proof (pad_before_after_sum (Z.of_nat (snd cols)) crop_width) as Hsumw.
  pose proof (pad_before_after_nonneg (Z.of_nat (snd rows)) crop_height) as [Ht Hb].
  pose proof (pad_before_after_nonneg (Z.of_nat (snd cols)) crop_width) as [Hl Hr].
  fold p_top p_bottom in Hsumh, Ht, Hb. fold p_left p_right in Hsumw, Hl, Hr.
  assert (Hprefix :
    scale_crop_image rescale imsave (PyNdarray a) crop_size h_offset w_offset
                     scale_factor false debug_root
    = '(img, pads) <-
         (if (Z.of_nat (snd rows) <? crop_height)
             || (Z.of_nat (snd cols) <? crop_width)
          then r <- pad_width_or_height (PyNdarray c) crop_width crop_height
                                        f0 true ;;
               match r with
               | PadTuple img p_top p_bottom p_left p_right =>
                   Ok (img, (p_top, p_bottom, p_left, p_right))
               | PadData _ => Raise (TypeError "cannot unpack non-iterable object")
               end
          else Ok (PyNdarray c, (0, 0, 0, 0))) ;;
      Ok (img, pads)).
  { clearbody rows cols.
    unfold scale_crop_image, debug_dump. simpl. rewrite Hcs. simpl.
    unfold channel_axis_of in Hres.
    destruct Hrank as [Hdim | Hdim]; rewrite Hdim in Hres; simpl in Hres;
      rewrite Hdim; simpl; rewrite Hres; simpl; rewrite Hcrop; simpl;
      unfold shape_at; rewrite Hcsh; simpl;
      (destruct (Z.of_nat (snd rows) <? crop_height); simpl; [reflexivity |]);
      destruct (Z.of_nat (snd cols) <? crop_width); reflexivity. }
  rewrite Hprefix. clear Hprefix.
  destruct ((Z.of_nat (snd rows) <? crop_height)
            || (Z.of_nat (snd cols) <? crop_width)) eqn:Eneed.
  - destruct (pad_ndarray_spec c (snd rows) (snd cols) rest crop_width crop_height
                               f0 Hcsh Hrest) as (out & Hpad & Hosh & Hoit).
    fold p_top p_bottom p_left p_right in Hpad, Hosh, Hoit.
    exists out. rewrite (Hpad true). simpl.
    split; [reflexivity |]. split.
    + rewrite Hosh. f_equal; [lia | f_equal; lia].
    + intros i j r Hi Hj Hin. rewrite Hoit by assumption. apply Hcit.
  - apply orb_false_elim in Eneed. destruct Eneed as [E1 E2].
    apply Z.ltb_ge in E1, E2.
    assert (Ezero : p_top = 0 /\ p_bottom = 0 /\ p_left = 0 /\ p_right = 0).
    { unfold p_top, p_bottom, p_left, p_right.
      rewrite !pad_before_ge, !pad_after_ge by assumption. auto. }
    destruct Ezero as (-> & -> & -> & ->).
    exists c. simpl. split; [reflexivity |]. split.
    + rewrite Hcsh. f_equal; [lia | f_equal; lia].
    + intros i j r _ _ _. apply Hcit.
Qed.

End ScaleCropFacts.

(** ** [scale_crop]: the intrinsic update *)

Section IntrinsicFacts.
Context {F : Type} {NF : Number F}.
Implicit Types K : ndarray F.

(** [-1.0 * float(n)] is [float(-n)]. *)
Hypothesis neg_of_int : forall n : Z, fmul (fopp f1) (of_int n) = of_int (- n).

Lemma dot_3x3 (A B : ndarray F) :
  shape A = [3; 3]%nat -> shape B = [3; 3]%nat ->
  exists C,
    dot A B = Ok C /\ shape C = [3; 3]%nat /\
    forall i j,
      item C [i; j]
      = fadd (fadd (fmul (item A [i; 0%nat]) (item B [0%nat; j]))
                   (fmul (item A [i; 1%nat]) (item B [1%nat; j])))
             (fmul (item A [i; 2%nat]) (item B [2%nat; j])).
Proof.
  intros HA HB. unfold dot, ndim. rewrite HA, HB. simpl.
  eexists. split; [reflexivity |]. split; reflexivity.
Qed.

Lemma intrinsic_update_spec K (scale_factor : F) (h_offset w_offset p_top p_left : Z) :
  shape K = [3; 3]%nat ->
  exists K_aug,
    intrinsic_update K scale_factor h_offset w_offset p_top p_left = Ok K_aug /\
    array_equal K_aug
      (spec_matmul3 (spec_PadTranslate p_left p_top)
         (spec_matmul3 (spec_CropTranslate w_offset h_offset)
            (spec_matmul3 (spec_Scale scale_factor) K))).
Proof.
  intros HK. unfold intrinsic_update. simpl.
  match goal with
  | |- context [dot ?A (copy K)] =>
      destruct (dot_3x3 A (copy K) eq_refl HK) as (T1 & E1 & Hsh1 & Hit1)
  end.
  rewrite E1. simpl.
  match goal with
  | |- context [dot ?A T1] =>
      destruct (dot_3x3 A T1 eq_refl Hsh1) as (T2 & E2 & Hsh2 & Hit2)
  end.
  rewrite E2. simpl.
  match goal with
  | |- context [dot ?A T2] =>
      destruct (dot_3x3 A T2 eq_refl Hsh2) as (T3 & E3 & Hsh3 & Hit3)
  end.
  exists T3. split; [exact E3 |]. split; [exact Hsh3 |].
  intros idx Hin. rewrite Hsh3 in Hin. unfold in_bounds in Hin.
  inversion Hin as [| i n1 r1 l1 Hi Hin1]; subst.
  inversion Hin1 as [| j n2 r2 l2 Hj Hin2]; subst.
  inversion Hin2; subst.
  rewrite Hit3, !Hit2, !Hit1.
  assert (Hi' : i = 0%nat \/ i = 1%nat \/ i = 2%nat) by lia.
  destruct Hi' as [-> | [-> | ->]];
    cbn; rewrite <- ?neg_of_int; reflexivity.
Qed.

End IntrinsicFacts.

(** ** [scale_crop]: the composite *)

Section ScaleCropProperties.
Context {F : Type} {NF : Number F}.
Variable rescale : ndarray F -> F -> option nat -> result (ndarray F).
Variable imsave : string -> pyobj F -> result unit.
Implicit Types a b K : ndarray F.

Lemma raises_not_returns {A : Type} (c : result A) (P : exn -> Prop) :
  raises c P -> ~ returns c.
Proof. intros (e & -> & _) (x & Hx). discriminate. Qed.

Lemma intrinsic_update_returns K (scale_factor : F)
      (h_offset w_offset p_top p_left : Z) :
  shape K = [3; 3]%nat ->
  exists K_aug,
    intrinsic_update K scale_factor h_offset w_offset p_top p_left = Ok K_aug /\
    shape K_aug = [3; 3]%nat.
Proof.
  intros HK. unfold intrinsic_update. simpl.
  match goal with
  | |- context [dot ?A (copy K)] =>
      destruct (dot_3x3 A (copy K) eq_refl HK) as (T1 & E1 & Hsh1 & _)
  end.
  rewrite E1. simpl.
  match goal with
  | |- context [dot ?A T1] =>
      destruct (dot_3x3 A T1 eq_refl Hsh1) as (T2 & E2 & Hsh2 & _)
  end.
  rewrite E2. simpl.
  match goal with
  | |- context [dot ?A T2] =>
      destruct (dot_3x3 A T2 eq_refl Hsh2) as (T3 & E3 & Hsh3 & _)
  end.
  exists T3. split; assumption.
Qed.

(** Whatever [scale_crop] returns carries the image of the pipeline. *)
Lemma scale_crop_inv (img : pyobj F) crop_size h_offset w_offset (scale_factor : F)
      (K : option (ndarray F)) debug debug_root r :
  scale_crop rescale imsave img crop_size h_offset w_offset scale_factor K
             debug debug_root = Ok r ->
  exists pads,
    scale_crop_image rescale imsave img crop_size h_offset w_offset scale_factor
                     debug debug_root = Ok (sc_image r, pads).
Proof.
  unfold scale_crop. intros H.
  apply bind_inv in H. destruct H as ([img' [[[pt pb] pl] pr]] & Himg & H).
  exists (pt, pb, pl, pr). rewrite Himg.
  destruct K as [K |].
  - apply bind_inv in H. destruct H as (K_aug & _ & H).
    apply Ok_inj in H. subst r. reflexivity.
  - apply Ok_inj in H. subst r. reflexivity.
Qed.

Lemma scale_crop_image_rescale_error a crop_size h_offset w_offset
      (scale_factor : F) debug_root e :
  rescale (copy a) scale_factor (channel_axis_of a) = Raise e ->
  ~ returns (scale_crop_image rescale imsave (PyNdarray a) crop_size h_offset
                              w_offset scale_factor false debug_root).
Proof.
  intros Hres (r & Hr). revert Hr.
  unfold scale_crop_image, debug_dump, channel_axis_of in *. simpl.
  destruct (unpack_crop_size crop_size) as [e' | [ch cw]]; simpl; [discriminate |].
  destruct (ndim a =? 3)%nat.
  - rewrite Hres. discriminate.
  - destruct (ndim a =? 2)%nat; [rewrite Hres |]; discriminate.
Qed.

(** C1. For every array image of rank 2 or 3 and every crop size (a scalar or
    a (height, width) pair, of non-negative extents), the image [scale_crop]
    returns has exactly [crop_height] rows and [crop_width] columns, padded
    or not; and it does return one whenever the resampler does (with dumps
    off and an intrinsic that is absent or 3x3). *)
Theorem scale_crop_output_size a crop_size (crop_height crop_width : Z)
        (h_offset w_offset : Z) (scale_factor : F) (K : option (ndarray F))
        debug_root :
  rescale_keeps_rank rescale ->
  image_rank a ->
  unpack_crop_size crop_size = Ok (crop_height, crop_width) ->
  0 <= crop_height -> 0 <= crop_width ->
  (forall debug r,
      scale_crop rescale imsave (PyNdarray a) crop_size h_offset w_offset
                 scale_factor K debug debug_root = Ok r ->
      exists out rest,
        sc_image r = PyNdarray out /\
        shape out = Z.to_nat crop_height :: Z.to_nat crop_width :: rest /\
        ndim out = ndim a /\
        Z.of_nat (obj_height (sc_image r)) = crop_height /\
        Z.of_nat (obj_width (sc_image r)) = crop_width) /\
  (forall b,
      rescale (copy a) scale_factor (channel_axis_of a) = Ok b ->
      match K with Some k => shape k = [3; 3]%nat | None => True end ->
      returns (scale_crop rescale imsave (PyNdarray a) crop_size h_offset w_offset
                          scale_factor K false debug_root)).
Proof.
  intros Hkeep Hrank Hcs Hch Hcw.
  assert (Hpipe : forall b,
             rescale (copy a) scale_factor (channel_axis_of a) = Ok b ->
             exists out rest,
               scale_crop_image rescale imsave (PyNdarray a) crop_size h_offset
                                w_offset scale_factor false debug_root
               = Ok (PyNdarray out,
                     (pad_before (Z.of_nat (snd (slice_indices h_offset
                        (h_offset + crop_height) (nth 0 (shape b) 0%nat)))) crop_height,
                      pad_after (Z.of_nat (snd (slice_indices h_offset
                        (h_offset + crop_height) (nth 0 (shape b) 0%nat)))) crop_height,
                      pad_before (Z.of_nat (snd (slice_indices w_offset
                        (w_offset + crop_width) (nth 1 (shape b) 0%nat)))) crop_width,
                      pad_after (Z.of_nat (snd (slice_indices w_offset
                        (w_offset + crop_width) (nth 1 (shape b) 0%nat)))) crop_width)) /\
               shape out = Z.to_nat crop_height :: Z.to_nat crop_width :: rest /\
               ndim out = ndim a).
  { intros b Hres.
    assert (Hrankb : image_rank b).
    { unfold image_rank. rewrite (Hkeep _ _ _ _ Hres), ndim_copy. exact Hrank. }
    destruct (image_rank_shape b Hrankb) as (hb & wb & rest & Hshape & Hrest).
    assert (Hlen : (List.length rest <= 1)%nat).
    { destruct Hrest as [-> | [c ->]]; simpl; lia. }
    destruct (scale_crop_image_spec rescale imsave a b hb wb rest crop_size
                crop_height crop_width h_offset w_offset scale_factor debug_root
                Hrank Hcs Hch Hcw Hres Hshape Hlen) as (out & Hrun & Hsh & _).
    exists out, rest. rewrite Hshape. simpl. split; [exact Hrun |].
    split; [exact Hsh |].
    rewrite <- (ndim_copy a), <- (Hkeep _ _ _ _ Hres).
    unfold ndim. rewrite Hsh, Hshape. reflexivity. }
  split.
  - intros debug r Hr.
    apply scale_crop_inv in Hr. destruct Hr as (pads & Hr).
    apply scale_crop_image_debug in Hr.
    destruct (rescale (copy a) scale_factor (channel_axis_of a)) as [e | b] eqn:Hres.
    + exfalso.
      apply (scale_crop_image_rescale_error a crop_size h_offset w_offset
               scale_factor debug_root e Hres).
      eexists. exact Hr.
    + destruct (Hpipe b eq_refl) as (out & rest & Hrun & Hsh & Hnd).
      rewrite Hrun in Hr. apply Ok_inj in Hr.
      assert (Himg : sc_image r = PyNdarray out) by congruence.
      exists out, rest. rewrite Himg. simpl. rewrite Hsh. simpl.
      repeat split; try assumption; lia.
  - intros b Hres HK.
    destruct (Hpipe b Hres) as (out & rest & Hrun & _).
    unfold scale_crop. rewrite Hrun. simpl.
    destruct K as [k |].
    + match goal with
      | |- context [intrinsic_update k ?s ?h ?w ?t ?l] =>
          destruct (intrinsic_update_returns k s h w t l HK) as (K_aug & E & _)
      end.
      rewrite E. simpl. eexists. reflexivity.
    + eexists. reflexivity.
Qed.

(** C4. [scale_crop] raises the unsupported-type error for every image that
    is not a numpy array, and the invalid-dimension error for every array
    whose rank is neither 2 nor 3 (the crop size being a scalar or a pair,
    and the first debug dump, if enabled, having succeeded); in both cases
    nothing is returned. *)
Theorem scale_crop_rejects (img : pyobj F) crop_size (h_offset w_offset : Z)
        (scale_factor : F) (K : option (ndarray F)) (debug : bool) debug_root :
  let call := scale_crop rescale imsave img crop_size h_offset w_offset
                         scale_factor K debug debug_root in
  (is_ndarray img = false ->
   raises call UnsupportedTypeError /\ ~ returns call) /\
  (forall a crop_height crop_width,
      img = PyNdarray a ->
      ndim a <> 2%nat -> ndim a <> 3%nat ->
      unpack_crop_size crop_size = Ok (crop_height, crop_width) ->
      (debug = true ->
       imsave (os_path_join (match debug_root with
                             | None => default_debug_root
                             | Some root => root
                             end) "0_input.png") img = Ok tt) ->
      raises call InvalidDimensionError /\ ~ returns call).
Proof.
  intros call. split.
  - intros Hty.
    assert (Hraise : raises call UnsupportedTypeError).
    { unfold call, scale_crop, scale_crop_image.
      destruct img as [a | t | im | | ty]; simpl in Hty; try discriminate;
        simpl; eexists; (split; [reflexivity | eexists; reflexivity]). }
    split; [exact Hraise | exact (raises_not_returns _ _ Hraise)].
  - intros a crop_height crop_width -> H2 H3 Hcs Hdump.
    assert (Hraise : raises call InvalidDimensionError).
    { unfold call, scale_crop, scale_crop_image, debug_dump. simpl.
      rewrite Hcs. simpl.
      apply Nat.eqb_neq in H2, H3.
      destruct debug.
      - rewrite (Hdump eq_refl). simpl. rewrite H2, H3. simpl.
        eexists. split; [reflexivity | eexists; reflexivity].
      - simpl. rewrite H2, H3. simpl.
        eexists. split; [reflexivity | eexists; reflexivity]. }
    split; [exact Hraise | exact (raises_not_returns _ _ Hraise)].
Qed.

End ScaleCropProperties.

(** ** The intrinsic matrix, in exact arithmetic *)

Lemma Q_neg_of_int (n : Z) : fmul (fopp f1) (of_int n) = (of_int (- n) : Q).
Proof.
  destruct n; reflexivity.
Qed.

(** In binary64 the scenario's intrinsic comes out as the same four numbers,
    every intermediate value being exactly representable. *)
Lemma intrinsic_update_example_float :
  match intrinsic_update K_example_float 0.5%float 10 20 0 0 with
  | inr K_aug => tolist2 K_aug
  | inl _ => []
  end
  = [[250; 0; 140]; [0; 250; 110]; [0; 0; 1]]%float.
Proof. vm_compute. reflexivity. Qed.

(** C2. With an intrinsic [K] given, [scale_crop] returns, next to the image
    of the pipeline, [Kp . (Kc . (Ks . K))]: [Ks] the identity with the scale
    factor at (0,0) and (1,1), [Kc] the identity with [(-w_offset, -h_offset)]
    at (0,2) and (1,2), [Kp] the identity with [(p_left, p_top)] there, the
    pad amounts being those of the pipeline.  For the example intrinsic,
    scale 1/2, offsets (10, 20) and no padding, the focal entries are 250 and
    the principal point is (140, 110). *)
Theorem scale_crop_intrinsic_composition :
  (forall (rescale : ndarray Q -> Q -> option nat -> result (ndarray Q))
          (imsave : string -> pyobj Q -> result unit)
          (img : pyobj Q) crop_size (h_offset w_offset : Z) (scale_factor : Q)
          (K : ndarray Q) debug debug_root img' p_top p_bottom p_left p_right,
      shape K = [3; 3]%nat ->
      scale_crop_image rescale imsave img crop_size h_offset w_offset
                       scale_factor debug debug_root
      = Ok (img', (p_top, p_bottom, p_left, p_right)) ->
      exists K_aug,
        scale_crop rescale imsave img crop_size h_offset w_offset scale_factor
                   (Some K) debug debug_root = Ok (ScImageK img' K_aug) /\
        array_equal K_aug
          (spec_matmul3 (spec_PadTranslate p_left p_top)
             (spec_matmul3 (spec_CropTranslate w_offset h_offset)
                (spec_matmul3 (spec_Scale scale_factor) K)))) /\
  (forall (rescale : ndarray Q -> Q -> option nat -> result (ndarray Q))
          (imsave : string -> pyobj Q -> result unit)
          (img : pyobj Q) crop_size debug debug_root img' p_bottom p_right,
      scale_crop_image rescale imsave img crop_size 10 20 (1 # 2)
                       debug debug_root
      = Ok (img', (0, p_bottom, 0, p_right)) ->
      exists K_aug,
        scale_crop rescale imsave img crop_size 10 20 (1 # 2)
                   (Some K_example) debug debug_root = Ok (ScImageK img' K_aug) /\
        (item K_aug [0; 0]%nat == 250)%Q /\
        (item K_aug [1; 1]%nat == 250)%Q /\
        (item K_aug [0; 2]%nat == 140)%Q /\
        (item K_aug [1; 2]%nat == 110)%Q).
Proof.
  assert (Hgen : forall rescale imsave (img : pyobj Q) crop_size h_offset w_offset
                        (scale_factor : Q) K debug debug_root img'
                        p_top p_bottom p_left p_right,
             shape K = [3; 3]%nat ->
             scale_crop_image rescale imsave img crop_size h_offset w_offset
                              scale_factor debug debug_root
             = Ok (img', (p_top, p_bottom, p_left, p_right)) ->
             exists K_aug,
               scale_crop rescale imsave img crop_size h_offset w_offset
                          scale_factor (Some K) debug debug_root
               = Ok (ScImageK img' K_aug) /\
               array_equal K_aug
                 (spec_matmul3 (spec_PadTranslate p_left p_top)
                    (spec_matmul3 (spec_CropTranslate w_offset h_offset)
                       (spec_matmul3 (spec_Scale scale_factor) K)))).
  { intros rescale imsave img crop_size h_offset w_offset scale_factor K debug
           debug_root img' p_top p_bottom p_left p_right HK Hpipe.
    destruct (intrinsic_update_spec Q_neg_of_int K scale_factor h_offset w_offset
                                    p_top p_left HK) as (K_aug & Hrun & Heq).
    exists K_aug. split; [| exact Heq].
    unfold scale_crop. rewrite Hpipe. simpl. rewrite Hrun. reflexivity. }
  split; [exact Hgen |].
  intros rescale imsave img crop_size debug debug_root img' p_bottom p_right Hpipe.
  destruct (Hgen rescale imsave img crop_size 10 20 (1 # 2)%Q K_example debug
                 debug_root img' 0 p_bottom 0 p_right eq_refl Hpipe)
    as (K_aug & Hrun & Hshape & Hitem).
  exists K_aug. split; [exact Hrun |].
  assert (Hin : forall i j, (i < 3)%nat -> (j < 3)%nat ->
                            in_bounds [i; j] (shape K_aug)).
  { intros i j Hi Hj. rewrite Hshape. simpl.
    constructor; [exact Hi |]. constructor; [exact Hj | constructor]. }
  rewrite !Hitem by (apply Hin; lia).
  repeat split; vm_compute; reflexivity.
Qed.

(** ** [crop_img]: the unsupported inputs *)

Section CropRejects.
Context {F : Type} {NF : Number F}.

(** No input other than an array gets past the lookup of [torch]. *)
Lemma crop_img_not_ndarray (img : pyobj F) crop_size (h_offset w_offset : Z) :
  is_ndarray img = false ->
  crop_img img crop_size h_offset w_offset
  = Raise (NameError "name 'torch' is not defined").
Proof.
  intros H. destruct img; simpl in H; try discriminate; reflexivity.
Qed.

(** In a namespace that does bind [torch], the type error is the one the
    source spells out. *)
Lemma crop_img_in_with_torch (globals : list string) (img : pyobj F) crop_size
      (h_offset w_offset : Z) :
  In "torch" globals ->
  is_ndarray img = false -> is_tensor img = false ->
  raises (crop_img_in globals img crop_size h_offset w_offset)
         UnsupportedTypeError.
Proof.
  intros Hin Ha Ht.
  assert (Hload : load_global globals "torch" = Ok tt).
  { unfold load_global.
    assert (E : existsb (String.eqb "torch") globals = true).
    { apply existsb_exists. exists "torch". split; [exact Hin | reflexivity]. }
    rewrite E. reflexivity. }
  unfold crop_img_in.
  destruct img; simpl in Ha, Ht; try discriminate;
    rewrite Hload; simpl;
    (eexists; split; [reflexivity | eexists; reflexivity]).
Qed.

(** An array whose rank is neither 2 nor 3 falls through both branches. *)
Lemma crop_img_other_rank (a : ndarray F) crop_size crop_height crop_width
      (h_offset w_offset : Z) :
  ndim a <> 2%nat -> ndim a <> 3%nat ->
  unpack_crop_size crop_size = Ok (crop_height, crop_width) ->
  crop_img (PyNdarray a) crop_size h_offset w_offset = Ok PyNone.
Proof.
  intros H2 H3 Hcs. unfold crop_img, crop_img_in. simpl. rewrite Hcs. simpl.
  apply Nat.eqb_neq in H2, H3. rewrite H2, H3. reflexivity.
Qed.

End CropRejects.

(** C3. On a Python list, which is neither an array nor a tensor, [crop_img]
    does not reach its own [RuntimeError]: the module never imports [torch],
    and the lookup of that name raises [NameError] first. *)
Theorem crop_img_list_raises_NameError :
  let call := crop_img (PyOther "list" : pyobj Q) (CropScalar 1) 0 0 in
  call = Raise (NameError "name 'torch' is not defined") /\
  ~ raises call UnsupportedTypeError.
Proof.
  split; [reflexivity |].
  intros (e & He & ty & Hty). vm_compute in He. subst e.
  injection He. intros; discriminate.
Qed.

(** C5. On a rank-1 array [crop_img] raises nothing and returns [None],
    where [scale_crop] raises the invalid-dimension error. *)
Theorem crop_img_rank1_returns_None :
  crop_img (PyNdarray (np_full [5]%nat 1%Q)) (CropScalar 2) 0 0 = Ok PyNone /\
  raises (scale_crop rescale_nearest imsave_quiet
                     (PyNdarray (np_full [5]%nat 1%Q)) (CropScalar 2) 0 0 1%Q
                     None false None)
         InvalidDimensionError.
Proof.
  split; [reflexivity |].
  eexists. split; [reflexivity |]. eexists. reflexivity.
Qed.

(** ** [get_random_crop_offsets] *)

Lemma pow2_63_pos : 1 <= 2 ^ 63.
Proof. vm_compute. discriminate. Qed.

Lemma randint_spec (low high : Z) :
  - 2 ^ 63 <= low -> high <= 2 ^ 63 ->
  low < high ->
  exists d,
    np_random_randint low high = Ok d /\
    List.length d = Z.to_nat (high - low) /\
    NoDup d /\
    (forall x, In x d <-> low <= x < high).
Proof.
  intros Hlow Hhigh Hlt. unfold np_random_randint.
  destruct (low <? - 2 ^ 63) eqn:E1; [apply Z.ltb_lt in E1; lia |].
  destruct (2 ^ 63 - 1 <? high - 1) eqn:E2; [apply Z.ltb_lt in E2; lia |].
  destruct (high <=? low) eqn:E; [lia |].
  eexists. split; [reflexivity |]. split; [| split].
  - rewrite length_map, length_seq. reflexivity.
  - apply NoDup_map_NoDup_ForallPairs; [| apply seq_NoDup].
    intros i j _ _ Hij. lia.
  - intros x. rewrite in_map_iff. split.
    + intros (k & <- & Hk). apply in_seq in Hk. lia.
    + intros Hx. exists (Z.to_nat (x - low)). split; [lia |].
      apply in_seq. lia.
Qed.

Section Products.
Context {A B : Type}.
Implicit Types (ws : list B) (hs : list A) (w : B) (h : A).

Lemma inner_draws w hs :
  dist_bind hs (fun h => dist_ret (h, w)) = map (fun h => (h, w)) hs.
Proof.
  unfold dist_bind, dist_ret. induction hs as [| h hs IH]; simpl; congruence.
Qed.

Lemma in_draws ws hs h w : In (h, w) (draws ws hs) <-> In w ws /\ In h hs.
Proof.
  unfold draws, dist_bind at 1. rewrite in_flat_map. split.
  - intros (w' & Hw & Hin). rewrite inner_draws in Hin.
    apply in_map_iff in Hin. destruct Hin as (h' & Heq & Hh).
    injection Heq as -> ->. auto.
  - intros [Hw Hh]. exists w. split; [exact Hw |].
    rewrite inner_draws. apply in_map_iff. exists h.
    split; [reflexivity | exact Hh].
Qed.

Lemma length_draws ws hs :
  List.length (draws ws hs) = (List.length ws * List.length hs)%nat.
Proof.
  unfold draws, dist_bind at 1.
  induction ws as [| w ws IH]; simpl; [reflexivity |].
  rewrite length_app, IH, inner_draws, length_map. reflexivity.
Qed.

Lemma NoDup_draws ws hs : NoDup ws -> NoDup hs -> NoDup (draws ws hs).
Proof.
  intros Hws Hhs. unfold draws, dist_bind at 1.
  induction Hws as [| w ws Hnotin Hws IH]; simpl; [constructor |].
  apply NoDup_app.
  - rewrite inner_draws. apply NoDup_map_NoDup_ForallPairs; [| exact Hhs].
    intros h1 h2 _ _ Heq. congruence.
  - exact IH.
  - intros [h w'] Hin1 Hin2. rewrite inner_draws in Hin1.
    apply in_map_iff in Hin1. destruct Hin1 as (h' & Heq & _).
    injection Heq as E1 E2. subst w'.
    apply Hnotin. apply (in_draws ws hs h w). exact Hin2.
Qed.

(** An event on the second component alone is hit by as many joint outcomes
    as there are first components, once for each matching second one. *)
Lemma favourable_second (ev : B -> bool) ws hs :
  favourable (fun p => ev (snd p)) (draws ws hs)
  = (favourable ev ws * List.length hs)%nat.
Proof.
  unfold favourable, draws, dist_bind at 1.
  induction ws as [| w ws IH]; simpl; [reflexivity |].
  rewrite filter_app, length_app, IH, inner_draws.
  assert (E : filter (fun p : A * B => ev (snd p)) (map (fun h => (h, w)) hs)
              = if ev w then map (fun h => (h, w)) hs else []).
  { clear. induction hs as [| h hs IH]; simpl.
    - destruct (ev w); reflexivity.
    - rewrite IH. destruct (ev w); reflexivity. }
  rewrite E. destruct (ev w); simpl; rewrite ?length_map; lia.
Qed.

Lemma favourable_first (ev : A -> bool) ws hs :
  favourable (fun p => ev (fst p)) (draws ws hs)
  = (List.length ws * favourable ev hs)%nat.
Proof.
  unfold favourable, draws, dist_bind at 1.
  induction ws as [| w ws IH]; simpl; [reflexivity |].
  rewrite filter_app, length_app, IH, inner_draws.
  assert (E : List.length (filter (fun p : A * B => ev (fst p))
                                  (map (fun h => (h, w)) hs))
              = List.length (filter ev hs)).
  { clear. induction hs as [| h hs IH]; simpl; [reflexivity |].
    destruct (ev h); simpl; rewrite IH; reflexivity. }
  rewrite E. reflexivity.
Qed.

End Products.

Lemma favourable_eqb_NoDup (x : Z) (d : list Z) :
  NoDup d -> In x d -> favourable (Z.eqb x) d = 1%nat.
Proof.
  unfold favourable. intros Hnd. induction Hnd as [| y d Hnotin Hnd IH]; simpl.
  - contradiction.
  - intros [-> | Hin].
    + rewrite Z.eqb_refl. simpl. f_equal.
      assert (E : filter (Z.eqb x) d = []).
      { clear -Hnotin. induction d as [| z d IH]; simpl; [reflexivity |].
        destruct (x =? z) eqn:Ez.
        - apply Z.eqb_eq in Ez. subst. exfalso. apply Hnotin. left. reflexivity.
        - apply IH. intros H. apply Hnotin. right. exact H. }
      rewrite E. reflexivity.
    + destruct (x =? y) eqn:Ey.
      * apply Z.eqb_eq in Ey. subst. contradiction.
      * apply IH. exact Hin.
Qed.

(** C6. For every crop size, height and width whose draw numpy can make
    in [int64] (each bound [max(1, size - crop - 1)] is at most [2^63], as
    it is for the extents of every array) the sampler raises nothing and
    draws [w_offset] uniformly from [[0, max(1, width - crop_width - 1))] and
    [h_offset] likewise: the joint outcomes are exactly the pairs of that
    rectangle, each once, so each value of either offset has probability one
    over the number of values.  Hence the window fits whenever the image
    exceeds the crop by more than one on both axes, and an axis with
    [size - crop - 1 <= 0] gets offset 0. *)
Theorem get_random_crop_offsets_range
        (crop_size : crop_size_t) (crop_height crop_width height width : Z) :
  unpack_crop_size crop_size = Ok (crop_height, crop_width) ->
  width - crop_width - 1 <= 2 ^ 63 ->
  height - crop_height - 1 <= 2 ^ 63 ->
  let w_count := Z.max 1 (width - crop_width - 1) in
  let h_count := Z.max 1 (height - crop_height - 1) in
  exists d,
    get_random_crop_offsets crop_size height width = Ok d /\
    (forall h_offset w_offset,
        In (h_offset, w_offset) d <->
        0 <= w_offset < w_count /\ 0 <= h_offset < h_count) /\
    NoDup d /\
    List.length d = (Z.to_nat w_count * Z.to_nat h_count)%nat /\
    (forall w, 0 <= w < w_count ->
               (favourable (fun p => (w =? snd p)%Z) d * Z.to_nat w_count)%nat
               = List.length d) /\
    (forall h, 0 <= h < h_count ->
               (favourable (fun p => (h =? fst p)%Z) d * Z.to_nat h_count)%nat
               = List.length d) /\
    (forall h_offset w_offset,
        In (h_offset, w_offset) d ->
        (height > crop_height + 1 -> h_offset + crop_height <= height) /\
        (width > crop_width + 1 -> w_offset + crop_width <= width) /\
        (width - crop_width - 1 <= 0 -> w_offset = 0) /\
        (height - crop_height - 1 <= 0 -> h_offset = 0)).
Proof.
  intros Hcs Hwmax Hhmax w_count h_count.
  pose proof pow2_63_pos as H63.
  destruct (randint_spec 0 w_count ltac:(lia) ltac:(lia) ltac:(lia))
    as (ws & Hws & Hlw & Hndw & Hinw).
  destruct (randint_spec 0 h_count ltac:(lia) ltac:(lia) ltac:(lia))
    as (hs & Hhs & Hlh & Hndh & Hinh).
  rewrite Z.sub_0_r in Hlw, Hlh.
  exists (draws ws hs).
  assert (Hmem : forall h_offset w_offset,
             In (h_offset, w_offset) (draws ws hs) <->
             0 <= w_offset < w_count /\ 0 <= h_offset < h_count).
  { intros h w. rewrite in_draws, Hinw, Hinh. reflexivity. }
  split; [| split; [exact Hmem | split; [| split; [| split; [| split]]]]].
  - unfold get_random_crop_offsets. rewrite Hcs. simpl.
    fold w_count h_count. rewrite Hws, Hhs. reflexivity.
  - apply NoDup_draws; assumption.
  - rewrite length_draws, Hlw, Hlh. reflexivity.
  - intros w Hw.
    rewrite (favourable_second (Z.eqb w)), length_draws.
    rewrite (favourable_eqb_NoDup w ws Hndw (proj2 (Hinw w) Hw)), Hlw. lia.
  - intros h Hh.
    rewrite (favourable_first (Z.eqb h)), length_draws.
    rewrite (favourable_eqb_NoDup h hs Hndh (proj2 (Hinh h) Hh)), Hlw, Hlh. lia.
  - intros h w Hin. apply Hmem in Hin. unfold w_count, h_count in Hin. lia.
Qed.

(** ** Which objects a call writes to *)

Section StoreFacts.
Context {F : Type} {NF : Number F}.
Variable rescale : ndarray F -> F -> option nat -> result (ndarray F).
Variable rescale_scratch : ndarray F -> F -> option nat -> ndarray F.
Variable imsave : string -> pyobj F -> result unit.
Implicit Types (st : store F) (r : aref) (n : nat).

Lemma store_set_length st l (a : ndarray F) :
  List.length (store_set st l a) = List.length st.
Proof.
  revert l. induction st as [| b st IH]; intros [| l]; simpl; auto.
Qed.

Lemma store_set_other st l l' (a : ndarray F) :
  l' <> l -> nth_error (store_set st l a) l' = nth_error st l'.
Proof.
  revert l l'. induction st as [| b st IH]; intros [| l] [| l'] H; simpl;
    try reflexivity; try congruence.
  apply IH. congruence.
Qed.

Lemma keeps_ret {A : Type} n (x : A) (Q : A -> Prop) :
  Q x -> keeps F n (ret_st x : M F A) Q.
Proof. intros HQ st Hn. simpl. auto. Qed.

Lemma keeps_raise {A : Type} n (e : exn) (Q : A -> Prop) :
  keeps F n (raise_st e : M F A) Q.
Proof. intros st Hn. simpl. auto. Qed.

Lemma keeps_lift {A : Type} n (c : result A) :
  keeps F n (lift c : M F A) (fun _ => True).
Proof. intros st Hn. simpl. destruct c; auto. Qed.

Lemma keeps_weaken {A : Type} n (c : M F A) (P Q : A -> Prop) :
  keeps F n c P -> (forall x, P x -> Q x) -> keeps F n c Q.
Proof.
  intros Hc HPQ st Hn. destruct (Hc st Hn) as (H1 & H2 & H3).
  split; [exact H1 |]. split; [exact H2 |].
  destruct (snd (c st)); auto.
Qed.

Lemma keeps_bind {A B : Type} n (c : M F A) (k : A -> M F B)
      (P : A -> Prop) (Q : B -> Prop) :
  keeps F n c P -> (forall x, P x -> keeps F n (k x) Q) -> keeps F n (bind_st c k) Q.
Proof.
  intros Hc Hk st Hn. unfold bind_st.
  destruct (Hc st Hn) as (H1 & H2 & H3).
  destruct (c st) as [st1 [e | x]]; simpl in *.
  - auto.
  - destruct (Hk x H3 st1 H1) as (K1 & K2 & K3).
    split; [exact K1 |]. split; [| exact K3].
    intros l Hl. rewrite K2 by exact Hl. apply H2. exact Hl.
Qed.

(** A new array never takes the place of an old one. *)
Lemma keeps_alloc n (a : ndarray F) :
  keeps F n (alloc a) (fun r => (n <= base r)%nat).
Proof.
  intros st Hn. unfold alloc. simpl.
  split; [rewrite length_app; simpl; lia |]. split; [| exact Hn].
  intros l Hl. apply nth_error_app1. lia.
Qed.

Lemma keeps_read n r : keeps F n (read r) (fun _ => True).
Proof.
  intros st Hn. unfold read.
  destruct (nth_error st (base r)); simpl; repeat split; auto;
    match goal with |- match ?c with _ => _ end => destruct c; exact I end.
Qed.

(** Writing to an object made during the call leaves the older ones alone. *)
Lemma keeps_write_item n r (idx : list nat) (v : F) :
  (n <= base r)%nat -> keeps F n (write_item r idx v) (fun _ => True).
Proof.
  intros Hr st Hn. unfold write_item.
  destruct (nth_error st (base r)) as [a |]; simpl; [| auto].
  match goal with |- context [match ?c with inl _ => _ | inr _ => _ end] =>
    destruct c as [e | a'] end; simpl; [auto |].
  rewrite store_set_length. split; [exact Hn |]. split; [| exact I].
  intros l Hl. apply store_set_other. lia.
Qed.

Lemma keeps_scribble n r (f : ndarray F -> ndarray F) :
  (n <= base r)%nat -> keeps F n (scribble r f) (fun _ => True).
Proof.
  intros Hr st Hn. unfold scribble.
  destruct (nth_error st (base r)) as [a |]; simpl; [| auto].
  rewrite store_set_length. split; [exact Hn |]. split; [| exact I].
  intros l Hl. apply store_set_other. lia.
Qed.

Lemma keeps_copy_st n r : keeps F n (copy_st r) (fun r' => (n <= base r')%nat).
Proof.
  unfold copy_st. eapply keeps_bind; [apply keeps_read |].
  intros a _. apply keeps_alloc.
Qed.

Lemma keeps_rescale_st n r (scale : F) (channel_axis : option nat) :
  (n <= base r)%nat ->
  keeps F n (rescale_st rescale rescale_scratch r scale channel_axis)
        (fun _ => True).
Proof.
  intros Hr. unfold rescale_st.
  eapply keeps_bind; [apply keeps_read |]. intros a _.
  eapply keeps_bind; [apply keeps_scribble; exact Hr |]. intros _ _.
  eapply keeps_bind; [apply keeps_lift |]. intros b _.
  eapply keeps_weaken; [apply keeps_alloc | auto].
Qed.

Lemma keeps_dot_st n (ra rb : aref) :
  keeps F n (dot_st ra rb) (fun _ => True).
Proof.
  unfold dot_st.
  eapply keeps_bind; [apply keeps_read |]. intros a _.
  eapply keeps_bind; [apply keeps_read |]. intros b _.
  eapply keeps_bind; [apply (keeps_lift n (dot a b)) |]. intros c _.
  eapply keeps_weaken; [apply keeps_alloc | auto].
Qed.

Lemma keeps_debug_dump_st n (debug : bool) (debug_root name : string)
      (img : option aref) :
  keeps F n (debug_dump_st imsave debug debug_root name img) (fun _ => True).
Proof.
  unfold debug_dump_st. destruct debug; [| apply keeps_ret; exact I].
  destruct img as [r |]; [| apply keeps_lift].
  eapply keeps_bind; [apply keeps_read |]. intros a _.
  eapply keeps_bind; [apply keeps_alloc |]. intros t _.
  apply keeps_lift.
Qed.

Lemma keeps_crop_img_st n r crop_size (h_offset w_offset : Z) :
  keeps F n (crop_img_st r crop_size h_offset w_offset) (fun _ => True).
Proof.
  unfold crop_img_st.
  eapply keeps_bind; [apply keeps_read |]. intros a _.
  eapply keeps_bind; [apply keeps_lift |]. intros [ch cw] _.
  destruct (ndim a =? 3)%nat; [| destruct (ndim a =? 2)%nat].
  - eapply keeps_bind; [apply keeps_lift |]. intros _ _.
    apply keeps_ret. exact I.
  - eapply keeps_bind; [apply keeps_lift |]. intros _ _.
    apply keeps_ret. exact I.
  - apply keeps_ret. exact I.
Qed.

Lemma keeps_pad_width_or_height_st n r (output_width output_height : Z)
      (pad_value : F) :
  keeps F n (pad_width_or_height_st r output_width output_height pad_value)
        (fun _ => True).
Proof.
  unfold pad_width_or_height_st.
  eapply keeps_bind; [apply keeps_read |]. intros a _.
  eapply keeps_bind; [apply keeps_lift |]. intros res _.
  destruct res as [d | d pt pb pl pr]; [apply keeps_raise |].
  destruct d; try apply keeps_raise.
  eapply keeps_bind; [apply keeps_alloc |]. intros r' _.
  apply keeps_ret. exact I.
Qed.

Lemma keeps_scale_crop_image_st n (img : aref) crop_size (h_offset w_offset : Z)
      (scale_factor : F) (debug : bool) (debug_root : option string) :
  keeps F n (scale_crop_image_st rescale rescale_scratch imsave img crop_size
                                 h_offset w_offset scale_factor debug debug_root)
        (fun _ => True).
Proof.
  unfold scale_crop_image_st.
  eapply keeps_bind; [apply keeps_read |]. intros a _.
  eapply keeps_bind; [apply keeps_lift |]. intros [ch cw] _.
  eapply keeps_bind; [apply keeps_debug_dump_st |]. intros _ _.
  eapply keeps_bind with (P := fun _ => True).
  { destruct (ndim a =? 3)%nat; [| destruct (ndim a =? 2)%nat].
    - eapply keeps_bind; [apply keeps_copy_st |]. intros c Hc.
      apply keeps_rescale_st. exact Hc.
    - eapply keeps_bind; [apply keeps_copy_st |]. intros c Hc.
      apply keeps_rescale_st. exact Hc.
    - apply keeps_raise. }
  intros scaled _.
  eapply keeps_bind; [apply keeps_debug_dump_st |]. intros _ _.
  eapply keeps_bind; [apply keeps_crop_img_st |]. intros cropped _.
  eapply keeps_bind; [apply keeps_debug_dump_st |]. intros _ _.
  eapply keeps_bind with (P := fun _ => True).
  { destruct cropped; [apply keeps_ret; exact I | apply keeps_raise]. }
  intros view_ref _.
  eapply keeps_bind; [apply keeps_read |]. intros c _.
  eapply keeps_bind; [apply keeps_lift |]. intros rows _.
  eapply keeps_bind; [apply keeps_lift |]. intros pad_needed _.
  eapply keeps_bind with (P := fun _ => True).
  { destruct pad_needed;
      [apply keeps_pad_width_or_height_st | apply keeps_ret; exact I]. }
  intros [out pads] _.
  eapply keeps_bind; [apply keeps_debug_dump_st |]. intros _ _.
  apply keeps_ret. exact I.
Qed.

Lemma keeps_intrinsic_update_st n (K : aref) (scale_factor : F)
      (h_offset w_offset p_top p_left : Z) :
  keeps F n (intrinsic_update_st K scale_factor h_offset w_offset p_top p_left)
        (fun _ => True).
Proof.
  unfold intrinsic_update_st.
  eapply keeps_bind; [apply keeps_alloc |]. intros Ks HKs.
  eapply keeps_bind; [apply keeps_write_item; exact HKs |]. intros _ _.
  eapply keeps_bind; [apply keeps_write_item; exact HKs |]. intros _ _.
  eapply keeps_bind; [apply keeps_alloc |]. intros Kc HKc.
  eapply keeps_bind; [apply keeps_write_item; exact HKc |]. intros _ _.
  eapply keeps_bind; [apply keeps_write_item; exact HKc |]. intros _ _.
  eapply keeps_bind; [apply keeps_alloc |]. intros Kp HKp.
  eapply keeps_bind; [apply keeps_write_item; exact HKp |]. intros _ _.
  eapply keeps_bind; [apply keeps_write_item; exact HKp |]. intros _ _.
  eapply keeps_bind; [apply keeps_copy_st |]. intros K_copy _.
  eapply keeps_bind; [apply keeps_dot_st |]. intros t1 _.
  eapply keeps_bind; [apply keeps_dot_st |]. intros t2 _.
  apply keeps_dot_st.
Qed.

(** The whole of [scale_crop] writes to none of the objects that existed
    when it was called, whatever the external resampler does with the copy
    it is handed. *)
Lemma keeps_scale_crop_st n (img : aref) crop_size (h_offset w_offset : Z)
      (scale_factor : F) (K : option aref) (debug : bool)
      (debug_root : option string) :
  keeps F n (scale_crop_st rescale rescale_scratch imsave img crop_size h_offset
                           w_offset scale_factor K debug debug_root)
        (fun _ => True).
Proof.
  unfold scale_crop_st.
  eapply keeps_bind; [apply keeps_scale_crop_image_st |].
  intros [out [[[p_top p_bottom] p_left] p_right]] _.
  destruct K as [K |]; [| apply keeps_ret; exact I].
  eapply keeps_bind; [apply keeps_intrinsic_update_st |]. intros K_aug _.
  apply keeps_ret. exact I.
Qed.

(** What an object reads only depends on its own buffer. *)
Lemma read_unchanged st st' r :
  unchanged st st' -> (base r < List.length st)%nat ->
  snd (read r st') = snd (read r st).
Proof.
  intros Hun Hr. unfold read. rewrite (Hun _ Hr).
  destruct (nth_error st (base r)); reflexivity.
Qed.

(** C10. [scale_crop] does not mutate its arguments: after the call, whether
    it returned or raised, every array object that existed before it, the
    input image and the input intrinsic among them, holds what it held; the
    resampler and the in-place updates only ever touch objects made during
    the call. *)
Theorem scale_crop_does_not_mutate
        (st : store F) (img : aref) crop_size (h_offset w_offset : Z)
        (scale_factor : F) (K : option aref) (debug : bool)
        (debug_root : option string) :
  let st' := fst (scale_crop_st rescale rescale_scratch imsave img crop_size
                                h_offset w_offset scale_factor K debug
                                debug_root st) in
  unchanged st st' /\
  ((base img < List.length st)%nat -> snd (read img st') = snd (read img st)) /\
  (forall K_ref, K = Some K_ref -> (base K_ref < List.length st)%nat ->
                 snd (read K_ref st') = snd (read K_ref st)).
Proof.
  intros st'.
  assert (Hun : unchanged st st').
  { destruct (keeps_scale_crop_st (List.length st) img crop_size h_offset
                w_offset scale_factor K debug debug_root st (Nat.le_refl _))
      as (_ & H & _).
    exact H. }
  split; [exact Hun |]. split.
  - intros Himg. apply read_unchanged; assumption.
  - intros K_ref _ HK. apply read_unchanged; assumption.
Qed.

End StoreFacts.

(** ** The store model computes what the value model computes *)

Section StoreRefinement.
Context {F : Type} {NF : Number F}.
Variable rescale : ndarray F -> F -> option nat -> result (ndarray F).
Variable rescale_scratch : ndarray F -> F -> option nat -> ndarray F.
Variable imsave : string -> pyobj F -> result unit.
Implicit Types (st : store F) (r : aref).

Lemma unchanged_refl st : unchanged st st.
Proof. intros l _. reflexivity. Qed.

Lemma unchanged_length st st' :
  unchanged st st' -> (List.length st <= List.length st')%nat.
Proof.
  intros H. destruct (Nat.le_gt_cases (List.length st) (List.length st'))
    as [Hle | Hgt]; [exact Hle | exfalso].
  assert (Hl : (List.length st' < List.length st)%nat) by lia.
  pose proof (H _ Hl) as E.
  assert (Hnone : nth_error st' (List.length st') = None)
    by (apply nth_error_None; lia).
  rewrite Hnone in E. symmetry in E. apply nth_error_None in E. lia.
Qed.

Lemma unchanged_trans st st' st'' :
  unchanged st st' -> unchanged st' st'' -> unchanged st st''.
Proof.
  intros H1 H2 l Hl. pose proof (unchanged_length _ _ H1).
  rewrite H2 by lia. apply H1. exact Hl.
Qed.

Lemma keeps_unchanged {A : Type} st (c : M F A) (Q : A -> Prop) :
  keeps F (List.length st) c Q -> unchanged st (fst (c st)).
Proof. intros H. destruct (H st (Nat.le_refl _)) as (_ & H2 & _). exact H2. Qed.

Lemma read_run r st (v : ndarray F) :
  snd (read r st) = Ok v -> read r st = (st, Ok v).
Proof.
  unfold read. destruct (nth_error st (base r)); simpl; intros H.
  - rewrite H. reflexivity.
  - discriminate.
Qed.

Lemma read_stable st st' r (v : ndarray F) :
  unchanged st st' -> snd (read r st) = Ok v -> snd (read r st') = Ok v.
Proof.
  intros Hun H. rewrite <- H. apply read_unchanged; [exact Hun |].
  apply nth_error_Some. unfold read in H.
  destruct (nth_error st (base r)); [discriminate | discriminate H].
Qed.

Lemma read_alloc st (a : ndarray F) :
  snd (read {| base := List.length st; view := [] |} (st ++ [a])) = Ok a.
Proof.
  unfold read. simpl. rewrite nth_error_app2, Nat.sub_diag by lia. reflexivity.
Qed.

Lemma unchanged_app st (l : store F) : unchanged st (st ++ l).
Proof. intros i Hi. apply nth_error_app1. exact Hi. Qed.

Lemma store_set_alloc st (a b : ndarray F) :
  store_set (st ++ [a]) (List.length st) b = st ++ [b].
Proof. induction st as [| c st IH]; simpl; [reflexivity | rewrite IH; reflexivity]. Qed.

(** A debug dump hands the writer the value the object holds. *)
Lemma debug_dump_st_run st r (a : ndarray F) (debug : bool)
      (debug_root name : string) :
  snd (read r st) = Ok a ->
  snd (debug_dump_st imsave debug debug_root name (Some r) st)
  = debug_dump imsave debug debug_root name (PyNdarray a).
Proof.
  intros H. unfold debug_dump_st, debug_dump. destruct debug; [| reflexivity].
  unfold bind_st. rewrite (read_run _ _ _ H). simpl. reflexivity.
Qed.

(** The copy is resampled: whatever the resampler leaves in the copy, the
    result is the one of the value model. *)
Lemma copy_rescale_st_run st r (a : ndarray F) (scale : F)
      (channel_axis : option nat) :
  snd (read r st) = Ok a ->
  let res := bind_st (copy_st r)
                     (fun c => rescale_st rescale rescale_scratch c scale
                                          channel_axis) st in
  match rescale (copy a) scale channel_axis with
  | inl e => snd res = inl e
  | inr b => exists rb, snd res = inr rb /\ snd (read rb (fst res)) = Ok b
  end.
Proof.
  intros H res. unfold res, copy_st, rescale_st, bind_st.
  rewrite (read_run _ _ _ H). simpl.
  rewrite (read_run _ _ _ (read_alloc st (copy a))).
  unfold scribble. simpl.
  rewrite nth_error_app2, Nat.sub_diag by lia. simpl.
  rewrite store_set_alloc. unfold lift.
  destruct (rescale (copy a) scale channel_axis) as [e | b]; simpl.
  - reflexivity.
  - eexists. split; [reflexivity |]. apply read_alloc.
Qed.

(** [crop_img] on an object: the view reads what the value model returns. *)
Lemma crop_img_st_run st r (b : ndarray F) crop_size (h_offset w_offset : Z) :
  snd (read r st) = Ok b ->
  let res := crop_img_st r crop_size h_offset w_offset st in
  fst res = st /\
  match crop_img (PyNdarray b) crop_size h_offset w_offset with
  | inl e => snd res = inl e
  | inr (PyNdarray v) =>
      exists rv, snd res = inr (Some rv) /\ snd (read rv st) = Ok v
  | inr PyNone => snd res = inr None
  | inr _ => False
  end.
Proof.
  intros H res. unfold res, crop_img_st, crop_img, crop_img_in, bind_st.
  rewrite (read_run _ _ _ H). simpl. unfold lift.
  destruct (unpack_crop_size crop_size) as [e | [ch cw]]; simpl;
    [split; reflexivity |].
  assert (Hview : forall sl v,
             getitem b sl = Ok v ->
             snd (read {| base := base r; view := view r ++ [sl] |} st) = Ok v).
  { intros sl v Hget. unfold read in *. simpl.
    destruct (nth_error st (base r)) as [b0 |]; simpl in *; [| discriminate].
    clear -H Hget. revert b0 H. induction (view r) as [| s0 vw IH]; simpl; intros b0 H.
    - apply Ok_inj in H. subst b0. rewrite Hget. reflexivity.
    - destruct (getitem b0 s0) as [e | b1]; simpl in *; [discriminate |].
      apply IH. exact H. }
  destruct (ndim b =? 3)%nat; [| destruct (ndim b =? 2)%nat].
  - destruct (getitem b _) as [e | v] eqn:Hget; simpl; split; try reflexivity.
    eexists. split; [reflexivity |]. apply Hview. exact Hget.
  - destruct (getitem b _) as [e | v] eqn:Hget; simpl; split; try reflexivity.
    eexists. split; [reflexivity |]. apply Hview. exact Hget.
  - simpl. split; reflexivity.
Qed.

Lemma pad_ndarray_returns_ndarray (a : ndarray F) ow oh (v : F) ro res :
  pad_width_or_height (PyNdarray a) ow oh v ro = Ok res ->
  exists a', pad_data res = PyNdarray a'.
Proof.
  unfold pad_width_or_height. intros H.
  apply bind_inv in H. destruct H as (locals & Hl & H).
  apply bind_inv in H. destruct H as ([[h w] wc] & Hloc & H).
  destruct (Z.of_nat w <? ow); destruct (Z.of_nat h <? oh);
    apply bind_inv in H; destruct H as (d & Hd & H);
    apply bind_inv in Hd; destruct Hd as (a' & _ & Hd);
    apply Ok_inj in Hd; subst d;
    destruct ro; apply Ok_inj in H; subst res; eexists; reflexivity.
Qed.

Lemma sim_ret {A B : Type} (R : store F -> A -> B -> Prop) st (x : A) (y : B) :
  R st x y -> sim R (Ok x) (ret_st y) st.
Proof. intros H. split; [apply unchanged_refl | exact H]. Qed.

Lemma sim_raise {A B : Type} (R : store F -> A -> B -> Prop) st (e : exn) :
  sim R (Raise e) (raise_st e) st.
Proof. split; [apply unchanged_refl | reflexivity]. Qed.

Lemma sim_lift {A : Type} st (c : result A) :
  sim (fun _ x y => x = y) c (lift c) st.
Proof. split; [apply unchanged_refl |]. simpl. destruct c; reflexivity. Qed.

Lemma sim_bind {A A' B B' : Type} (R : store F -> A -> A' -> Prop)
      (R' : store F -> B -> B' -> Prop) st (c : result A) (m : M F A')
      (k : A -> result B) (k' : A' -> M F B') :
  sim R c m st ->
  (forall st' x y, unchanged st st' -> R st' x y -> sim R' (k x) (k' y) st') ->
  sim R' (bind c k) (bind_st m k') st.
Proof.
  intros [Hun Hres] Hk. unfold sim, bind_st, bind.
  destruct (m st) as [st1 [e' | y]]; destruct c as [e | x]; simpl in *;
    try contradiction.
  - split; assumption.
  - destruct (Hk st1 x y Hun Hres) as [Hun' Hres'].
    destruct (k' y st1) as [st2 out]; simpl in *.
    split; [eapply unchanged_trans; eassumption | exact Hres'].
Qed.

(** Reading an object has no counterpart in the value model. *)
Lemma sim_read {A B : Type} (R : store F -> A -> B -> Prop) st r
      (v : ndarray F) (c : result A) (k : ndarray F -> M F B) :
  snd (read r st) = Ok v -> sim R c (k v) st -> sim R c (bind_st (read r) k) st.
Proof.
  intros H Hs. unfold sim, bind_st. rewrite (read_run _ _ _ H). exact Hs.
Qed.

Lemma sim_debug_dump st r (a : ndarray F) (debug : bool)
      (debug_root name : string) :
  snd (read r st) = Ok a ->
  sim (fun _ _ _ => True)
      (debug_dump imsave debug debug_root name (PyNdarray a))
      (debug_dump_st imsave debug debug_root name (Some r)) st.
Proof.
  intros H. split.
  - eapply keeps_unchanged. apply keeps_debug_dump_st.
  - rewrite (debug_dump_st_run _ _ _ _ _ _ H).
    destruct (debug_dump imsave debug debug_root name (PyNdarray a)); auto.
Qed.

Lemma sim_debug_dump_None st (debug : bool) (debug_root name : string) :
  sim (fun _ _ _ => True)
      (debug_dump imsave debug debug_root name PyNone)
      (debug_dump_st imsave debug debug_root name None) st.
Proof.
  split.
  - eapply keeps_unchanged. apply keeps_debug_dump_st.
  - unfold debug_dump_st, debug_dump, lift, ret_st. destruct debug; simpl; [| exact I].
    destruct (imsave _ _); auto.
Qed.

Lemma sim_copy_rescale st r (a : ndarray F) (scale : F)
      (channel_axis : option nat) :
  snd (read r st) = Ok a ->
  sim (fun st' b rb => snd (read rb st') = Ok b)
      (rescale (copy a) scale channel_axis)
      (bind_st (copy_st r)
               (fun c => rescale_st rescale rescale_scratch c scale channel_axis))
      st.
Proof.
  intros H. split.
  - eapply keeps_unchanged. eapply keeps_bind; [apply keeps_copy_st |].
    intros c Hc. apply keeps_rescale_st. exact Hc.
  - pose proof (copy_rescale_st_run st r a scale channel_axis H) as Hrun.
    simpl in Hrun.
    destruct (rescale (copy a) scale channel_axis) as [e | b].
    + rewrite Hrun. reflexivity.
    + destruct Hrun as (rb & E & Hrb). rewrite E. exact Hrb.
Qed.

Lemma sim_crop_img st r (b : ndarray F) crop_size (h_offset w_offset : Z) :
  snd (read r st) = Ok b ->
  sim same_image
      (crop_img (PyNdarray b) crop_size h_offset w_offset)
      (crop_img_st r crop_size h_offset w_offset) st.
Proof.
  intros H.
  destruct (crop_img_st_run st r b crop_size h_offset w_offset H) as [Hst Hres].
  split.
  - rewrite Hst. apply unchanged_refl.
  - rewrite Hst.
    destruct (crop_img (PyNdarray b) crop_size h_offset w_offset)
      as [e | [v | t | im | | ty]]; try contradiction.
    + rewrite Hres. reflexivity.
    + destruct Hres as (rv & E & Hrv). rewrite E. exact Hrv.
    + rewrite Hres. exact I.
Qed.

Lemma sim_pad st r (v : ndarray F) (output_width output_height : Z)
      (pad_value : F) :
  snd (read r st) = Ok v ->
  sim (fun st' (x : pyobj F * (Z * Z * Z * Z)) (y : aref * (Z * Z * Z * Z)) =>
         holds st' (fst y) (fst x) /\ snd x = snd y)
      (res <- pad_width_or_height (PyNdarray v) output_width output_height
                                  pad_value true ;;
       match res with
       | PadTuple img p_top p_bottom p_left p_right =>
           Ok (img, (p_top, p_bottom, p_left, p_right))
       | PadData _ => Raise (TypeError "cannot unpack non-iterable object")
       end)%py
      (pad_width_or_height_st r output_width output_height pad_value) st.
Proof.
  intros H. split.
  - eapply keeps_unchanged. apply keeps_pad_width_or_height_st.
  - unfold pad_width_or_height_st, bind_st. rewrite (read_run _ _ _ H).
    unfold lift. cbn -[pad_width_or_height].
    destruct (pad_width_or_height (PyNdarray v) output_width output_height
                                  pad_value true) as [e | res] eqn:Hpad;
      cbn -[pad_width_or_height].
    + reflexivity.
    + destruct (pad_ndarray_returns_ndarray _ _ _ _ _ _ Hpad) as [a' Ha'].
      destruct res as [d | d pt pb pl pr]; simpl in *.
      * reflexivity.
      * subst d. simpl. split; [| reflexivity].
        exists a'. split; [apply read_alloc | reflexivity].
Qed.

Lemma sim_ret_bind {A B C : Type} (R : store F -> A -> C -> Prop) st
      (c : result A) (x : B) (k : B -> M F C) :
  sim R c (k x) st -> sim R c (bind_st (ret_st x) k) st.
Proof. intros H. exact H. Qed.

(** Lines 125-163: the object the store model ends with holds the image the
    value model returns, with the same pad amounts. *)
Lemma sim_scale_crop_image st (img : aref) (a : ndarray F) crop_size
      (h_offset w_offset : Z) (scale_factor : F) (debug : bool)
      (debug_root : option string) :
  snd (read img st) = Ok a ->
  sim (fun st' (x : pyobj F * (Z * Z * Z * Z)) (y : aref * (Z * Z * Z * Z)) =>
         holds st' (fst y) (fst x) /\ snd x = snd y)
      (scale_crop_image rescale imsave (PyNdarray a) crop_size h_offset w_offset
                        scale_factor debug debug_root)
      (scale_crop_image_st rescale rescale_scratch imsave img crop_size h_offset
                           w_offset scale_factor debug debug_root) st.
Proof.
  intros H0. unfold scale_crop_image_st, scale_crop_image.
  cbv beta iota. rewrite bind_Ok.
  apply (sim_read _ _ _ _ _ _ H0). cbv beta.
  eapply sim_bind; [apply sim_lift |].
  intros st1 [ch cw] y Hun1 <-. cbv beta iota.
  assert (H1 : snd (read img st1) = Ok a) by (eapply read_stable; eassumption).
  eapply sim_bind; [apply sim_debug_dump; exact H1 |].
  intros st2 _ _ Hun2 _.
  assert (H2 : snd (read img st2) = Ok a) by (eapply read_stable; eassumption).
  eapply sim_bind with (R := fun st' b rb => snd (read rb st') = Ok b).
  { destruct (ndim a =? 3)%nat; [apply sim_copy_rescale; exact H2 |].
    destruct (ndim a =? 2)%nat; [apply sim_copy_rescale; exact H2 |].
    apply sim_raise. }
  intros st3 b rb Hun3 Hb3.
  eapply sim_bind; [apply sim_debug_dump; exact Hb3 |].
  intros st4 _ _ Hun4 _.
  assert (Hb4 : snd (read rb st4) = Ok b) by (eapply read_stable; eassumption).
  eapply sim_bind; [apply sim_crop_img; exact Hb4 |].
  intros st5 o ro Hun5 Hsame.
  destruct o as [v | t | im | | ty]; destruct ro as [rv |];
    simpl in Hsame; try contradiction.
  - (* an array came back *)
    eapply sim_bind; [apply sim_debug_dump; exact Hsame |].
    intros st6 _ _ Hun6 _.
    assert (Hv6 : snd (read rv st6) = Ok v) by (eapply read_stable; eassumption).
    apply sim_ret_bind. apply (sim_read _ _ _ _ _ _ Hv6). cbv beta.
    eapply sim_bind; [apply (sim_lift st6 (shape_at v 0)) |].
    intros st7 rows y Hun7 <-.
    eapply sim_bind;
      [apply (sim_lift st7 (if Z.of_nat rows <? ch then Ok true
                            else bind (shape_at v 1)
                                      (fun cols => Ok (Z.of_nat cols <? cw)))) |].
    intros st8 pad_needed y Hun8 <-.
    assert (Hv8 : snd (read rv st8) = Ok v).
    { eapply read_stable; [| exact Hv6].
      eapply unchanged_trans; eassumption. }
    eapply sim_bind with
      (R := fun st' (x : pyobj F * (Z * Z * Z * Z)) (y : aref * (Z * Z * Z * Z)) =>
              holds st' (fst y) (fst x) /\ snd x = snd y).
    { destruct pad_needed; [apply sim_pad; exact Hv8 |].
      apply sim_ret. split; [| reflexivity].
      exists v. split; [exact Hv8 | reflexivity]. }
    intros st9 [o' pads] [r' pads'] Hun9 [(v' & Hv' & Ho') Hpads].
    simpl in Hpads, Hv', Ho'. subst pads' o'. cbv beta iota.
    eapply sim_bind; [apply sim_debug_dump; exact Hv' |].
    intros st10 _ _ Hun10 _.
    apply sim_ret. simpl. split; [| reflexivity].
    exists v'. split; [| reflexivity]. eapply read_stable; eassumption.
  - (* [None] came back *)
    eapply sim_bind; [apply sim_debug_dump_None |].
    intros st6 _ _ Hun6 _.
    eapply sim_bind with (R := fun _ _ _ => False); [apply sim_raise |].
    intros st7 x y _ [].
Qed.

(** Objects made during the call sit behind the buffers of [st]. *)
Lemma nth_error_fresh st (l : store F) k :
  nth_error (st ++ l) (List.length st + k)%nat = nth_error l k.
Proof. rewrite nth_error_app2 by lia. f_equal. lia. Qed.

Lemma store_set_fresh st (l : store F) k (v : ndarray F) :
  store_set (st ++ l) (List.length st + k)%nat v = st ++ store_set l k v.
Proof.
  induction st as [| b st IH]; simpl; [reflexivity |].
  rewrite IH. reflexivity.
Qed.

Lemma read_fresh st (l : store F) k vw :
  read {| base := (List.length st + k)%nat; view := vw |} (st ++ l)
  = (st ++ l, match nth_error l k with
              | Some a => apply_view a vw
              | None => dangling
              end).
Proof.
  unfold read. simpl. rewrite nth_error_fresh.
  destruct (nth_error l k); reflexivity.
Qed.

Lemma read_old st (l : store F) r (k : ndarray F) :
  snd (read r st) = Ok k -> read r (st ++ l) = (st ++ l, Ok k).
Proof.
  intros H. apply read_run. eapply read_stable; [apply unchanged_app | exact H].
Qed.

Lemma write_item_fresh st (l : store F) k idx (v : F) :
  write_item {| base := (List.length st + k)%nat; view := [] |} idx v (st ++ l)
  = match nth_error l k with
    | Some a =>
        match (if index_ok idx (shape a) then setitem a idx v
               else Raise (IndexError "index is out of bounds")) with
        | inr a' => (st ++ store_set l k a', Ok tt)
        | inl e => (st ++ l, Raise e)
        end
    | None => (st ++ l, dangling)
    end.
Proof.
  unfold write_item. simpl. rewrite nth_error_fresh.
  destruct (nth_error l k) as [a |]; [| reflexivity].
  destruct (index_ok idx (shape a)); simpl.
  - destruct (setitem a idx v); [reflexivity |].
    rewrite store_set_fresh. reflexivity.
  - reflexivity.
Qed.

Ltac st_norm :=
  cbn -[dot read write_item];
  rewrite ?length_app, <- ?app_assoc;
  cbn -[dot read write_item].

Ltac st_step :=
  first [ rewrite read_fresh | rewrite write_item_fresh ]; st_norm.

Ltac split_dot :=
  match goal with
  | |- context [@dot _ _ ?A ?B] => destruct (dot A B) as [? | ?]
  end.

(** Lines 167-170: the three matrices are built in place and multiplied; the
    product is the one of the value model. *)
Lemma intrinsic_update_st_run st (K : aref) (k : ndarray F) (scale_factor : F)
      (h_offset w_offset p_top p_left : Z) :
  snd (read K st) = Ok k ->
  let res := intrinsic_update_st K scale_factor h_offset w_offset p_top p_left
                                 (st ++ []) in
  match intrinsic_update k scale_factor h_offset w_offset p_top p_left with
  | inl e => snd res = inl e
  | inr K_aug => exists rk, snd res = inr rk /\ snd (read rk (fst res)) = Ok K_aug
  end.
Proof.
  intros HK res. unfold res. clear res.
  unfold intrinsic_update_st, intrinsic_update, copy_st, dot_st, bind_st.
  st_norm. repeat st_step.
  rewrite (read_old _ _ _ _ HK). st_norm. repeat st_step. unfold lift.
  split_dot; [reflexivity |]. st_norm. repeat st_step.
  split_dot; [reflexivity |]. st_norm. repeat st_step.
  split_dot; [reflexivity |]. st_norm. repeat st_step.
  eexists. split; [reflexivity |]. rewrite read_fresh. reflexivity.
Qed.

Lemma sim_intrinsic_update st (K : aref) (k : ndarray F) (scale_factor : F)
      (h_offset w_offset p_top p_left : Z) :
  snd (read K st) = Ok k ->
  sim (fun st' K_aug rk => snd (read rk st') = Ok K_aug)
      (intrinsic_update k scale_factor h_offset w_offset p_top p_left)
      (intrinsic_update_st K scale_factor h_offset w_offset p_top p_left) st.
Proof.
  intros HK. split.
  - eapply keeps_unchanged. apply keeps_intrinsic_update_st.
  - pose proof (intrinsic_update_st_run st K k scale_factor h_offset w_offset
                                        p_top p_left HK) as Hrun.
    cbv zeta in Hrun. rewrite app_nil_r in Hrun.
    destruct (intrinsic_update k scale_factor h_offset w_offset p_top p_left)
      as [e | K_aug].
    + rewrite Hrun. reflexivity.
    + destruct Hrun as (rk & E & Hrk). rewrite E. exact Hrk.
Qed.

(** Run on objects that hold [a] and [K], [scale_crop] raises what the value
    model raises, or returns objects that hold what the value model returns;
    and the buffers that existed before the call are as they were. *)
Theorem scale_crop_st_refines st (img : aref) (a : ndarray F)
        (K : option aref) (K_value : option (ndarray F)) crop_size
        (h_offset w_offset : Z) (scale_factor : F) (debug : bool)
        (debug_root : option string) :
  snd (read img st) = Ok a ->
  match K, K_value with
  | Some rk, Some k => snd (read rk st) = Ok k
  | None, None => True
  | _, _ => False
  end ->
  sim same_result
      (scale_crop rescale imsave (PyNdarray a) crop_size h_offset w_offset
                  scale_factor K_value debug debug_root)
      (scale_crop_st rescale rescale_scratch imsave img crop_size h_offset
                     w_offset scale_factor K debug debug_root) st.
Proof.
  intros Himg HK. unfold scale_crop, scale_crop_st.
  eapply sim_bind; [apply sim_scale_crop_image; exact Himg |].
  intros st1 [o [[[pt pb] pl] pr]] [r pads] Hun1 [Hholds Hpads].
  simpl in Hholds, Hpads. subst pads. cbv beta iota.
  destruct K as [rk |]; destruct K_value as [k |]; try contradiction.
  - eapply sim_bind;
      [apply sim_intrinsic_update; eapply read_stable; eassumption |].
    intros st2 K_aug rka Hun2 Hka. apply sim_ret. split; [| exact Hka].
    destruct Hholds as (v & Hv & ->). exists v.
    split; [eapply read_stable; eassumption | reflexivity].
  - apply sim_ret. split; [exact Hholds | exact I].
Qed.

End StoreRefinement.

(** ** Worked examples *)

Lemma rescale_nearest_keeps_rank : rescale_keeps_rank rescale_nearest.
Proof.
  intros a scale channel_axis b. unfold rescale_nearest.
  destruct (existsb (Nat.eqb 0) (shape a)); [discriminate |].
  intros H. apply Ok_inj in H. subst b. unfold ndim. simpl.
  rewrite length_map, length_combine, length_seq. unfold ndim. lia.
Qed.

(** Section 8, "End-to-end", at a smaller size: a window inside the image is
    returned as it is. *)
Example scale_crop_inside_example :
  match scale_crop rescale_nearest imsave_quiet (PyNdarray img_grey)
                   (CropScalar 2) 1 1 1%Q None false None with
  | inr (ScImage (PyNdarray out)) => Some (shape out, tolist2 out)
  | _ => None
  end
  = Some ([2; 2]%nat, [[6; 7]; [10; 11]]%Q).
Proof. vm_compute. reflexivity. Qed.

(** Section 8, "Under-sized end-to-end", at a smaller size: the content is
    centred and the border is zero. *)
Example scale_crop_undersized_example :
  match scale_crop rescale_nearest imsave_quiet (PyNdarray img_grey)
                   (CropScalar 6) 0 0 1%Q None false None with
  | inr (ScImage (PyNdarray out)) => Some (shape out, tolist2 out)
  | _ => None
  end
  = Some ([6; 6]%nat,
          [[0; 0; 0; 0; 0; 0];
           [0; 1; 2; 3; 4; 0];
           [0; 5; 6; 7; 8; 0];
           [0; 9; 10; 11; 12; 0];
           [0; 13; 14; 15; 16; 0];
           [0; 0; 0; 0; 0; 0]]%Q).
Proof. vm_compute. reflexivity. Qed.

Lemma scale_crop_output_size_witness :
  exists r out rest,
    scale_crop rescale_nearest imsave_quiet (PyNdarray img_rgb)
               (CropTuple [5; 2]) 1 2 1%Q (Some K_example) false None = Ok r /\
    sc_image r = PyNdarray out /\
    shape out = 5%nat :: 2%nat :: rest.
Proof.
  destruct (scale_crop_output_size rescale_nearest imsave_quiet img_rgb
              (CropTuple [5; 2]) 5 2 1 2 1%Q (Some K_example) None
              rescale_nearest_keeps_rank (or_intror eq_refl) eq_refl
              ltac:(lia) ltac:(lia)) as [Hshape Hret].
  destruct (Hret _ eq_refl eq_refl) as [r Hr].
  destruct (Hshape false r Hr) as (out & rest & H1 & H2 & _).
  exists r, out, rest. repeat split; assumption.
Defined.

Lemma scale_crop_intrinsic_composition_witness :
  exists img' K_aug,
    scale_crop rescale_nearest imsave_quiet (PyNdarray img_flat)
               (CropScalar 64) 10 20 (1 # 2)%Q (Some K_example) false None
    = Ok (ScImageK img' K_aug) /\
    (item K_aug [0; 0]%nat == 250)%Q /\
    (item K_aug [1; 1]%nat == 250)%Q /\
    (item K_aug [0; 2]%nat == 140)%Q /\
    (item K_aug [1; 2]%nat == 110)%Q.
Proof.
  destruct scale_crop_intrinsic_composition as [_ Hscenario].
  edestruct (Hscenario rescale_nearest imsave_quiet (PyNdarray img_flat)
                       (CropScalar 64) false None) as (K_aug & Hrun & Hentries).
  - vm_compute. reflexivity.
  - eexists. exists K_aug. split; [exact Hrun | exact Hentries].
Defined.

Lemma scale_crop_rejects_witness :
  raises (scale_crop rescale_nearest imsave_quiet (PyOther "list")
                     (CropScalar 2) 0 0 1%Q None false None)
         UnsupportedTypeError /\
  raises (scale_crop rescale_nearest imsave_quiet
                     (PyNdarray (np_full [5]%nat 1%Q))
                     (CropScalar 2) 0 0 1%Q None false None)
         InvalidDimensionError.
Proof.
  split.
  - apply (scale_crop_rejects rescale_nearest imsave_quiet (PyOther "list")
             (CropScalar 2) 0 0 1%Q None false None).
    reflexivity.
  - apply (proj2 (scale_crop_rejects rescale_nearest imsave_quiet
                    (PyNdarray (np_full [5]%nat 1%Q))
                    (CropScalar 2) 0 0 1%Q None false None)
                 (np_full [5]%nat 1%Q) 2 2 eq_refl).
    + intros H. vm_compute in H. discriminate H.
    + intros H. vm_compute in H. discriminate H.
    + reflexivity.
    + discriminate.
Defined.

Lemma get_random_crop_offsets_range_witness :
  exists d,
    get_random_crop_offsets (CropTuple [2; 3]) 6 7 = Ok d /\
    List.length d = 9%nat /\
    (forall h_offset w_offset,
        In (h_offset, w_offset) d ->
        h_offset + 2 <= 6 /\ w_offset + 3 <= 7).
Proof.
  destruct (get_random_crop_offsets_range (CropTuple [2; 3]) 2 3 6 7 eq_refl
              ltac:(lia) ltac:(lia))
    as (d & Hrun & _ & _ & Hlen & _ & _ & Hfit).
  exists d. split; [exact Hrun |]. split; [exact Hlen |].
  intros h w Hin. destruct (Hfit h w Hin) as (Hh & Hw & _).
  split; [apply Hh | apply Hw]; lia.
Defined.


Lemma pad_width_or_height_idempotent_witness :
  exists once p_top p_bottom p_left p_right twice,
    pad_width_or_height (PyNdarray img_grey) 7 5 0%Q true
    = Ok (PadTuple once p_top p_bottom p_left p_right) /\
    pad_width_or_height once 7 5 0%Q true = Ok (PadTuple twice 0 0 0 0) /\
    obj_equal twice once.
Proof.
  exact (proj2 (pad_width_or_height_idempotent (PyNdarray img_grey) 7 5 0%Q
                  (or_introl eq_refl))).
Defined.

Lemma pad_then_crop_roundtrip_witness :
  exists padded p_top p_bottom p_left p_right cropped,
    pad_width_or_height (PyNdarray img_rgb) 9 8 0%Q true
    = Ok (PadTuple padded p_top p_bottom p_left p_right) /\
    crop_img padded (CropTuple [4; 6]) p_top p_left = Ok (PyNdarray cropped) /\
    array_equal cropped img_rgb.
Proof.
  exact (pad_then_crop_roundtrip img_rgb 4 6 [3%nat] 9 8 0%Q
           (or_intror eq_refl) eq_refl).
Defined.

(* ===================================================================== *)
(** * Further properties of the code *)
(* ===================================================================== *)

(** ** [get_subset_views] *)

Lemma list_set_length {A : Type} (x : list A) (i : nat) (v : A) :
  List.length (list_set x i v) = List.length x.
Proof.
  revert i. induction x as [| a x IH]; intros [| i]; simpl; auto.
Qed.

Lemma list_set_perm {A : Type} (x : list A) (j : nat) (a b : A) :
  nth_error x j = Some b -> Permutation (b :: list_set x j a) (a :: x).
Proof.
  revert j. induction x as [| c x IH]; intros [| j]; simpl; intros H;
    try discriminate.
  - injection H as ->. apply perm_swap.
  - eapply perm_trans; [apply perm_swap |].
    eapply perm_trans; [apply perm_skip, (IH j H) |].
    apply perm_swap.
Qed.

Lemma swap_items_perm {A : Type} (x : list A) (i j : nat) :
  Permutation (swap_items x i j) x.
Proof.
  unfold swap_items.
  destruct (nth_error x i) as [xi |] eqn:Hi; [| apply Permutation_refl].
  destruct (nth_error x j) as [xj |] eqn:Hj; [| apply Permutation_refl].
  revert i j Hi Hj. induction x as [| a x IH]; intros [| i] [| j] Hi Hj;
    simpl in *; try discriminate.
  - injection Hi as ->. injection Hj as ->. apply Permutation_refl.
  - injection Hi as ->. apply list_set_perm. exact Hj.
  - injection Hj as ->. apply list_set_perm. exact Hi.
  - apply perm_skip. apply IH; assumption.
Qed.

Lemma shuffle_loop_perm {A : Type} (i : nat) (x : list A) (g : rng) :
  Permutation (fst (shuffle_loop i x g)) x.
Proof.
  revert x g. induction i as [| i IH]; intros x g; simpl.
  - apply Permutation_refl.
  - eapply perm_trans; [apply IH | apply swap_items_perm].
Qed.

Lemma random_shuffle_perm {A : Type} (x : list A) (g : rng) :
  Permutation (fst (random_shuffle x g)) x.
Proof. apply shuffle_loop_perm. Qed.

Lemma np_arange_In (n v : Z) : In v (np_arange n) <-> 0 <= v < n.
Proof.
  unfold np_arange. rewrite in_map_iff. split.
  - intros (k & <- & Hk). apply in_seq in Hk. lia.
  - intros Hv. exists (Z.to_nat v). split; [lia |]. apply in_seq. lia.
Qed.

Lemma np_arange_NoDup (n : Z) : NoDup (np_arange n).
Proof.
  unfold np_arange. apply NoDup_map_NoDup_ForallPairs; [| apply seq_NoDup].
  intros i j _ _ H. lia.
Qed.

Lemma np_arange_length (n : Z) : List.length (np_arange n) = Z.to_nat n.
Proof. unfold np_arange. rewrite length_map, length_seq. reflexivity. Qed.

Lemma NoDup_firstn {A : Type} (k : nat) (l : list A) :
  NoDup l -> NoDup (firstn k l).
Proof.
  intros H. rewrite <- (firstn_skipn k l) in H.
  apply NoDup_app_remove_r in H. exact H.
Qed.

Lemma In_firstn {A : Type} (k : nat) (l : list A) (x : A) :
  In x (firstn k l) -> In x l.
Proof.
  intros H. rewrite <- (firstn_skipn k l). apply in_or_app. left. exact H.
Qed.

(** Rounding to nearest stays between the integers that bound its argument. *)
Lemma round_half_even_bounds (q : Q) (lo hi : Z) :
  (inject_Z lo <= q)%Q -> (q <= inject_Z hi)%Q ->
  lo <= round_half_even q <= hi.
Proof.
  intros Hlo Hhi. unfold round_half_even.
  pose proof (Qfloor_le q) as Hf1. pose proof (Qlt_floor q) as Hf2.
  assert (Hlo' : lo <= Qfloor q).
  { rewrite <- (Qfloor_Z lo). apply Qfloor_resp_le. exact Hlo. }
  assert (Hhi' : Qfloor q <= hi).
  { rewrite <- (Qfloor_Z hi). apply Qfloor_resp_le. exact Hhi. }
  assert (Hup : (inject_Z (Qfloor q) < q)%Q -> Qfloor q + 1 <= hi).
  { intros Hlt.
    assert (Qfloor q < hi); [| lia].
    rewrite Zlt_Qlt. eapply Qlt_le_trans; eassumption. }
  assert (Hfrac : (0 < q - inject_Z (Qfloor q))%Q -> (inject_Z (Qfloor q) < q)%Q).
  { intros H. apply Qlt_minus_iff. exact H. }
  destruct (Qcompare (q - inject_Z (Qfloor q)) (1 # 2)) eqn:E.
  - apply Qeq_alt in E.
    assert (H0 : (0 < q - inject_Z (Qfloor q))%Q) by (rewrite E; reflexivity).
    destruct (Z.even (Qfloor q)); [lia |]. specialize (Hup (Hfrac H0)). lia.
  - lia.
  - apply Qgt_alt in E.
    assert (H0 : (0 < q - inject_Z (Qfloor q))%Q).
    { eapply Qlt_trans; [| exact E]. reflexivity. }
    specialize (Hup (Hfrac H0)). lia.
Qed.

Lemma np_random_random_range (g : rng) :
  (0 <= fst (np_random_random g) < 1)%Q.
Proof.
  unfold np_random_random. simpl.
  pose proof (Z.mod_pos_bound (np_tape g (np_pos g)) (2 ^ 53) ltac:(lia)) as H.
  unfold Qle, Qlt. simpl. lia.
Qed.

(** ** binary64 rounding *)

Lemma Qpow2_pos (e : Z) : (0 < 2 ^ e)%Q.
Proof. apply Qpower_0_lt. reflexivity. Qed.

Lemma Qpow2_plus (a b : Z) : (2 ^ (a + b) == 2 ^ a * 2 ^ b)%Q.
Proof. apply Qpower_plus. discriminate. Qed.

Lemma Qpow2_le (a b : Z) : a <= b -> (2 ^ a <= 2 ^ b)%Q.
Proof. intros H. apply Qpower_le_compat_l; [exact H | discriminate]. Qed.

Lemma Qpow2_lt_inv (a b : Z) : (2 ^ a < 2 ^ b)%Q -> a < b.
Proof. intros H. apply (Qpower_lt_compat_l_inv 2); [exact H | reflexivity]. Qed.

Lemma Qpow2_inject (k : Z) : 0 <= k -> (inject_Z (2 ^ k) == 2 ^ k)%Q.
Proof. intros H. apply (Zpower_Qpower 2 k H). Qed.

(** [Qlog2 q] is the exponent of the binade of [q]. *)
Lemma Qlog2_spec (q : Q) :
  (0 < q)%Q -> (2 ^ Qlog2 q <= q)%Q /\ (q < 2 ^ (Qlog2 q + 1))%Q.
Proof.
  intros Hq. unfold Qlog2.
  destruct q as [a b]. cbn [Qnum Qden].
  assert (Ha : 0 < a) by (unfold Qlt in Hq; simpl in Hq; lia).
  set (la := Z.log2 a). set (lb := Z.log2 (Zpos b)).
  destruct (Z.log2_spec a Ha) as [Ha1 Ha2]. fold la in Ha1, Ha2.
  destruct (Z.log2_spec (Zpos b) ltac:(lia)) as [Hb1 Hb2]. fold lb in Hb1, Hb2.
  pose proof (Z.log2_nonneg a) as Hla. fold la in Hla.
  pose proof (Z.log2_nonneg (Zpos b)) as Hlb. fold lb in Hlb.
  assert (Eq : (a # b == inject_Z a / inject_Z (Zpos b))%Q) by apply Qmake_Qdiv.
  assert (Hbpos : (0 < inject_Z (Zpos b))%Q) by reflexivity.
  assert (Hlow : (2 ^ (la - lb - 1) <= a # b)%Q).
  { rewrite Eq. apply Qle_shift_div_l; [exact Hbpos |].
    apply Qle_trans with (2 ^ (la - lb - 1) * 2 ^ (lb + 1))%Q.
    - apply Qmult_le_l; [apply Qpow2_pos |].
      rewrite <- Qpow2_inject by lia. rewrite <- Zle_Qle. lia.
    - rewrite <- Qpow2_plus. replace (la - lb - 1 + (lb + 1)) with la by lia.
      rewrite <- Qpow2_inject by lia. rewrite <- Zle_Qle. exact Ha1. }
  assert (Hup : (a # b < 2 ^ (la - lb + 1))%Q).
  { rewrite Eq. apply Qlt_shift_div_r; [exact Hbpos |].
    apply Qlt_le_trans with (2 ^ (la - lb + 1) * 2 ^ lb)%Q.
    - rewrite <- Qpow2_plus. replace (la - lb + 1 + lb) with (la + 1) by lia.
      rewrite <- Qpow2_inject by lia. rewrite <- Zlt_Qlt. replace (la + 1) with (Z.succ la) by lia. exact Ha2.
    - apply Qmult_le_l; [apply Qpow2_pos |].
      rewrite <- Qpow2_inject by lia. rewrite <- Zle_Qle. exact Hb1. }
  destruct (Qle_bool (2 ^ (la - lb)) (a # b)) eqn:E.
  - apply Qle_bool_iff in E. split; [exact E | exact Hup].
  - split; [exact Hlow |].
    replace (la - lb - 1 + 1) with (la - lb) by lia.
    apply Qnot_le_lt. intros H. apply Qle_bool_iff in H. congruence.
Qed.

Lemma b64_nearest_pos (q : Q) :
  (0 < q)%Q ->
  b64_nearest q
  = (inject_Z (round_half_even (q / 2 ^ b64_quantum q)) * 2 ^ b64_quantum q)%Q.
Proof.
  intros Hq. unfold b64_nearest.
  apply Qgt_alt in Hq. rewrite Hq. reflexivity.
Qed.

Lemma b64_nearest_zero (q : Q) : (q == 0)%Q -> b64_nearest q = 0%Q.
Proof. intros Hq. unfold b64_nearest. apply Qeq_alt in Hq. rewrite Hq. reflexivity. Qed.

(** Rounding never crosses a multiple of the spacing. *)
Lemma b64_nearest_ge_multiple (q : Q) (m : Z) :
  (0 < q)%Q -> (inject_Z m * 2 ^ b64_quantum q <= q)%Q ->
  (inject_Z m * 2 ^ b64_quantum q <= b64_nearest q)%Q.
Proof.
  intros Hq Hm. rewrite (b64_nearest_pos q Hq).
  apply Qmult_le_compat_r; [| apply Qlt_le_weak, Qpow2_pos].
  rewrite <- Zle_Qle.
  apply (round_half_even_bounds (q / 2 ^ b64_quantum q) m
           (Qceiling (q / 2 ^ b64_quantum q))).
  - apply Qle_shift_div_l; [apply Qpow2_pos | exact Hm].
  - apply Qle_ceiling.
Qed.

Lemma b64_nearest_le_multiple (q : Q) (m : Z) :
  (0 < q)%Q -> (q <= inject_Z m * 2 ^ b64_quantum q)%Q ->
  (b64_nearest q <= inject_Z m * 2 ^ b64_quantum q)%Q.
Proof.
  intros Hq Hm. rewrite (b64_nearest_pos q Hq).
  apply Qmult_le_compat_r; [| apply Qlt_le_weak, Qpow2_pos].
  rewrite <- Zle_Qle.
  apply (round_half_even_bounds (q / 2 ^ b64_quantum q)
           (Qfloor (q / 2 ^ b64_quantum q)) m).
  - apply Qfloor_le.
  - apply Qle_shift_div_r; [apply Qpow2_pos | exact Hm].
Qed.

Lemma b64_nearest_nonneg (q : Q) : (0 <= q)%Q -> (0 <= b64_nearest q)%Q.
Proof.
  intros Hq. destruct (Qlt_le_dec 0 q) as [Hpos | Hle].
  - pose proof (b64_nearest_ge_multiple q 0 Hpos) as H.
    rewrite Qmult_0_l in H. apply H. exact Hq.
  - rewrite b64_nearest_zero; [apply Qle_refl | apply Qle_antisym; assumption].
Qed.

(** A power of two bounds the rounded value as it bounds the exact one. *)
Lemma b64_nearest_le_pow2 (q : Q) (k : Z) :
  - 1074 <= k -> (0 <= q)%Q -> (q <= 2 ^ k)%Q -> (b64_nearest q <= 2 ^ k)%Q.
Proof.
  intros Hk Hq Hle. destruct (Qlt_le_dec 0 q) as [Hpos | Hle0].
  - destruct (Qlog2_spec q Hpos) as [Hlo _].
    assert (He : Qlog2 q <= k).
    { assert (Qlog2 q < k + 1); [| lia].
      apply Qpow2_lt_inv. eapply Qle_lt_trans; [exact Hlo |].
      eapply Qle_lt_trans; [exact Hle |].
      apply Qpower_lt_compat_l; [lia | reflexivity]. }
    assert (Hc : b64_quantum q <= k) by (unfold b64_quantum; lia).
    assert (E : (2 ^ k == inject_Z (2 ^ (k - b64_quantum q)) * 2 ^ b64_quantum q)%Q).
    { rewrite Qpow2_inject by lia. rewrite <- Qpow2_plus.
      replace (k - b64_quantum q + b64_quantum q) with k by lia. reflexivity. }
    rewrite E. apply b64_nearest_le_multiple; [exact Hpos |].
    rewrite <- E. exact Hle.
  - rewrite b64_nearest_zero; [| apply Qle_antisym; assumption].
    apply Qlt_le_weak, Qpow2_pos.
Qed.

(** An integer of at most 53 bits bounds the rounded value from below as it
    bounds the exact one: every such integer is a binary64 value. *)
Lemma b64_nearest_ge_int (q : Q) (n : Z) :
  0 <= n <= 2 ^ 53 -> (inject_Z n <= q)%Q -> (inject_Z n <= b64_nearest q)%Q.
Proof.
  intros Hn Hle.
  destruct (Z.eq_dec n 0) as [-> | Hn0].
  { apply b64_nearest_nonneg. exact Hle. }
  assert (Hpos : (0 < q)%Q).
  { eapply Qlt_le_trans; [| exact Hle].
    change 0%Q with (inject_Z 0). rewrite <- Zlt_Qlt. lia. }
  destruct (Qlog2_spec q Hpos) as [Hlo Hhi].
  assert (He : 0 <= Qlog2 q).
  { assert (0 < Qlog2 q + 1); [| lia].
    apply Qpow2_lt_inv. eapply Qle_lt_trans; [| exact Hhi].
    eapply Qle_trans; [| exact Hle].
    change (2 ^ 0)%Q with (inject_Z 1). rewrite <- Zle_Qle. lia. }
  assert (Hc : b64_quantum q = Qlog2 q - 52) by (unfold b64_quantum; lia).
  destruct (Z_le_gt_dec (b64_quantum q) 0) as [Hc0 | Hc0].
  - assert (E : (inject_Z n
                 == inject_Z (n * 2 ^ (- b64_quantum q)) * 2 ^ b64_quantum q)%Q).
    { rewrite inject_Z_mult, Qpow2_inject by lia.
      rewrite <- Qmult_assoc, <- Qpow2_plus.
      replace (- b64_quantum q + b64_quantum q) with 0 by lia.
      change (2 ^ 0)%Q with 1%Q. rewrite Qmult_1_r. reflexivity. }
    rewrite E. apply b64_nearest_ge_multiple; [exact Hpos |].
    rewrite <- E. exact Hle.
  - apply Qle_trans with (2 ^ Qlog2 q)%Q.
    + apply Qle_trans with (2 ^ 53)%Q.
      * rewrite <- Qpow2_inject by lia. rewrite <- Zle_Qle. lia.
      * apply Qpow2_le. lia.
    + assert (E : (2 ^ Qlog2 q == inject_Z (2 ^ 52) * 2 ^ b64_quantum q)%Q).
      { rewrite Qpow2_inject by lia. rewrite <- Qpow2_plus.
        replace (52 + b64_quantum q) with (Qlog2 q) by lia. reflexivity. }
      rewrite E. apply b64_nearest_ge_multiple; [exact Hpos |].
      rewrite <- E. exact Hlo.
Qed.

(** Below [2^1024] nothing overflows. *)
Lemma b64_round_finite (q : Q) (k : Z) :
  - 1074 <= k < 1024 -> (0 <= q)%Q -> (q <= 2 ^ k)%Q ->
  b64_round q = Some (b64_nearest q).
Proof.
  intros Hk Hq Hle. unfold b64_round.
  pose proof (b64_nearest_nonneg q Hq) as H0.
  pose proof (b64_nearest_le_pow2 q k ltac:(lia) Hq Hle) as H1.
  destruct (Qle_bool (2 ^ 1024) (Qabs (b64_nearest q))) eqn:E; [| reflexivity].
  exfalso. apply Qle_bool_iff in E. rewrite Qabs_pos in E by exact H0.
  assert (Hlt : (2 ^ k < 2 ^ 1024)%Q)
    by (apply Qpower_lt_compat_l; [lia | reflexivity]).
  apply (Qlt_irrefl (2 ^ 1024)).
  eapply Qle_lt_trans; [exact E |]. eapply Qle_lt_trans; [exact H1 | exact Hlt].
Qed.

(** Line 28 returns at least [minimum_views]: the roundings of binary64
    cannot take the sum below the integer it starts from. *)
Lemma number_selected_bounds (number_views minimum_views : Z) (u : Q) :
  0 <= minimum_views -> minimum_views < number_views -> number_views <= 2 ^ 53 ->
  (0 <= u)%Q -> (u < 1)%Q ->
  exists count,
    number_selected number_views minimum_views u = Ok count /\
    minimum_views <= count.
Proof.
  intros Hmin Hlt Hmax Hu0 Hu1. unfold number_selected, py_float, b64_mul, b64_add.
  assert (H53 : (inject_Z (2 ^ 53) == 2 ^ 53)%Q) by (apply Qpow2_inject; lia).
  (* the difference *)
  assert (Hd0 : (0 <= inject_Z (number_views - minimum_views))%Q).
  { change 0%Q with (inject_Z 0). rewrite <- Zle_Qle. lia. }
  assert (Hd1 : (inject_Z (number_views - minimum_views) <= 2 ^ 53)%Q).
  { rewrite <- H53. rewrite <- Zle_Qle. lia. }
  rewrite (b64_round_finite _ 53 ltac:(lia) Hd0 Hd1). cbn [bind Ok]. cbv zeta.
  set (d := b64_nearest (inject_Z (number_views - minimum_views))).
  assert (Hdn : (0 <= d)%Q) by (apply b64_nearest_nonneg; exact Hd0).
  assert (Hdm : (d <= 2 ^ 53)%Q) by (apply b64_nearest_le_pow2; [lia | assumption ..]).
  (* the product *)
  assert (Hp0 : (0 <= d * u)%Q) by (apply Qmult_le_0_compat; assumption).
  assert (Hp1 : (d * u <= 2 ^ 53)%Q).
  { apply Qle_trans with (d * 1)%Q.
    - apply Qmult_le_compat_nonneg; split;
        [exact Hdn | apply Qle_refl | exact Hu0 | apply Qlt_le_weak; exact Hu1].
    - rewrite Qmult_1_r. exact Hdm. }
  rewrite (b64_round_finite _ 53 ltac:(lia) Hp0 Hp1).
  set (p := b64_nearest (d * u)).
  assert (Hpn : (0 <= p)%Q) by (apply b64_nearest_nonneg; exact Hp0).
  assert (Hpm : (p <= 2 ^ 53)%Q) by (apply b64_nearest_le_pow2; [lia | assumption ..]).
  (* the conversion of [minimum_views] *)
  assert (Hm0 : (0 <= inject_Z minimum_views)%Q).
  { change 0%Q with (inject_Z 0). rewrite <- Zle_Qle. lia. }
  assert (Hm1 : (inject_Z minimum_views <= 2 ^ 53)%Q).
  { rewrite <- H53. rewrite <- Zle_Qle. lia. }
  rewrite (b64_round_finite _ 53 ltac:(lia) Hm0 Hm1). cbn [bind Ok].
  set (m := b64_nearest (inject_Z minimum_views)).
  assert (Hmn : (inject_Z minimum_views <= m)%Q).
  { apply b64_nearest_ge_int; [lia | apply Qle_refl]. }
  assert (Hmm : (m <= 2 ^ 53)%Q) by (apply b64_nearest_le_pow2; [lia | assumption ..]).
  (* the sum *)
  assert (Hs0 : (0 <= m + p)%Q).
  { apply Qle_trans with (inject_Z minimum_views + 0)%Q.
    - rewrite Qplus_0_r. exact Hm0.
    - apply Qplus_le_compat; assumption. }
  assert (Hs1 : (m + p <= 2 ^ 54)%Q).
  { apply Qle_trans with (2 ^ 53 + 2 ^ 53)%Q.
    - apply Qplus_le_compat; assumption.
    - rewrite <- !H53, <- inject_Z_plus, <- (Qpow2_inject 54) by lia.
      rewrite <- Zle_Qle. vm_compute. discriminate. }
  rewrite (b64_round_finite _ 54 ltac:(lia) Hs0 Hs1).
  eexists. split; [reflexivity |].
  apply (round_half_even_bounds (b64_nearest (m + p)) minimum_views
           (Qceiling (b64_nearest (m + p)))).
  - apply b64_nearest_ge_int; [lia |].
    apply Qle_trans with (m + 0)%Q.
    + rewrite Qplus_0_r. exact Hmn.
    + apply Qplus_le_compat; [apply Qle_refl | exact Hpn].
  - apply Qle_ceiling.
Qed.

(** *** What the shuffle can do *)

Lemma list_set_same {A : Type} (x : list A) (i : nat) (v : A) :
  nth_error x i = Some v -> list_set x i v = x.
Proof.
  revert i. induction x as [| a x IH]; intros [| i]; simpl; intros H;
    try discriminate.
  - injection H as ->. reflexivity.
  - rewrite (IH i H). reflexivity.
Qed.

Lemma swap_items_same {A : Type} (x : list A) (i : nat) : swap_items x i i = x.
Proof.
  unfold swap_items. destruct (nth_error x i) as [v |] eqn:E; [| reflexivity].
  rewrite (list_set_same x i v E). apply list_set_same. exact E.
Qed.

Lemma swap_items_length {A : Type} (x : list A) (i j : nat) :
  List.length (swap_items x i j) = List.length x.
Proof.
  unfold swap_items. destruct (nth_error x i); [| reflexivity].
  destruct (nth_error x j); [| reflexivity].
  rewrite !list_set_length. reflexivity.
Qed.

Lemma swap_items_head {A : Type} (x : list A) (i : nat) (v d : A) :
  nth_error x i = Some v -> hd d (swap_items x i 0) = v.
Proof.
  intros H. unfold swap_items. rewrite H.
  destruct x as [| a x]; [destruct i; discriminate |]. simpl.
  destruct i; reflexivity.
Qed.

(** A generator that draws [i] at step [i] of the loop, except at step
    [v], where it draws [0]. *)
Definition picks (v : nat) (i : nat) (g : rng) : Prop :=
  forall k, (k < i)%nat ->
            py_tape g (py_pos g + k)
            = if (i - k =? v)%nat then 0 else Z.of_nat (i - k).

Lemma picks_step (v i : nat) (g : rng) :
  picks v (S i) g ->
  fst (randbelow (S (S i)) g) = (if (S i =? v)%nat then 0 else S i)%nat /\
  picks v i (snd (randbelow (S (S i)) g)).
Proof.
  intros H. unfold randbelow. cbn [fst snd py_tape py_pos]. split.
  - rewrite <- (Nat.add_0_r (py_pos g)). rewrite (H 0%nat ltac:(lia)).
    rewrite Nat.sub_0_r.
    destruct (S i =? v)%nat; [reflexivity |].
    rewrite Z.mod_small by lia. lia.
  - intros k Hk. cbn [py_tape py_pos].
    replace (S (py_pos g) + k)%nat with (py_pos g + S k)%nat by lia.
    rewrite (H (S k) ltac:(lia)). reflexivity.
Qed.

Lemma shuffle_loop_picks {A : Type} (v i : nat) (x : list A) (g : rng) :
  picks v i g ->
  fst (shuffle_loop i x g)
  = if ((1 <=? v) && (v <=? i))%nat then swap_items x v 0 else x.
Proof.
  revert x g. induction i as [| i IH]; intros x g H.
  - simpl. destruct v as [| v]; reflexivity.
  - cbn [shuffle_loop].
    destruct (picks_step v i g H) as [Hj Hg].
    destruct (randbelow (S (S i)) g) as [j g']. cbn [fst snd] in Hj, Hg.
    rewrite (IH _ g' Hg). subst j.
    destruct (Nat.eqb_spec (S i) v) as [<- | Hne].
    + assert (E : ((1 <=? S i) && (S i <=? i))%nat = false).
      { apply andb_false_intro2. apply Nat.leb_gt. lia. }
      rewrite E.
      assert (E' : ((1 <=? S i) && (S i <=? S i))%nat = true).
      { apply andb_true_intro. split; apply Nat.leb_le; lia. }
      rewrite E'. reflexivity.
    + rewrite swap_items_same.
      assert (E : (v <=? S i)%nat = (v <=? i)%nat).
      { destruct (Nat.leb_spec v i), (Nat.leb_spec v (S i)); try reflexivity; lia. }
      rewrite E. reflexivity.
Qed.

(** Every index can be shuffled to the front. *)
Lemma random_shuffle_front (n v : nat) :
  (v < n)%nat ->
  exists py : nat -> Z,
    forall np_t np_p,
      hd 0 (fst (random_shuffle (np_arange (Z.of_nat n))
                   {| py_tape := py; py_pos := 0;
                      np_tape := np_t; np_pos := np_p |}))
      = Z.of_nat v.
Proof.
  intros Hv.
  exists (fun t => if (n - 1 - t =? v)%nat then 0 else Z.of_nat (n - 1 - t)).
  intros np_t np_p. unfold random_shuffle.
  rewrite np_arange_length, Nat2Z.id.
  rewrite (shuffle_loop_picks v).
  - assert (Hnth : nth_error (np_arange (Z.of_nat n)) v = Some (Z.of_nat v)).
    { unfold np_arange. rewrite Nat2Z.id.
      rewrite nth_error_map, nth_error_seq.
      assert (E : (v <? n)%nat = true) by (apply Nat.ltb_lt; exact Hv).
      rewrite E. reflexivity. }
    destruct ((1 <=? v) && (v <=? n - 1))%nat eqn:E.
    + apply swap_items_head. exact Hnth.
    + assert (v = 0%nat).
      { apply andb_false_iff in E. destruct E as [E | E]; apply Nat.leb_gt in E; lia. }
      subst v. destruct n as [| n]; [lia |].
      unfold np_arange. rewrite Nat2Z.id. reflexivity.
  - intros k Hk. cbn [py_tape py_pos]. rewrite Nat.add_0_l. reflexivity.
Qed.

(** X1. Whatever [get_subset_views] returns is a list of distinct view
    indices of [[0, number_views)], a prefix of a shuffle of all of them.
    With [minimum_views >= number_views] it returns all indices, in order,
    and draws nothing.  With [0 <= minimum_views < number_views] (and at
    most [2^53] views) it returns, and returns at least [minimum_views]
    and at most [number_views] indices, the count of line 28 being computed
    in binary64.  The selection depends on the shuffle: with
    [minimum_views >= 1] every index is the first one returned for some
    state of the generators. *)
Theorem get_subset_views_subset (number_views minimum_views : Z) (g : rng) :
  (forall views,
      fst (get_subset_views number_views minimum_views g) = Ok views ->
      NoDup views /\
      (forall v, In v views -> 0 <= v < number_views) /\
      Z.of_nat (List.length views) <= Z.max 0 number_views /\
      exists shuffled,
        Permutation shuffled (np_arange number_views) /\
        views = firstn (List.length views) shuffled) /\
  (number_views <= minimum_views ->
   get_subset_views number_views minimum_views g
   = (Ok (np_arange number_views), g)) /\
  (0 <= minimum_views -> minimum_views < number_views -> number_views <= 2 ^ 53 ->
   (exists views,
       fst (get_subset_views number_views minimum_views g) = Ok views /\
       minimum_views <= Z.of_nat (List.length views) <= number_views) /\
   (1 <= minimum_views ->
    forall v, 0 <= v < number_views ->
              exists g' views,
                fst (get_subset_views number_views minimum_views g')
                = Ok (v :: views))).
Proof.
  assert (Hshape : forall g0 views,
             fst (get_subset_views number_views minimum_views g0) = Ok views ->
             exists shuffled count,
               Permutation shuffled (np_arange number_views) /\
               views = firstn count shuffled /\ (count <= List.length shuffled)%nat).
  { intros g0 views. unfold get_subset_views.
    destruct (number_views <=? minimum_views) eqn:Ecmp.
    - simpl. intros H. apply Ok_inj in H. subst views.
      exists (np_arange number_views), (List.length (np_arange number_views)).
      split; [apply Permutation_refl |].
      split; [symmetry; apply firstn_all | lia].
    - pose proof (random_shuffle_perm (np_arange number_views) g0) as Hperm.
      destruct (random_shuffle (np_arange number_views) g0) as [shuffled g1].
      simpl in Hperm.
      destruct (np_random_random g1) as [u g2]. cbn [fst].
      destruct (number_selected number_views minimum_views u) as [e | count];
        cbn [bind]; intros H; [discriminate |].
      apply Ok_inj in H. subst views.
      exists shuffled, (adjust_index count (List.length shuffled)).
      split; [exact Hperm |]. split; [reflexivity | apply adjust_index_le]. }
  split; [| split].
  - intros views Hret.
    destruct (Hshape g views Hret) as (shuffled & count & Hperm & -> & Hcount).
    assert (Hnd : NoDup shuffled).
    { eapply Permutation_NoDup; [apply Permutation_sym; exact Hperm |].
      apply np_arange_NoDup. }
    assert (Hlen : List.length shuffled = Z.to_nat number_views).
    { rewrite (Permutation_length Hperm). apply np_arange_length. }
    split; [apply NoDup_firstn; exact Hnd |].
    split.
    { intros v Hv. apply np_arange_In. eapply Permutation_in; [exact Hperm |].
      eapply In_firstn. exact Hv. }
    split.
    { rewrite length_firstn. lia. }
    exists shuffled. split; [exact Hperm |].
    rewrite length_firstn, Nat.min_l by exact Hcount. reflexivity.
  - intros Hle. unfold get_subset_views.
    apply Z.leb_le in Hle. rewrite Hle. reflexivity.
  - intros Hmin Hlt Hmax.
    assert (Hrun : forall g0,
               exists shuffled count,
                 fst (random_shuffle (np_arange number_views) g0) = shuffled /\
                 fst (get_subset_views number_views minimum_views g0)
                 = Ok (firstn count shuffled) /\
                 (Z.to_nat minimum_views <= count <= List.length shuffled)%nat /\
                 List.length shuffled = Z.to_nat number_views).
    { intros g0. unfold get_subset_views.
      assert (Ecmp : (number_views <=? minimum_views) = false)
        by (apply Z.leb_gt; exact Hlt).
      rewrite Ecmp.
      pose proof (random_shuffle_perm (np_arange number_views) g0) as Hperm.
      destruct (random_shuffle (np_arange number_views) g0) as [shuffled g1].
      simpl in Hperm.
      pose proof (np_random_random_range g1) as Hu.
      destruct (np_random_random g1) as [u g2]. simpl in Hu. cbn [fst].
      destruct (number_selected_bounds number_views minimum_views u Hmin Hlt Hmax
                  (proj1 Hu) (proj2 Hu)) as (count & Hcount & Hge).
      rewrite Hcount. cbn [bind fst].
      assert (Hlen : List.length shuffled = Z.to_nat number_views).
      { rewrite (Permutation_length Hperm). apply np_arange_length. }
      exists shuffled, (adjust_index count (List.length shuffled)).
      split; [reflexivity |]. split; [reflexivity |].
      split; [| exact Hlen].
      split; [| apply adjust_index_le].
      rewrite Hlen. unfold adjust_index.
      destruct (count <? 0) eqn:E;
        [apply Z.ltb_lt in E | apply Z.ltb_ge in E]; lia. }
    split.
    + destruct (Hrun g) as (shuffled & count & _ & Hret & Hcount & Hlen).
      exists (firstn count shuffled). split; [exact Hret |].
      rewrite length_firstn. lia.
    + intros Hmin1 v Hv.
      destruct (random_shuffle_front (Z.to_nat number_views) (Z.to_nat v)
                  ltac:(lia)) as (py & Hfront).
      set (g' := {| py_tape := py; py_pos := 0;
                    np_tape := np_tape g; np_pos := np_pos g |}).
      specialize (Hfront (np_tape g) (np_pos g)). fold g' in Hfront.
      rewrite !Z2Nat.id in Hfront by lia.
      destruct (Hrun g') as (shuffled & count & Hsh & Hret & Hcount & Hlen).
      rewrite Hsh in Hfront.
      exists g'. rewrite Hret.
      destruct shuffled as [| s0 shuffled]; [simpl in Hlen; lia |].
      simpl in Hfront. subst s0.
      destruct count as [| count]; [lia |].
      exists (firstn count shuffled). reflexivity.
Qed.

(** A draw on which the exact value of line 28, [2 + 11 u], lies just below
    [3.5] and its binary64 value is [3.5]: four views are selected, not
    three.  The Standard Library's binary64 computes the same sum. *)
Example get_subset_views_binary64_tie :
  let u := (1228254443828317 # 9007199254740992)%Q in
  let g := {| py_tape := fun k => Z.of_nat (7 * k + 3); py_pos := 0;
              np_tape := fun _ => 1228254443828317; np_pos := 0 |} in
  fst (get_subset_views 13 2 g) = Ok [7; 0; 1; 2] /\
  round_half_even (2 + 11 * u) = 3 /\
  option_map Qred
    (Q_of_SF (SFadd prec emax (SF_of_int 2)
                (SFmul prec emax (SF_of_int 11) (SF_of_dyadic u))))
  = Some (7 # 2)%Q.
Proof. vm_compute. repeat split. Qed.

(** Draws on which binary64 and exact arithmetic select different counts:
    line 28 as modelled, and as the Standard Library's binary64 computes
    it, give the counts the interpreter gives. *)
Example number_selected_binary64 :
  let draws :=
    [(2, 13, 1228254443828317); (2, 13, 2047090739713862);
     (2, 13, 5322435923256041); (2, 13, 6141272219141585);
     (2, 13, 8597781106798220); (1, 11, 1351079888211149);
     (1, 11, 4053239664633446); (4, 10, 750599937895083);
     (4, 10, 8256599316845909); (1, 12, 2865927035599407)] in
  let u k := (k # 9007199254740992)%Q in
  map (fun '(minimum_views, number_views, k) =>
         number_selected number_views minimum_views (u k)) draws
  = map Ok [4; 4; 8; 10; 12; 2; 6; 4; 10; 4] /\
  map (fun '(minimum_views, number_views, k) =>
         option_map round_half_even
           (Q_of_SF (SFadd prec emax (SF_of_int minimum_views)
                       (SFmul prec emax (SF_of_int (number_views - minimum_views))
                          (SF_of_dyadic (u k)))))) draws
  = map Some [4; 4; 8; 10; 12; 2; 6; 4; 10; 4] /\
  map (fun '(minimum_views, number_views, k) =>
         round_half_even (inject_Z minimum_views
                          + inject_Z (number_views - minimum_views) * u k)) draws
  = [3; 5; 9; 9; 13; 3; 5; 5; 9; 5].
Proof. vm_compute. repeat split. Qed.

(** ** More on [crop_img] *)

Section CropWindow.
Context {F : Type} {NF : Number F}.
Implicit Types a : ndarray F.

(** For offsets that are not negative, the slice [start : start + len] of an
    axis of extent [n] starts at [min(start, n)] and is cut at [n]. *)
Lemma slice_indices_clamp (start len : Z) (n : nat) :
  0 <= start -> 0 <= len ->
  slice_indices start (start + len) n
  = (Z.to_nat (Z.min start (Z.of_nat n)),
     Z.to_nat (Z.min (start + len) (Z.of_nat n) - Z.min start (Z.of_nat n))).
Proof.
  intros Hs Hl. unfold slice_indices, adjust_index.
  destruct (start <? 0) eqn:E1; [apply Z.ltb_lt in E1; lia |].
  destruct (start + len <? 0) eqn:E2; [apply Z.ltb_lt in E2; lia |].
  f_equal. lia.
Qed.

(** X2. A window that lies inside a rank-2 or rank-3 array is returned at
    exactly the crop size, and its element [(i, j)] is the source's element
    [(h_offset + i, w_offset + j)], on every channel. *)
Theorem crop_img_inside a (h w : nat) (rest : list nat) crop_size
        (crop_height crop_width h_offset w_offset : Z) :
  image_rank a ->
  shape a = h :: w :: rest ->
  unpack_crop_size crop_size = Ok (crop_height, crop_width) ->
  0 <= h_offset -> 0 <= crop_height -> h_offset + crop_height <= Z.of_nat h ->
  0 <= w_offset -> 0 <= crop_width -> w_offset + crop_width <= Z.of_nat w ->
  exists c,
    crop_img (PyNdarray a) crop_size h_offset w_offset = Ok (PyNdarray c) /\
    shape c = Z.to_nat crop_height :: Z.to_nat crop_width :: rest /\
    (forall i j r,
        item c (i :: j :: r)
        = item a ((Z.to_nat h_offset + i)%nat :: (Z.to_nat w_offset + j)%nat :: r)).
Proof.
  intros Hrank Hshape Hcs Hh0 Hch Hh1 Hw0 Hcw Hw1.
  assert (Hrest : (List.length rest <= 1)%nat).
  { unfold image_rank, ndim in Hrank. rewrite Hshape in Hrank. simpl in Hrank. lia. }
  destruct (crop_ndarray_spec a h w rest crop_size crop_height crop_width
                              h_offset w_offset Hshape Hrest Hcs)
    as (c & Hrun & Hsh & Hit).
  rewrite !slice_indices_clamp in Hsh, Hit by assumption.
  simpl in Hsh, Hit.
  exists c. split; [exact Hrun |]. split.
  - rewrite Hsh. f_equal; [lia | f_equal; lia].
  - intros i j r. rewrite Hit. f_equal. f_equal; [lia | f_equal; lia].
Qed.

(** X3. [crop_img] checks no bounds: on a rank-2 or rank-3 array it returns
    for every integer offset and every crop size that is not negative, with
    at most the requested and at most the available rows and columns; a
    window that starts at a non-negative offset is cut at the image border,
    and one that starts at or beyond the border is empty. *)
Theorem crop_img_truncates a (h w : nat) (rest : list nat) crop_size
        (crop_height crop_width h_offset w_offset : Z) :
  image_rank a ->
  shape a = h :: w :: rest ->
  unpack_crop_size crop_size = Ok (crop_height, crop_width) ->
  0 <= crop_height -> 0 <= crop_width ->
  exists c rows cols,
    crop_img (PyNdarray a) crop_size h_offset w_offset = Ok (PyNdarray c) /\
    shape c = rows :: cols :: rest /\
    Z.of_nat rows <= crop_height /\ (rows <= h)%nat /\
    Z.of_nat cols <= crop_width /\ (cols <= w)%nat /\
    (0 <= h_offset ->
     Z.of_nat rows = Z.max 0 (Z.min (h_offset + crop_height) (Z.of_nat h) - h_offset)) /\
    (0 <= w_offset ->
     Z.of_nat cols = Z.max 0 (Z.min (w_offset + crop_width) (Z.of_nat w) - w_offset)) /\
    (Z.of_nat h <= h_offset -> rows = 0%nat) /\
    (Z.of_nat w <= w_offset -> cols = 0%nat).
Proof.
  intros Hrank Hshape Hcs Hch Hcw.
  assert (Hrest : (List.length rest <= 1)%nat).
  { unfold image_rank, ndim in Hrank. rewrite Hshape in Hrank. simpl in Hrank. lia. }
  destruct (crop_ndarray_spec a h w rest crop_size crop_height crop_width
                              h_offset w_offset Hshape Hrest Hcs)
    as (c & Hrun & Hsh & _).
  exists c, (snd (slice_indices h_offset (h_offset + crop_height) h)),
    (snd (slice_indices w_offset (w_offset + crop_width) w)).
  split; [exact Hrun |]. split; [exact Hsh |].
  pose proof (slice_indices_len_le h_offset crop_height h Hch).
  pose proof (slice_indices_len_le w_offset crop_width w Hcw).
  pose proof (slice_indices_fit h_offset (h_offset + crop_height) h).
  pose proof (slice_indices_fit w_offset (w_offset + crop_width) w).
  repeat split; try lia.
  - intros Hoff. rewrite slice_indices_clamp by assumption. simpl. lia.
  - intros Hoff. rewrite slice_indices_clamp by assumption. simpl. lia.
  - intros Hoff. rewrite slice_indices_clamp by lia. simpl. lia.
  - intros Hoff. rewrite slice_indices_clamp by lia. simpl. lia.
Qed.

End CropWindow.

Lemma crop_img_inside_witness :
  exists c,
    crop_img (PyNdarray img_rgb) (CropTuple [2; 3]) 1 2 = Ok (PyNdarray c) /\
    shape c = [2; 3; 3]%nat /\
    item c [1; 2; 0]%nat = item img_rgb [2; 4; 0]%nat.
Proof.
  destruct (crop_img_inside img_rgb 4 6 [3%nat] (CropTuple [2; 3]) 2 3 1 2
              (or_intror eq_refl) eq_refl eq_refl
              ltac:(lia) ltac:(lia) ltac:(lia) ltac:(lia) ltac:(lia) ltac:(lia))
    as (c & Hrun & Hsh & Hit).
  exists c. split; [exact Hrun |]. split; [exact Hsh |]. apply Hit.
Defined.

Lemma crop_img_truncates_witness :
  exists c,
    crop_img (PyNdarray img_grey) (CropScalar 3) 2 5 = Ok (PyNdarray c) /\
    shape c = [2; 0]%nat.
Proof.
  destruct (crop_img_truncates img_grey 4 4 [] (CropScalar 3) 3 3 2 5
              (or_introl eq_refl) eq_refl eq_refl ltac:(lia) ltac:(lia))
    as (c & rows & cols & Hrun & Hsh & _ & _ & _ & _ & Hrows & _ & _ & Hcols).
  exists c. split; [exact Hrun |]. rewrite Hsh.
  specialize (Hrows ltac:(lia)). specialize (Hcols ltac:(lia)).
  f_equal; [lia | f_equal; exact Hcols].
Defined.

(** ** More on [pad_width_or_height] *)

Section PadFill.
Context {F : Type} {NF : Number F}.
Implicit Types a : ndarray F.

(** X4. Padding a rank-2 or rank-3 array places the input in the window
    that starts at [(p_top, p_left)] and fills every other cell of the
    result, on every channel, with [pad_value] as numpy stores it there:
    cast to the dtype of the array, so [pad_value] itself when the dtype can
    hold it.  The reported offsets are the ones used. *)
Theorem pad_width_or_height_fill a (h w : nat) (rest : list nat)
        (output_width output_height : Z) (pad_value : F) :
  image_rank a ->
  shape a = h :: w :: rest ->
  exists a' (p_top p_left : nat) (p_bottom p_right : Z),
    pad_width_or_height (PyNdarray a) output_width output_height pad_value true
    = Ok (PadTuple (PyNdarray a') (Z.of_nat p_top) p_bottom (Z.of_nat p_left) p_right) /\
    (forall i j r,
        in_bounds (i :: j :: r) (shape a') ->
        item a' (i :: j :: r)
        = if (p_top <=? i)%nat && (i <? p_top + h)%nat &&
             (p_left <=? j)%nat && (j <? p_left + w)%nat
          then item a ((i - p_top)%nat :: (j - p_left)%nat :: r)
          else astype pad_value).
Proof.
  intros Hrank Hshape.
  assert (Hrest : (List.length rest <= 1)%nat).
  { unfold image_rank, ndim in Hrank. rewrite Hshape in Hrank. simpl in Hrank. lia. }
  pose proof (pad_before_after_nonneg (Z.of_nat h) output_height) as [Ht _].
  pose proof (pad_before_after_nonneg (Z.of_nat w) output_width) as [Hl _].
  destruct (pad_ndarray_cells a h w rest output_width output_height pad_value
                              Hshape Hrest) as (a' & Hrun & Hsh & Hcells).
  exists a', (Z.to_nat (pad_before (Z.of_nat h) output_height)),
    (Z.to_nat (pad_before (Z.of_nat w) output_width)),
    (pad_after (Z.of_nat h) output_height), (pad_after (Z.of_nat w) output_width).
  rewrite !Z2Nat.id by lia. split; [exact (Hrun true) |].
  intros i j r Hin. apply Hcells.
  rewrite Hsh in Hin. unfold in_bounds in Hin.
  inversion Hin as [| ? ? ? ? _ Hin1]; subst.
  inversion Hin1 as [| ? ? ? ? _ Hin2]; subst. exact Hin2.
Qed.

(** X5. For a PIL image [pad_value] has no effect: the call with any two
    pad values returns the same result, whose border pixels are all [0]
    (the default fill of [transforms.Pad]) and whose other pixels are the
    input's, at the reported offsets. *)
Theorem pad_width_or_height_pil_fill (im : pil_image F)
        (output_width output_height : Z) (pad_value pad_value' : F)
        (return_offsets : bool) :
  pad_width_or_height (PyPIL im) output_width output_height pad_value
                      return_offsets
  = pad_width_or_height (PyPIL im) output_width output_height pad_value'
                        return_offsets /\
  exists im' (p_top p_left : nat) (p_bottom p_right : Z),
    pad_width_or_height (PyPIL im) output_width output_height pad_value true
    = Ok (PadTuple (PyPIL im') (Z.of_nat p_top) p_bottom (Z.of_nat p_left) p_right) /\
    (forall x y,
        pil_pixel im' x y
        = if (p_left <=? x)%nat && (x <? p_left + pil_width im)%nat &&
             (p_top <=? y)%nat && (y <? p_top + pil_height im)%nat
          then pil_pixel im (x - p_left)%nat (y - p_top)%nat
          else f0).
Proof.
  split.
  - rewrite !pad_pil_spec. reflexivity.
  - pose proof (pad_before_after_nonneg (Z.of_nat (pil_height im)) output_height)
      as [Ht _].
    pose proof (pad_before_after_nonneg (Z.of_nat (pil_width im)) output_width)
      as [Hl _].
    rewrite pad_pil_spec.
    set (p_top := pad_before (Z.of_nat (pil_height im)) output_height) in *.
    set (p_left := pad_before (Z.of_nat (pil_width im)) output_width) in *.
    eexists _, (Z.to_nat p_top), (Z.to_nat p_left), _, _.
    rewrite !Z2Nat.id by lia. split; [reflexivity |].
    intros x y. reflexivity.
Qed.

(** X6. What [pad_width_or_height] does with data it is not written for: a
    value that is neither an array nor a PIL image (a tensor, [None], a
    list) is not rejected as such but fails on the first use of the unbound
    local [width]; an array of rank below 2 fails on [data.shape]; an array
    of rank above 3 is refused by [np.pad], which is given two pairs only.
    Nothing is returned in these cases. *)
Theorem pad_width_or_height_errors (data : pyobj F) (output_width output_height : Z)
        (pad_value : F) (return_offsets : bool) :
  match data with
  | PyNdarray a =>
      ((ndim a < 2)%nat ->
       pad_width_or_height data output_width output_height pad_value return_offsets
       = Raise (IndexError "tuple index out of range")) /\
      ((3 < ndim a)%nat ->
       exists msg,
         pad_width_or_height data output_width output_height pad_value return_offsets
         = Raise (ValueError msg))
  | PyPIL _ =>
      exists res,
        pad_width_or_height data output_width output_height pad_value return_offsets
        = Ok res
  | PyTensor _ | PyNone | PyOther _ =>
      pad_width_or_height data output_width output_height pad_value return_offsets
      = Raise (UnboundLocalError "width")
  end.
Proof.
  destruct data as [a | t | im | | ty]; try reflexivity.
  - split.
    + intros Hlt. unfold pad_width_or_height, shape_at, ndim in *.
      destruct (shape a) as [| h [| w rest]]; simpl in *; try reflexivity; lia.
    + intros Hgt. unfold pad_width_or_height, shape_at, np_pad, ndim in *.
      destruct (shape a) as [| h [| w [| c [| d rest]]]]; simpl in *; try lia.
      destruct (Z.of_nat w <? output_width), (Z.of_nat h <? output_height);
        simpl; eexists; reflexivity.
  - rewrite pad_pil_spec. eexists. reflexivity.
Qed.

End PadFill.

Lemma pad_width_or_height_fill_witness :
  exists a' (p_top p_left : nat) (p_bottom p_right : Z),
    pad_width_or_height (PyNdarray img_grey) 7 4 (9 # 1)%Q true
    = Ok (PadTuple (PyNdarray a') (Z.of_nat p_top) p_bottom (Z.of_nat p_left) p_right) /\
    (forall i j r,
        in_bounds (i :: j :: r) (shape a') ->
        item a' (i :: j :: r)
        = if (p_top <=? i)%nat && (i <? p_top + 4)%nat &&
             (p_left <=? j)%nat && (j <? p_left + 4)%nat
          then item img_grey ((i - p_top)%nat :: (j - p_left)%nat :: r)
          else (9 # 1)%Q).
Proof.
  exact (pad_width_or_height_fill img_grey 4 4 [] 7 4 (9 # 1)%Q
           (or_introl eq_refl) eq_refl).
Defined.

(** An [int64] image padded with [0.5]: the new cell holds [0]. *)
Example pad_width_or_height_fill_int64 :
  match @pad_width_or_height Q int64_pixels (PyNdarray (array2 [[1; 2]]%Q))
          3 1 (1 # 2)%Q false with
  | inr (PadData (PyNdarray a')) => Some (shape a', tolist2 a')
  | _ => None
  end
  = Some ([1; 3]%nat, [[1; 2; 0]]%Q).
Proof. vm_compute. reflexivity. Qed.

(** ** More on [get_random_crop_offsets] *)

(** The outcomes of the sampler, for arguments whose draws fit [int64];
    beyond them numpy refuses to draw. *)
Lemma get_random_crop_offsets_outcomes
      (crop_size : crop_size_t) (crop_height crop_width height width : Z) :
  unpack_crop_size crop_size = Ok (crop_height, crop_width) ->
  width - crop_width - 1 <= 2 ^ 63 ->
  height - crop_height - 1 <= 2 ^ 63 ->
  exists d,
    get_random_crop_offsets crop_size height width = Ok d /\
    d <> [] /\
    forall h_offset w_offset,
      In (h_offset, w_offset) d <->
      0 <= w_offset < Z.max 1 (width - crop_width - 1) /\
      0 <= h_offset < Z.max 1 (height - crop_height - 1).
Proof.
  intros Hcs Hwmax Hhmax.
  pose proof pow2_63_pos as H63.
  destruct (randint_spec 0 (Z.max 1 (width - crop_width - 1))
              ltac:(lia) ltac:(lia) ltac:(lia))
    as (ws & Hws & _ & _ & Hinw).
  destruct (randint_spec 0 (Z.max 1 (height - crop_height - 1))
              ltac:(lia) ltac:(lia) ltac:(lia))
    as (hs & Hhs & _ & _ & Hinh).
  exists (draws ws hs).
  assert (Hmem : forall h_offset w_offset,
             In (h_offset, w_offset) (draws ws hs) <->
             0 <= w_offset < Z.max 1 (width - crop_width - 1) /\
             0 <= h_offset < Z.max 1 (height - crop_height - 1)).
  { intros h w. rewrite in_draws, Hinw, Hinh. reflexivity. }
  split; [| split; [| exact Hmem]].
  - unfold get_random_crop_offsets. rewrite Hcs. simpl. rewrite Hws, Hhs.
    reflexivity.
  - intros Hnil. assert (Hin : In (0, 0) (draws ws hs)) by (apply Hmem; lia).
    rewrite Hnil in Hin. exact Hin.
Qed.

Lemma get_random_crop_offsets_out_of_range
      (crop_size : crop_size_t) (crop_height crop_width height width : Z) :
  unpack_crop_size crop_size = Ok (crop_height, crop_width) ->
  2 ^ 63 < width - crop_width - 1 ->
  get_random_crop_offsets crop_size height width
  = Raise (ValueError "high is out of bounds for int64").
Proof.
  intros Hcs Hw. pose proof pow2_63_pos as H63.
  assert (E : np_random_randint 0 (Z.max 1 (width - crop_width - 1))
              = Raise (ValueError "high is out of bounds for int64")).
  { unfold np_random_randint.
    destruct (0 <? - 2 ^ 63) eqn:E1; [apply Z.ltb_lt in E1; lia |].
    destruct (2 ^ 63 - 1 <? Z.max 1 (width - crop_width - 1) - 1) eqn:E2;
      [reflexivity | apply Z.ltb_ge in E2; lia]. }
  unfold get_random_crop_offsets. rewrite Hcs. cbn [bind Ok].
  rewrite E. reflexivity.
Qed.

Example get_random_crop_offsets_beyond_int64 :
  get_random_crop_offsets (CropScalar 1) 10 (2 ^ 63 + 3)
  = Raise (ValueError "high is out of bounds for int64").
Proof. vm_compute. reflexivity. Qed.

(** X7. When the image exceeds the crop by at least two rows and two
    columns (and the draws fit [int64]: each [size - crop - 1] is at most
    [2^63]), no sampled window reaches the last two rows or the last two
    columns of the image: every outcome has
    [h_offset + crop_height <= height - 2] and
    [w_offset + crop_width <= width - 2], and the window that ends exactly
    there is among the outcomes, as is the one at the origin. *)
Theorem get_random_crop_offsets_margin
        (crop_size : crop_size_t) (crop_height crop_width height width : Z) :
  unpack_crop_size crop_size = Ok (crop_height, crop_width) ->
  crop_height + 2 <= height ->
  crop_width + 2 <= width ->
  height - crop_height - 1 <= 2 ^ 63 ->
  width - crop_width - 1 <= 2 ^ 63 ->
  exists d,
    get_random_crop_offsets crop_size height width = Ok d /\
    (forall h_offset w_offset,
        In (h_offset, w_offset) d ->
        0 <= h_offset /\ h_offset + crop_height <= height - 2 /\
        0 <= w_offset /\ w_offset + crop_width <= width - 2) /\
    In (height - crop_height - 2, width - crop_width - 2) d /\
    In (0, 0) d.
Proof.
  intros Hcs Hh Hw Hhmax Hwmax.
  destruct (get_random_crop_offsets_outcomes crop_size crop_height crop_width
              height width Hcs Hwmax Hhmax) as (d & Hrun & _ & Hmem).
  exists d. split; [exact Hrun |]. split; [| split].
  - intros h w Hin. apply Hmem in Hin. lia.
  - apply Hmem. lia.
  - apply Hmem. lia.
Qed.

Lemma get_random_crop_offsets_margin_witness :
  exists d,
    get_random_crop_offsets (CropTuple [2; 3]) 6 7 = Ok d /\
    In (2, 2) d /\
    (forall h_offset w_offset,
        In (h_offset, w_offset) d -> h_offset + 2 <= 4 /\ w_offset + 3 <= 5).
Proof.
  destruct (get_random_crop_offsets_margin (CropTuple [2; 3]) 2 3 6 7 eq_refl
              ltac:(lia) ltac:(lia) ltac:(lia) ltac:(lia))
    as (d & Hrun & Hfit & Hlast & _).
  exists d. split; [exact Hrun |]. split; [exact Hlast |].
  intros h w Hin. destruct (Hfit h w Hin) as (_ & Hh & _ & Hw).
  split; lia.
Defined.

(** ** The sampler and the cropper *)

Section SampleThenCrop.
Context {F : Type} {NF : Number F}.
Implicit Types a : ndarray F.

(** X8. Cropping an array image at any offsets the sampler can draw for the
    image's height and width never cuts the window short: the result has
    [min(crop_height, height)] rows and [min(crop_width, width)] columns,
    and holds the source's elements from the drawn offsets on.  The extents
    of an array are below [2^63], numpy's [intp]; the sampler draws in
    [int64]. *)
Theorem sampled_crop_is_full a (h w : nat) (rest : list nat) crop_size
        (crop_height crop_width : Z) :
  image_rank a ->
  shape a = h :: w :: rest ->
  unpack_crop_size crop_size = Ok (crop_height, crop_width) ->
  0 <= crop_height -> 0 <= crop_width ->
  Z.of_nat h < 2 ^ 63 -> Z.of_nat w < 2 ^ 63 ->
  exists d,
    get_random_crop_offsets crop_size (Z.of_nat h) (Z.of_nat w) = Ok d /\
    d <> [] /\
    forall h_offset w_offset,
      In (h_offset, w_offset) d ->
      exists c,
        crop_img (PyNdarray a) crop_size h_offset w_offset = Ok (PyNdarray c) /\
        shape c = Z.to_nat (Z.min crop_height (Z.of_nat h))
                  :: Z.to_nat (Z.min crop_width (Z.of_nat w)) :: rest /\
        (forall i j r,
            item c (i :: j :: r)
            = item a ((Z.to_nat h_offset + i)%nat
                        :: (Z.to_nat w_offset + j)%nat :: r)).
Proof.
  intros Hrank Hshape Hcs Hch Hcw Hhmax Hwmax.
  assert (Hrest : (List.length rest <= 1)%nat).
  { unfold image_rank, ndim in Hrank. rewrite Hshape in Hrank. simpl in Hrank. lia. }
  destruct (get_random_crop_offsets_outcomes crop_size crop_height crop_width
              (Z.of_nat h) (Z.of_nat w) Hcs ltac:(lia) ltac:(lia))
    as (d & Hrun & Hne & Hmem).
  exists d. split; [exact Hrun |]. split; [exact Hne |].
  intros h_offset w_offset Hin. apply Hmem in Hin.
  destruct (crop_ndarray_spec a h w rest crop_size crop_height crop_width
                              h_offset w_offset Hshape Hrest Hcs)
    as (c & Hcrop & Hsh & Hit).
  rewrite !slice_indices_clamp in Hsh, Hit by lia.
  simpl in Hsh, Hit.
  exists c. split; [exact Hcrop |]. split.
  - rewrite Hsh. f_equal; [lia | f_equal; lia].
  - intros i j r. rewrite Hit. f_equal. f_equal; [lia | f_equal; lia].
Qed.

End SampleThenCrop.

Lemma sampled_crop_is_full_witness :
  exists d,
    get_random_crop_offsets (CropTuple [2; 3]) 4 6 = Ok d /\
    forall h_offset w_offset,
      In (h_offset, w_offset) d ->
      exists c,
        crop_img (PyNdarray img_rgb) (CropTuple [2; 3]) h_offset w_offset
        = Ok (PyNdarray c) /\
        shape c = [2; 3; 3]%nat.
Proof.
  destruct (sampled_crop_is_full img_rgb 4 6 [3%nat] (CropTuple [2; 3]) 2 3
              (or_intror eq_refl) eq_refl eq_refl ltac:(lia) ltac:(lia)
              ltac:(lia) ltac:(lia))
    as (d & Hrun & _ & Hall).
  exists d. split; [exact Hrun |].
  intros h w Hin. destruct (Hall h w Hin) as (c & Hcrop & Hsh & _).
  exists c. split; [exact Hcrop | exact Hsh].
Defined.

(** ** More on the intrinsic update *)

Section IntrinsicShapes.
Context {F : Type} {NF : Number F}.
Variable rescale : ndarray F -> F -> option nat -> result (ndarray F).
Variable imsave : string -> pyobj F -> result unit.
Implicit Types K : ndarray F.

Lemma dot_3x3_any (A B : ndarray F) (m n : nat) :
  shape A = [3; 3]%nat -> shape B = [m; n] ->
  if (m =? 3)%nat
  then exists C, dot A B = Ok C /\ shape C = [3%nat; n]
  else dot A B = Raise (ValueError "shapes not aligned").
Proof.
  intros HA HB. unfold dot, ndim. rewrite HA, HB. simpl.
  rewrite (Nat.eqb_sym m 3).
  destruct m as [| [| [| [| m]]]]; simpl; try reflexivity.
  eexists. split; reflexivity.
Qed.

(** X9. [scale_crop] does not check the shape of [K].  A matrix with three
    rows and any number of columns is transformed column by column, the
    result having its shape; a matrix with another number of rows makes the
    call raise numpy's [ValueError] for misaligned shapes, and this only
    after the whole image pipeline has run. *)
Theorem scale_crop_intrinsic_shape (img : pyobj F) crop_size (h_offset w_offset : Z)
        (scale_factor : F) K (m n : nat) debug debug_root img' pads :
  shape K = [m; n] ->
  scale_crop_image rescale imsave img crop_size h_offset w_offset scale_factor
                   debug debug_root = Ok (img', pads) ->
  if (m =? 3)%nat
  then exists K_aug,
      scale_crop rescale imsave img crop_size h_offset w_offset scale_factor
                 (Some K) debug debug_root = Ok (ScImageK img' K_aug) /\
      shape K_aug = [3%nat; n]
  else scale_crop rescale imsave img crop_size h_offset w_offset scale_factor
                  (Some K) debug debug_root
       = Raise (ValueError "shapes not aligned").
Proof.
  intros HK Himg. unfold scale_crop. rewrite Himg.
  destruct pads as [[[p_top p_bottom] p_left] p_right]. simpl.
  unfold intrinsic_update. simpl.
  match goal with
  | |- context [dot ?A (copy K)] =>
      pose proof (dot_3x3_any A (copy K) m n eq_refl HK) as H1
  end.
  destruct (m =? 3)%nat.
  - destruct H1 as (T1 & E1 & Hsh1). rewrite E1. simpl.
    match goal with
    | |- context [dot ?A T1] =>
        destruct (dot_3x3_any A T1 3 n eq_refl Hsh1) as (T2 & E2 & Hsh2)
    end.
    rewrite E2. simpl.
    match goal with
    | |- context [dot ?A T2] =>
        destruct (dot_3x3_any A T2 3 n eq_refl Hsh2) as (T3 & E3 & Hsh3)
    end.
    rewrite E3. simpl. exists T3. split; [reflexivity | exact Hsh3].
  - rewrite H1. reflexivity.
Qed.

End IntrinsicShapes.

(** ** What the image returned by [scale_crop] holds *)

Section ScaleCropContent.
Context {F : Type} {NF : Number F}.
Variable rescale : ndarray F -> F -> option nat -> result (ndarray F).
Variable imsave : string -> pyobj F -> result unit.
Implicit Types a b : ndarray F.

(** X11. The image of [scale_crop], cell by cell, for offsets that are not
    negative: the window [[h_offset, h_offset + crop_height) x
    [w_offset, w_offset + crop_width)] of the rescaled image, cut at that
    image's border, sits centred (the odd cell going to the bottom and to
    the right) in a canvas of the crop size, and every other cell of the
    canvas is [0] on every channel. *)
Theorem scale_crop_content a b (hb wb : nat) (rest : list nat) crop_size
        (crop_height crop_width h_offset w_offset : Z) (scale_factor : F)
        debug_root :
  image_rank a ->
  unpack_crop_size crop_size = Ok (crop_height, crop_width) ->
  0 <= crop_height -> 0 <= crop_width ->
  0 <= h_offset -> 0 <= w_offset ->
  rescale (copy a) scale_factor (channel_axis_of a) = Ok b ->
  shape b = hb :: wb :: rest ->
  image_rank b ->
  let rows := Z.to_nat (Z.min (h_offset + crop_height) (Z.of_nat hb) - h_offset) in
  let cols := Z.to_nat (Z.min (w_offset + crop_width) (Z.of_nat wb) - w_offset) in
  let p_top := Z.to_nat ((crop_height - Z.of_nat rows) / 2) in
  let p_left := Z.to_nat ((crop_width - Z.of_nat cols) / 2) in
  exists out,
    scale_crop rescale imsave (PyNdarray a) crop_size h_offset w_offset
               scale_factor None false debug_root
    = Ok (ScImage (PyNdarray out)) /\
    shape out = Z.to_nat crop_height :: Z.to_nat crop_width :: rest /\
    (forall i j r,
        in_bounds (i :: j :: r) (shape out) ->
        item out (i :: j :: r)
        = if (p_top <=? i)%nat && (i <? p_top + rows)%nat &&
             (p_left <=? j)%nat && (j <? p_left + cols)%nat
          then item b ((Z.to_nat h_offset + (i - p_top))%nat
                         :: (Z.to_nat w_offset + (j - p_left))%nat :: r)
          else f0).
Proof.
  intros Hrank Hcs Hch Hcw Hho Hwo Hres Hshape Hrankb rows cols p_top p_left.
  assert (Hrest : (List.length rest <= 1)%nat).
  { unfold image_rank, ndim in Hrankb. rewrite Hshape in Hrankb.
    simpl in Hrankb. lia. }
  destruct (crop_ndarray_spec b hb wb rest crop_size crop_height crop_width
                              h_offset w_offset Hshape Hrest Hcs)
    as (c & Hcrop & Hcsh & Hcit).
  rewrite !slice_indices_clamp in Hcsh, Hcit by assumption.
  simpl in Hcsh, Hcit.
  assert (Erows : Z.to_nat (Z.min (h_offset + crop_height) (Z.of_nat hb)
                            - Z.min h_offset (Z.of_nat hb)) = rows)
    by (unfold rows; lia).
  assert (Ecols : Z.to_nat (Z.min (w_offset + crop_width) (Z.of_nat wb)
                            - Z.min w_offset (Z.of_nat wb)) = cols)
    by (unfold cols; lia).
  rewrite Erows, Ecols in Hcsh.
  assert (Hrows : Z.of_nat rows <= crop_height) by (unfold rows; lia).
  assert (Hcols : Z.of_nat cols <= crop_width) by (unfold cols; lia).
  assert (Hsrc : forall i j r,
             (i < rows)%nat -> (j < cols)%nat ->
             item c (i :: j :: r)
             = item b ((Z.to_nat h_offset + i)%nat :: (Z.to_nat w_offset + j)%nat :: r)).
  { intros i j r Hi Hj. rewrite Hcit. f_equal.
    f_equal; [unfold rows in Hi; lia | f_equal; unfold cols in Hj; lia]. }
  assert (Etop : Z.to_nat (pad_before (Z.of_nat rows) crop_height) = p_top).
  { unfold p_top, pad_before, floor_half.
    destruct (Z.of_nat rows <? crop_height) eqn:E; [reflexivity |].
    apply Z.ltb_ge in E. replace (crop_height - Z.of_nat rows) with 0 by lia.
    reflexivity. }
  assert (Eleft : Z.to_nat (pad_before (Z.of_nat cols) crop_width) = p_left).
  { unfold p_left, pad_before, floor_half.
    destruct (Z.of_nat cols <? crop_width) eqn:E; [reflexivity |].
    apply Z.ltb_ge in E. replace (crop_width - Z.of_nat cols) with 0 by lia.
    reflexivity. }
  clearbody rows cols p_top p_left. clear Erows Ecols Hcit.
  assert (Hprefix :
    scale_crop_image rescale imsave (PyNdarray a) crop_size h_offset w_offset
                     scale_factor false debug_root
    = '(img, pads) <-
         (if (Z.of_nat rows <? crop_height) || (Z.of_nat cols <? crop_width)
          then r <- pad_width_or_height (PyNdarray c) crop_width crop_height
                                        f0 true ;;
               match r with
               | PadTuple img p_top p_bottom p_left p_right =>
                   Ok (img, (p_top, p_bottom, p_left, p_right))
               | PadData _ => Raise (TypeError "cannot unpack non-iterable object")
               end
          else Ok (PyNdarray c, (0, 0, 0, 0))) ;;
      Ok (img, pads)).
  { unfold scale_crop_image, debug_dump. simpl. rewrite Hcs. simpl.
    unfold channel_axis_of in Hres.
    destruct Hrank as [Hdim | Hdim]; rewrite Hdim in Hres; simpl in Hres;
      rewrite Hdim; simpl; rewrite Hres; simpl; rewrite Hcrop; simpl;
      unfold shape_at; rewrite Hcsh; simpl;
      (destruct (Z.of_nat rows <? crop_height); simpl; [reflexivity |]);
      destruct (Z.of_nat cols <? crop_width); reflexivity. }
  unfold scale_crop. rewrite Hprefix. clear Hprefix.
  destruct ((Z.of_nat rows <? crop_height) || (Z.of_nat cols <? crop_width))
    eqn:Eneed.
  - destruct (pad_ndarray_cells c rows cols rest crop_width crop_height f0
                                Hcsh Hrest) as (out & Hpad & Hosh & Hcells).
    pose proof (pad_before_after_sum (Z.of_nat rows) crop_height) as Hsumh.
    pose proof (pad_before_after_sum (Z.of_nat cols) crop_width) as Hsumw.
    pose proof (pad_before_after_nonneg (Z.of_nat rows) crop_height) as [Ht Hb].
    pose proof (pad_before_after_nonneg (Z.of_nat cols) crop_width) as [Hl Hr].
    rewrite Etop, Eleft, astype_f0 in Hcells.
    exists out. rewrite (Hpad true). simpl.
    split; [reflexivity |]. split.
    + rewrite Hosh. f_equal; [lia | f_equal; lia].
    + intros i j r Hin.
      assert (Hr' : in_bounds r rest).
      { rewrite Hosh in Hin. unfold in_bounds in Hin.
        inversion Hin as [| ? ? ? ? _ Hin1]; subst.
        inversion Hin1 as [| ? ? ? ? _ Hin2]; subst. exact Hin2. }
      rewrite (Hcells i j r Hr').
      destruct ((p_top <=? i)%nat && (i <? p_top + rows)%nat &&
                (p_left <=? j)%nat && (j <? p_left + cols)%nat) eqn:Ewin;
        [| reflexivity].
      apply andb_prop in Ewin. destruct Ewin as [Ewin E4].
      apply andb_prop in Ewin. destruct Ewin as [Ewin E3].
      apply andb_prop in Ewin. destruct Ewin as [E1 E2].
      apply Nat.leb_le in E1, E3. apply Nat.ltb_lt in E2, E4.
      apply Hsrc; lia.
  - apply orb_false_elim in Eneed. destruct Eneed as [E1 E2].
    apply Z.ltb_ge in E1, E2.
    assert (Ht0 : p_top = 0%nat).
    { rewrite <- Etop. rewrite pad_before_ge by assumption. reflexivity. }
    assert (Hl0 : p_left = 0%nat).
    { rewrite <- Eleft. rewrite pad_before_ge by assumption. reflexivity. }
    exists c. simpl. split; [reflexivity |]. split.
    + rewrite Hcsh. f_equal; [lia | f_equal; lia].
    + intros i j r Hin. rewrite Hcsh in Hin. unfold in_bounds in Hin.
      inversion Hin as [| ? ? ? ? Hi Hin1]; subst.
      inversion Hin1 as [| ? ? ? ? Hj Hin2]; subst.
      rewrite Ht0, Hl0. simpl.
      assert (Ei : (i <? rows)%nat = true) by (apply Nat.ltb_lt; exact Hi).
      assert (Ej : (j <? cols)%nat = true) by (apply Nat.ltb_lt; exact Hj).
      rewrite Ei, Ej. simpl. rewrite !Nat.sub_0_r. apply Hsrc; assumption.
Qed.

End ScaleCropContent.

(** ** Which buffers the results live in *)

Section Freshness.
Context {F : Type} {NF : Number F}.
Variable rescale : ndarray F -> F -> option nat -> result (ndarray F).
Variable rescale_scratch : ndarray F -> F -> option nat -> ndarray F.
Variable imsave : string -> pyobj F -> result unit.
Implicit Types (st : store F) (r : aref) (n : nat).

Lemma fresh_rescale_st n r (scale : F) (channel_axis : option nat) :
  (n <= base r)%nat ->
  keeps F n (rescale_st rescale rescale_scratch r scale channel_axis)
        (fun r' => (n <= base r')%nat).
Proof.
  intros Hr. unfold rescale_st.
  eapply keeps_bind; [apply keeps_read |]. intros a _.
  eapply keeps_bind; [apply keeps_scribble; exact Hr |]. intros _ _.
  eapply keeps_bind; [apply keeps_lift |]. intros b _.
  apply keeps_alloc.
Qed.

Lemma fresh_dot_st n (ra rb : aref) :
  keeps F n (dot_st ra rb) (fun r' => (n <= base r')%nat).
Proof.
  unfold dot_st.
  eapply keeps_bind; [apply keeps_read |]. intros a _.
  eapply keeps_bind; [apply keeps_read |]. intros b _.
  eapply keeps_bind; [apply (keeps_lift n (dot a b)) |]. intros c _.
  apply keeps_alloc.
Qed.

(** A crop lives in the buffer of the array it was taken from. *)
Lemma fresh_crop_img_st n r crop_size (h_offset w_offset : Z) :
  (n <= base r)%nat ->
  keeps F n (crop_img_st r crop_size h_offset w_offset)
        (fun o => match o with
                  | Some v => (n <= base v)%nat
                  | None => True
                  end).
Proof.
  intros Hr. unfold crop_img_st.
  eapply keeps_bind; [apply keeps_read |]. intros a _.
  eapply keeps_bind; [apply keeps_lift |]. intros [ch cw] _.
  destruct (ndim a =? 3)%nat; [| destruct (ndim a =? 2)%nat].
  - eapply keeps_bind; [apply keeps_lift |]. intros _ _.
    apply keeps_ret. exact Hr.
  - eapply keeps_bind; [apply keeps_lift |]. intros _ _.
    apply keeps_ret. exact Hr.
  - apply keeps_ret. exact I.
Qed.

Lemma fresh_pad_width_or_height_st n r (output_width output_height : Z)
      (pad_value : F) :
  keeps F n (pad_width_or_height_st r output_width output_height pad_value)
        (fun p => (n <= base (fst p))%nat).
Proof.
  unfold pad_width_or_height_st.
  eapply keeps_bind; [apply keeps_read |]. intros a _.
  eapply keeps_bind; [apply keeps_lift |]. intros res _.
  destruct res as [d | d pt pb pl pr]; [apply keeps_raise |].
  destruct d; try apply keeps_raise.
  eapply keeps_bind; [apply keeps_alloc |]. intros r' Hr'.
  apply keeps_ret. exact Hr'.
Qed.

Lemma fresh_scale_crop_image_st n (img : aref) crop_size (h_offset w_offset : Z)
      (scale_factor : F) (debug : bool) (debug_root : option string) :
  keeps F n (scale_crop_image_st rescale rescale_scratch imsave img crop_size
                                 h_offset w_offset scale_factor debug debug_root)
        (fun p => (n <= base (fst p))%nat).
Proof.
  unfold scale_crop_image_st.
  eapply keeps_bind; [apply keeps_read |]. intros a _.
  eapply keeps_bind; [apply keeps_lift |]. intros [ch cw] _.
  eapply keeps_bind; [apply keeps_debug_dump_st |]. intros _ _.
  eapply keeps_bind with (P := fun r' => (n <= base r')%nat).
  { destruct (ndim a =? 3)%nat; [| destruct (ndim a =? 2)%nat].
    - eapply keeps_bind; [apply keeps_copy_st |]. intros c Hc.
      apply fresh_rescale_st. exact Hc.
    - eapply keeps_bind; [apply keeps_copy_st |]. intros c Hc.
      apply fresh_rescale_st. exact Hc.
    - apply keeps_raise. }
  intros scaled Hscaled.
  eapply keeps_bind; [apply keeps_debug_dump_st |]. intros _ _.
  eapply keeps_bind; [apply fresh_crop_img_st; exact Hscaled |].
  intros cropped Hcropped.
  eapply keeps_bind; [apply keeps_debug_dump_st |]. intros _ _.
  eapply keeps_bind with (P := fun r' => (n <= base r')%nat).
  { destruct cropped; [apply keeps_ret; exact Hcropped | apply keeps_raise]. }
  intros view_ref Hview.
  eapply keeps_bind; [apply keeps_read |]. intros c _.
  eapply keeps_bind; [apply keeps_lift |]. intros rows _.
  eapply keeps_bind; [apply keeps_lift |]. intros pad_needed _.
  eapply keeps_bind with (P := fun p => (n <= base (fst p))%nat).
  { destruct pad_needed;
      [apply fresh_pad_width_or_height_st | apply keeps_ret; exact Hview]. }
  intros [out pads] Hout.
  eapply keeps_bind; [apply keeps_debug_dump_st |]. intros _ _.
  apply keeps_ret. exact Hout.
Qed.

Lemma fresh_intrinsic_update_st n (K : aref) (scale_factor : F)
      (h_offset w_offset p_top p_left : Z) :
  keeps F n (intrinsic_update_st K scale_factor h_offset w_offset p_top p_left)
        (fun r' => (n <= base r')%nat).
Proof.
  unfold intrinsic_update_st.
  eapply keeps_bind; [apply keeps_alloc |]. intros Ks HKs.
  eapply keeps_bind; [apply keeps_write_item; exact HKs |]. intros _ _.
  eapply keeps_bind; [apply keeps_write_item; exact HKs |]. intros _ _.
  eapply keeps_bind; [apply keeps_alloc |]. intros Kc HKc.
  eapply keeps_bind; [apply keeps_write_item; exact HKc |]. intros _ _.
  eapply keeps_bind; [apply keeps_write_item; exact HKc |]. intros _ _.
  eapply keeps_bind; [apply keeps_alloc |]. intros Kp HKp.
  eapply keeps_bind; [apply keeps_write_item; exact HKp |]. intros _ _.
  eapply keeps_bind; [apply keeps_write_item; exact HKp |]. intros _ _.
  eapply keeps_bind; [apply keeps_copy_st |]. intros K_copy _.
  eapply keeps_bind; [apply keeps_dot_st |]. intros t1 _.
  eapply keeps_bind; [apply keeps_dot_st |]. intros t2 _.
  apply fresh_dot_st.
Qed.

(** X12. Whatever [scale_crop] returns lives in buffers made during the
    call: neither the image nor the intrinsic it returns is, or is a view
    of, an array that existed before the call, the inputs included.  So a
    later write to a result cannot reach an input. *)
Theorem scale_crop_results_are_new
        (st : store F) (img : aref) crop_size (h_offset w_offset : Z)
        (scale_factor : F) (K : option aref) (debug : bool)
        (debug_root : option string) :
  match snd (scale_crop_st rescale rescale_scratch imsave img crop_size
                           h_offset w_offset scale_factor K debug
                           debug_root st) with
  | inr (img_aug, K_aug) =>
      (List.length st <= base img_aug)%nat /\
      match K, K_aug with
      | Some _, Some rk => (List.length st <= base rk)%nat
      | None, None => True
      | _, _ => False
      end
  | inl _ => True
  end.
Proof.
  assert (H : keeps F (List.length st)
                (scale_crop_st rescale rescale_scratch imsave img crop_size
                               h_offset w_offset scale_factor K debug debug_root)
                (fun p => (List.length st <= base (fst p))%nat /\
                          match K, snd p with
                          | Some _, Some rk => (List.length st <= base rk)%nat
                          | None, None => True
                          | _, _ => False
                          end)).
  { unfold scale_crop_st.
    eapply keeps_bind; [apply fresh_scale_crop_image_st |].
    intros [out [[[p_top p_bottom] p_left] p_right]] Hout.
    destruct K as [K0 |]; [| apply keeps_ret; split; [exact Hout | exact I]].
    eapply keeps_bind; [apply fresh_intrinsic_update_st |]. intros K_aug HK.
    apply keeps_ret. split; [exact Hout | exact HK]. }
  destruct (H st (Nat.le_refl _)) as (_ & _ & HQ).
  destruct (snd (scale_crop_st _ _ _ _ _ _ _ _ _ _ _ _)) as [e | [img_aug K_aug]];
    [exact I | exact HQ].
Qed.

End Freshness.

(** ** A crop is a view *)

Section CropView.
Context {F : Type} {NF : Number F}.
Implicit Types (st : store F) (r : aref) (a : ndarray F).

Lemma store_set_same st l a a' :
  nth_error st l = Some a -> nth_error (store_set st l a') l = Some a'.
Proof.
  revert l. induction st as [| b st IH]; intros [| l]; simpl; intros H;
    try discriminate; [reflexivity | apply IH; exact H].
Qed.

(** X13. [crop_img] copies nothing: the crop of an array object is a view
    on that object's buffer.  Assigning to cell [(i, j)] of the crop
    changes cell [(h_offset + i, w_offset + j)] of the image it was taken
    from, and no other cell. *)
Theorem crop_img_st_is_view st r a (h w : nat) (rest : list nat) crop_size
        (crop_height crop_width h_offset w_offset : Z)
        (i j : nat) (k : list nat) (x : F) :
  view r = [] ->
  nth_error st (base r) = Some a ->
  image_rank a ->
  shape a = h :: w :: rest ->
  unpack_crop_size crop_size = Ok (crop_height, crop_width) ->
  0 <= h_offset -> 0 <= w_offset ->
  Z.of_nat i < crop_height -> h_offset + Z.of_nat i < Z.of_nat h ->
  Z.of_nat j < crop_width -> w_offset + Z.of_nat j < Z.of_nat w ->
  in_bounds k rest ->
  let src := (Z.to_nat h_offset + i)%nat :: (Z.to_nat w_offset + j)%nat :: k in
  exists crop a',
    crop_img_st r crop_size h_offset w_offset st = (st, Ok (Some crop)) /\
    base crop = base r /\
    write_item crop (i :: j :: k) x st = (store_set st (base r) a', Ok tt) /\
    snd (read r (store_set st (base r) a')) = Ok a' /\
    shape a' = shape a /\
    item a' src = x /\
    (forall idx, idx <> src -> item a' idx = item a idx).
Proof.
  intros Hview Hst Hrank Hshape Hcs Hho Hwo Hi1 Hi2 Hj1 Hj2 Hk src.
  assert (Hrest : (List.length rest <= 1)%nat).
  { unfold image_rank, ndim in Hrank. rewrite Hshape in Hrank. simpl in Hrank. lia. }
  pose proof (slice_indices_clamp h_offset crop_height h Hho ltac:(lia)) as Erows.
  pose proof (slice_indices_clamp w_offset crop_width w Hwo ltac:(lia)) as Ecols.
  assert (Hr0 : fst (slice_indices h_offset (h_offset + crop_height) h)
                = Z.to_nat h_offset) by (rewrite Erows; simpl; lia).
  assert (Hc0 : fst (slice_indices w_offset (w_offset + crop_width) w)
                = Z.to_nat w_offset) by (rewrite Ecols; simpl; lia).
  assert (Hr1 : (i <? snd (slice_indices h_offset (h_offset + crop_height) h))%nat
                = true)
    by (apply Nat.ltb_lt; rewrite Erows; simpl; lia).
  assert (Hc1 : (j <? snd (slice_indices w_offset (w_offset + crop_width) w))%nat
                = true)
    by (apply Nat.ltb_lt; rewrite Ecols; simpl; lia).
  assert (Hsrc1 : (Z.to_nat h_offset + i <? h)%nat = true)
    by (apply Nat.ltb_lt; lia).
  assert (Hsrc2 : (Z.to_nat w_offset + j <? w)%nat = true)
    by (apply Nat.ltb_lt; lia).
  clear Erows Ecols.
  destruct r as [l vw]. simpl in Hview, Hst. subst vw.
  set (a' := {| shape := h :: w :: rest;
                item := fun idx' =>
                          if list_eq_dec Nat.eq_dec idx' src then x
                          else item a idx' |}).
  assert (Hcrop : forall sl,
             (sl = [Slice h_offset (h_offset + crop_height);
                    Slice w_offset (w_offset + crop_width)] \/
              sl = [Slice h_offset (h_offset + crop_height);
                    Slice w_offset (w_offset + crop_width); SliceAll]) ->
             List.length sl = ndim a ->
             write_item {| base := l; view := [sl] |} (i :: j :: k) x st
             = (store_set st l a', Ok tt)).
  { intros sl Hsl Hlen. unfold write_item, getitem, setitem.
    cbn -[slice_indices Nat.ltb]. rewrite Hst.
    unfold ndim in Hlen. rewrite Hshape in *.
    destruct Hsl as [-> | ->];
      (destruct rest as [| c0 [| ? ?]]; simpl in Hlen, Hrest; try lia;
       try discriminate Hlen).
    - inversion Hk; subst. unfold getitem. rewrite Hshape.
      cbn -[slice_indices Nat.ltb].
      rewrite Hr1, Hc1, Hr0, Hc0, Hsrc1, Hsrc2. reflexivity.
    - inversion Hk as [| k0 ? k1 ? Hk0 Hk1]; subst. inversion Hk1; subst.
      unfold getitem. rewrite Hshape. cbn -[slice_indices Nat.ltb].
      assert (Ek : (k0 <? c0)%nat = true) by (apply Nat.ltb_lt; exact Hk0).
      rewrite Hr1, Hc1, Ek, Hr0, Hc0, Hsrc1, Hsrc2. reflexivity. }
  assert (Hrun : exists sl,
             crop_img_st {| base := l; view := [] |} crop_size h_offset w_offset st
             = (st, Ok (Some {| base := l; view := [sl] |})) /\
             (sl = [Slice h_offset (h_offset + crop_height);
                    Slice w_offset (w_offset + crop_width)] \/
              sl = [Slice h_offset (h_offset + crop_height);
                    Slice w_offset (w_offset + crop_width); SliceAll]) /\
             List.length sl = ndim a).
  { unfold crop_img_st, bind_st, read, lift, ret_st, getitem. simpl.
    rewrite Hst. simpl. rewrite Hcs. simpl.
    unfold ndim. rewrite Hshape.
    destruct rest as [| c0 [| ? ?]]; simpl in Hrest; try lia; simpl.
    - eexists. split; [reflexivity |]. split; [left; reflexivity | reflexivity].
    - eexists. split; [reflexivity |]. split; [right; reflexivity | reflexivity]. }
  destruct Hrun as (sl & Hrun & Hsl & Hlen).
  exists {| base := l; view := [sl] |}, a'. cbn [base].
  split; [exact Hrun |]. split; [reflexivity |].
  split; [apply Hcrop; assumption |].
  split; [| split; [symmetry; exact Hshape | split]].
  - unfold read. cbn [base view].
    rewrite (store_set_same st l a a' Hst). reflexivity.
  - unfold a'. cbn [item].
    destruct (list_eq_dec Nat.eq_dec src src) as [_ | Hne];
      [reflexivity | contradiction].
  - intros idx Hne. unfold a'. cbn [item].
    destruct (list_eq_dec Nat.eq_dec idx src) as [E | _];
      [contradiction | reflexivity].
Qed.

End CropView.

(** ** Crop sizes given as tuples *)

Section CropSizeTuples.
Context {F : Type} {NF : Number F}.
Variable rescale : ndarray F -> F -> option nat -> result (ndarray F).
Variable imsave : string -> pyobj F -> result unit.

(** X14. A crop size given as a tuple of fewer than two elements makes the
    sampler, the cropper (on an array) and [scale_crop] (on an array) raise
    [IndexError], the last before anything is dumped or rescaled; elements
    after the second are ignored by all three. *)
Theorem crop_size_tuple_arity (t : list Z) (a : ndarray F)
        (height width h_offset w_offset : Z) (scale_factor : F)
        (K : option (ndarray F)) (debug : bool) (debug_root : option string) :
  ((List.length t < 2)%nat ->
   get_random_crop_offsets (CropTuple t) height width
   = Raise (IndexError "tuple index out of range") /\
   crop_img (PyNdarray a) (CropTuple t) h_offset w_offset
   = Raise (IndexError "tuple index out of range") /\
   scale_crop rescale imsave (PyNdarray a) (CropTuple t) h_offset w_offset
              scale_factor K debug debug_root
   = Raise (IndexError "tuple index out of range")) /\
  (forall crop_height crop_width extra,
      t = crop_height :: crop_width :: extra ->
      get_random_crop_offsets (CropTuple t) height width
      = get_random_crop_offsets (CropTuple [crop_height; crop_width]) height width /\
      crop_img (PyNdarray a) (CropTuple t) h_offset w_offset
      = crop_img (PyNdarray a) (CropTuple [crop_height; crop_width])
                 h_offset w_offset /\
      scale_crop rescale imsave (PyNdarray a) (CropTuple t) h_offset w_offset
                 scale_factor K debug debug_root
      = scale_crop rescale imsave (PyNdarray a) (CropTuple [crop_height; crop_width])
                   h_offset w_offset scale_factor K debug debug_root).
Proof.
  split.
  - intros Hlen.
    assert (Hun : unpack_crop_size (CropTuple t)
                  = Raise (IndexError "tuple index out of range")).
    { destruct t as [| x [| y t]]; simpl in Hlen; try lia; reflexivity. }
    unfold get_random_crop_offsets, crop_img, crop_img_in, scale_crop,
      scale_crop_image.
    rewrite Hun. repeat split; reflexivity.
  - intros crop_height crop_width extra ->. repeat split; reflexivity.
Qed.

(** When no dump is requested the writer and the dump directory play no
    part. *)
Lemma scale_crop_image_quiet (imsave' : string -> pyobj F -> result unit)
      (img : pyobj F) crop_size h_offset w_offset (scale_factor : F)
      debug_root debug_root' :
  scale_crop_image rescale imsave img crop_size h_offset w_offset scale_factor
                   false debug_root
  = scale_crop_image rescale imsave' img crop_size h_offset w_offset scale_factor
                     false debug_root'.
Proof. reflexivity. Qed.

(** X15. The debug dumps only observe: a call that returns with [debug] on
    returns the same image and intrinsic with [debug] off, whatever the dump
    directory and the writer. *)
Theorem scale_crop_debug_only_observes
        (imsave' : string -> pyobj F -> result unit)
        (img : pyobj F) crop_size h_offset w_offset (scale_factor : F)
        (K : option (ndarray F)) debug_root debug_root' r :
  scale_crop rescale imsave img crop_size h_offset w_offset scale_factor K
             true debug_root = Ok r ->
  scale_crop rescale imsave' img crop_size h_offset w_offset scale_factor K
             false debug_root' = Ok r.
Proof.
  unfold scale_crop. intros H.
  apply bind_inv in H. destruct H as ([img' [[[pt pb] pl] pr]] & Himg & H).
  apply scale_crop_image_debug in Himg.
  rewrite (scale_crop_image_quiet imsave' img crop_size h_offset w_offset
             scale_factor debug_root debug_root') in Himg.
  rewrite Himg. exact H.
Qed.

End CropSizeTuples.

(** ** The identity transform *)

(** X16. With scale factor 1, zero offsets and the image's own size as the
    crop size, [scale_crop] gives back the image and the intrinsic it was
    given, element for element, provided the resampler returns its input
    at scale 1. *)
Theorem scale_crop_identity
        (rescale : ndarray Q -> Q -> option nat -> result (ndarray Q))
        (imsave : string -> pyobj Q -> result unit)
        (a b K : ndarray Q) (h w : nat) (rest : list nat) debug_root :
  image_rank a ->
  shape a = h :: w :: rest ->
  rescale (copy a) 1%Q (channel_axis_of a) = Ok b ->
  array_equal b a ->
  shape K = [3; 3]%nat ->
  exists out K_aug,
    scale_crop rescale imsave (PyNdarray a) (CropTuple [Z.of_nat h; Z.of_nat w])
               0 0 1%Q (Some K) false debug_root
    = Ok (ScImageK (PyNdarray out) K_aug) /\
    array_equal out a /\
    shape K_aug = [3; 3]%nat /\
    (forall i j, (i < 3)%nat -> (j < 3)%nat ->
                 (item K_aug [i; j] == item K [i; j])%Q).
Proof.
  intros Hrank Hshape Hres [Hbsh Hbit] HK.
  assert (Hrest : (List.length rest <= 1)%nat).
  { unfold image_rank, ndim in Hrank. rewrite Hshape in Hrank. simpl in Hrank. lia. }
  assert (Hbshape : shape b = h :: w :: rest) by congruence.
  destruct (scale_crop_image_spec rescale imsave a b h w rest
              (CropTuple [Z.of_nat h; Z.of_nat w]) (Z.of_nat h) (Z.of_nat w)
              0 0 1%Q debug_root Hrank eq_refl ltac:(lia) ltac:(lia) Hres
              Hbshape Hrest) as (out & Hrun & Hosh & Hoit).
  change 0 with (Z.of_nat 0) in Hrun, Hoit.
  rewrite !slice_indices_inside in Hrun, Hoit by lia.
  cbn [fst snd] in Hrun, Hoit.
  rewrite !pad_before_ge, !pad_after_ge in Hrun by lia.
  rewrite !pad_before_ge in Hoit by lia.
  destruct (intrinsic_update_spec Q_neg_of_int K 1%Q 0 0 0 0 HK)
    as (K_aug & HKrun & HKsh & HKit).
  exists out, K_aug. split; [| split; [| split]].
  - unfold scale_crop. change (Z.of_nat 0) with 0 in Hrun. rewrite Hrun.
    simpl. rewrite HKrun. reflexivity.
  - split.
    + rewrite Hosh, Hshape, !Nat2Z.id. reflexivity.
    + intros idx Hin. rewrite Hosh, !Nat2Z.id in Hin. unfold in_bounds in Hin.
      inversion Hin as [| i ? r1 ? Hi Hin1]; subst.
      inversion Hin1 as [| j ? r ? Hj Hin2]; subst.
      specialize (Hoit i j r Hi Hj Hin2). simpl in Hoit. rewrite Hoit.
      apply Hbit. rewrite Hbshape. unfold in_bounds.
      apply Forall2_cons; [exact Hi |]. apply Forall2_cons; [exact Hj | exact Hin2].
  - exact HKsh.
  - intros i j Hi Hj.
    rewrite (HKit [i; j]).
    + assert (Hi' : i = 0%nat \/ i = 1%nat \/ i = 2%nat) by lia.
      destruct Hi' as [-> | [-> | ->]]; cbn; ring.
    + rewrite HKsh. simpl. unfold in_bounds.
      apply Forall2_cons; [exact Hi |].
      apply Forall2_cons; [exact Hj | apply Forall2_nil].
Qed.

(** ** Worked instances of the further properties *)

Lemma scale_crop_intrinsic_shape_witness :
  scale_crop rescale_nearest imsave_quiet (PyNdarray img_grey) (CropScalar 2)
             0 0 1%Q (Some (np_full [2; 3]%nat 1%Q)) false None
  = Raise (ValueError "shapes not aligned") /\
  exists img' K_aug,
    scale_crop rescale_nearest imsave_quiet (PyNdarray img_grey) (CropScalar 2)
               0 0 1%Q (Some (np_full [3; 4]%nat 1%Q)) false None
    = Ok (ScImageK img' K_aug) /\
    shape K_aug = [3; 4]%nat.
Proof.
  destruct (scale_crop_image rescale_nearest imsave_quiet (PyNdarray img_grey)
                             (CropScalar 2) 0 0 1%Q false None)
    as [e | [img' pads]] eqn:Himg; [vm_compute in Himg; discriminate Himg |].
  split.
  - exact (scale_crop_intrinsic_shape rescale_nearest imsave_quiet
             (PyNdarray img_grey) (CropScalar 2) 0 0 1%Q
             (np_full [2; 3]%nat 1%Q) 2 3 false None img' pads eq_refl Himg).
  - exists img'.
    exact (scale_crop_intrinsic_shape rescale_nearest imsave_quiet
             (PyNdarray img_grey) (CropScalar 2) 0 0 1%Q
             (np_full [3; 4]%nat 1%Q) 3 4 false None img' pads eq_refl Himg).
Defined.

Lemma scale_crop_content_witness :
  exists out,
    scale_crop rescale_nearest imsave_quiet (PyNdarray img_grey) (CropScalar 6)
               0 0 1%Q None false None
    = Ok (ScImage (PyNdarray out)) /\
    shape out = [6; 6]%nat /\
    item out [0; 3]%nat = 0%Q /\
    item out [5; 5]%nat = 0%Q.
Proof.
  edestruct (scale_crop_content rescale_nearest imsave_quiet img_grey _ 4 4 []
               (CropScalar 6) 6 6 0 0 1%Q None
               (or_introl eq_refl) eq_refl ltac:(lia) ltac:(lia)
               ltac:(lia) ltac:(lia) eq_refl eq_refl (or_introl eq_refl))
    as (out & Hrun & Hsh & Hcells).
  exists out. split; [exact Hrun |]. split; [exact Hsh |].
  assert (Hin : forall i j, (i < 6)%nat -> (j < 6)%nat ->
                            in_bounds [i; j] (shape out)).
  { intros i j Hi Hj. rewrite Hsh. unfold in_bounds.
    apply Forall2_cons; [exact Hi |].
    apply Forall2_cons; [exact Hj | apply Forall2_nil]. }
  split.
  - exact (Hcells 0%nat 3%nat [] (Hin 0%nat 3%nat ltac:(lia) ltac:(lia))).
  - exact (Hcells 5%nat 5%nat [] (Hin 5%nat 5%nat ltac:(lia) ltac:(lia))).
Defined.

Lemma crop_img_st_is_view_witness :
  exists crop a',
    crop_img_st {| base := 0%nat; view := [] |} (CropScalar 2) 1 1 [img_grey]
    = ([img_grey], Ok (Some crop)) /\
    write_item crop [0; 1]%nat (99 # 1)%Q [img_grey] = ([a'], Ok tt) /\
    item a' [1; 2]%nat = (99 # 1)%Q.
Proof.
  destruct (crop_img_st_is_view [img_grey] {| base := 0%nat; view := [] |} img_grey
              4 4 [] (CropScalar 2) 2 2 1 1 0 1 [] (99 # 1)%Q
              eq_refl eq_refl (or_introl eq_refl) eq_refl eq_refl
              ltac:(lia) ltac:(lia) ltac:(lia) ltac:(lia) ltac:(lia) ltac:(lia)
              (Forall2_nil lt))
    as (crop & a' & Hcrop & _ & Hwrite & _ & _ & Hitem & _).
  exists crop, a'. split; [exact Hcrop |]. split; [exact Hwrite | exact Hitem].
Defined.

Lemma crop_size_tuple_arity_witness :
  get_random_crop_offsets (CropTuple [5]) 8 8
  = Raise (IndexError "tuple index out of range") /\
  crop_img (PyNdarray img_grey) (CropTuple [5]) 0 0
  = Raise (IndexError "tuple index out of range") /\
  scale_crop rescale_nearest imsave_quiet (PyNdarray img_grey) (CropTuple [5])
             0 0 1%Q None true None
  = Raise (IndexError "tuple index out of range").
Proof.
  apply (proj1 (crop_size_tuple_arity rescale_nearest imsave_quiet [5] img_grey
                  8 8 0 0 1%Q None true None)).
  simpl. lia.
Defined.

Lemma scale_crop_debug_only_observes_witness :
  exists r,
    scale_crop rescale_nearest imsave_quiet (PyNdarray img_grey) (CropScalar 2)
               1 1 1%Q (Some K_example) true None = Ok r /\
    scale_crop rescale_nearest (fun _ _ => Raise (RuntimeError "read-only"))
               (PyNdarray img_grey) (CropScalar 2)
               1 1 1%Q (Some K_example) false (Some "/tmp") = Ok r.
Proof.
  destruct (scale_crop rescale_nearest imsave_quiet (PyNdarray img_grey)
                       (CropScalar 2) 1 1 1%Q (Some K_example) true None)
    as [e | r] eqn:Hrun; [vm_compute in Hrun; discriminate Hrun |].
  exists r. split; [reflexivity |].
  exact (scale_crop_debug_only_observes rescale_nearest imsave_quiet
           (fun _ _ => Raise (RuntimeError "read-only"))
           (PyNdarray img_grey) (CropScalar 2) 1 1 1%Q (Some K_example)
           None (Some "/tmp") r Hrun).
Defined.

Lemma rescale_nearest_unit_scale :
  exists b,
    rescale_nearest (copy img_grey) 1%Q (channel_axis_of img_grey) = Ok b /\
    array_equal b img_grey.
Proof.
  eexists. split; [reflexivity |]. split; [reflexivity |].
  intros idx Hin. unfold in_bounds in Hin.
  inversion Hin as [| i ? r1 ? Hi Hin1]; subst.
  inversion Hin1 as [| j ? r ? Hj Hin2]; subst.
  inversion Hin2; subst.
  destruct i as [| [| [| [| i]]]]; try lia;
    destruct j as [| [| [| [| j]]]]; try lia; reflexivity.
Qed.

Lemma scale_crop_identity_witness :
  exists out K_aug,
    scale_crop rescale_nearest imsave_quiet (PyNdarray img_grey)
               (CropTuple [4; 4]) 0 0 1%Q (Some K_example) false None
    = Ok (ScImageK (PyNdarray out) K_aug) /\
    array_equal out img_grey /\
    (item K_aug [0; 2]%nat == 320)%Q.
Proof.
  destruct rescale_nearest_unit_scale as (b & Hres & Heq).
  destruct (scale_crop_identity rescale_nearest imsave_quiet img_grey b K_example
              4 4 [] None (or_introl eq_refl) eq_refl Hres Heq eq_refl)
    as (out & K_aug & Hrun & Hout & _ & HK).
  exists out, K_aug. split; [exact Hrun |]. split; [exact Hout |].
  exact (HK 0%nat 2%nat ltac:(lia) ltac:(lia)).
Defined.
